(** * PySDD, [pysdd/io.py]: DOT rendering of SDDs and pure-Python weighted
    model counting over NNF and SDD files.

    The development embeds the four public functions of [pysdd/io.py],

      - [sdd_to_dot]    (with its helpers [_format_sddnode_label],
                         [_format_sddnode_xlabel], [_sddnode_to_dot_int]),
      - [vtree_to_dot]  (with its helper [_vtree_to_dot_int]),
      - [nnf_file_wmc],
      - [sdd_file_wmc],

    and proves properties of them.  Python values are modelled as follows.

      - [float]: the evaluators only use the constants [1.0], [0.0] and the
        operators [*] and [+]; they are written once over a class [Weight]
        and instantiated with the kernel's binary64 floats (the arithmetic
        Python performs), with [Z] (exact arithmetic) and with the terms of
        a circuit (to read back what a file encodes).
      - [dict] of weights: any type with stdpp's [Lookup Z W]; [gmap Z W] is
        the instance that stands for a Python [dict].
      - [list] used as an array: [list] with Python's indexing (negative
        indices count from the end, out of range raises [IndexError]).
      - exceptions: a [result] type; [Raise e] aborts every enclosing
        computation, as an uncaught Python exception does.
      - text files: the [string] a file opened in text mode delivers (line
        ends already translated to LF), of ASCII characters; [readlines],
        [strip], [split] and [int] are modelled on such strings.
      - [str]: a [string] of bytes, non-ASCII characters in UTF-8.
      - SDD nodes: a tree with an [id] at every node, the unfolding of the
        DAG; a node is recognised by its [id].
      - the module-level global [node_count] and the local [visited] set:
        explicit state threaded through the traversal. *)

From Stdlib Require Import ZArith Ascii String Floats.
From Stdlib Require Uint63.
From stdpp Require Import base tactics option list list_numbers gmap strings pretty.

Set Warnings "-inexact-float,-register-all".
Local Open Scope string_scope.
Local Open Scope list_scope.
Local Open Scope Z_scope.

(** ** Python exceptions and results *)

Inductive exception : Type :=
  | Exception (msg : string)      (* [raise Exception(msg)] *)
  | ValueError (msg : string)     (* [raise ValueError(msg)], [int()] on a bad token *)
  | IndexError                    (* list index out of range *)
  | TypeError.                    (* arithmetic on [None], [in] on [None] *)

Inductive result (A : Type) : Type :=
  | Ok (a : A)
  | Raise (e : exception).
Arguments Ok {A} a.
Arguments Raise {A} e.

#[global] Instance result_ret : MRet result := @Ok.
#[global] Instance result_bind : MBind result := λ A B f m,
  match m with
  | Ok a => f a
  | Raise e => Raise e
  end.
#[global] Instance result_fmap : FMap result := λ A B f m,
  match m with
  | Ok a => Ok (f a)
  | Raise e => Raise e
  end.

Definition is_ok {A} (r : result A) : bool :=
  match r with Ok _ => true | Raise _ => false end.

(** Monadic left fold: a Python [for] loop whose body may raise. *)
Fixpoint foldlM {A B} (f : A → B → result A) (a : A) (l : list B) : result A :=
  match l with
  | [] => Ok a
  | b :: l => a' ← f a b; foldlM f a' l
  end.

(** ** Python built-ins used by the module *)
Module Py.

(** [l[i]]: negative indices count from the end. *)
Definition index {A} (l : list A) (i : Z) : option nat :=
  let n := Z.of_nat (length l) in
  if bool_decide (0 ≤ i < n) then Some (Z.to_nat i)
  else if bool_decide (- n ≤ i < 0) then Some (Z.to_nat (n + i))
  else None.

Definition getitem {A} (l : list A) (i : Z) : result A :=
  match index l i with
  | Some k =>
      match l !! k with
      | Some x => Ok x
      | None => Raise IndexError
      end
  | None => Raise IndexError
  end.

(** [l[i] = x] *)
Definition setitem {A} (l : list A) (i : Z) (x : A) : result (list A) :=
  match index l i with
  | Some k => Ok (<[k:=x]> l)
  | None => Raise IndexError
  end.

(** [[x] * n]: empty when [n <= 0]. *)
Definition repeat {A} (x : A) (n : Z) : list A := replicate (Z.to_nat n) x.

(** [range(n)] *)
Definition range (n : Z) : list Z := seqZ 0 n.

(** [str.isspace] on an ASCII character: TAB, LF, VT, FF, CR, the four
    separators FS, GS, RS, US, and the space. *)
Definition isspace (c : ascii) : bool :=
  let n := N_of_ascii c in
  ((9 <=? n) && (n <=? 13) || (28 <=? n) && (n <=? 32))%N.

Fixpoint lstrip (s : string) : string :=
  match s with
  | String c r => if isspace c then lstrip r else s
  | EmptyString => EmptyString
  end.

(** [rstrip] drops the trailing run of whitespace. *)
Fixpoint rstrip (s : string) : string :=
  match s with
  | String c r =>
      match rstrip r with
      | EmptyString => if isspace c then EmptyString else String c EmptyString
      | r' => String c r'
      end
  | EmptyString => EmptyString
  end.

(** [s.strip()] *)
Definition strip (s : string) : string := rstrip (lstrip s).

(** [s.split(sep)] for a one-character separator: every occurrence of
    [sep] ends a field, so the result is never empty and consecutive
    separators give empty fields. *)
Fixpoint split (sep : ascii) (s : string) : list string :=
  match s with
  | EmptyString => [EmptyString]
  | String c r =>
      if decide (c = sep) then EmptyString :: split sep r
      else
        match split sep r with
        | w :: ws => String c w :: ws
        | [] => [String c EmptyString]
        end
  end.

(** [f.readlines()]: the lines of the text, each with its terminating
    newline (the last one possibly without). *)
Fixpoint readlines (s : string) : list string :=
  match s with
  | EmptyString => []
  | String c r =>
      if decide (c = "010"%char) then String c EmptyString :: readlines r
      else
        match readlines r with
        | l :: ls => String c l :: ls
        | [] => [String c EmptyString]
        end
  end.

Definition digit (c : ascii) : option Z :=
  let n := N_of_ascii c in
  if ((48 <=? n) && (n <=? 57))%N then Some (Z.of_N n - 48) else None.

(** The digits of an [int] literal: at least one digit, single
    underscores allowed between digits. *)
Fixpoint digits (acc : Z) (after_digit : bool) (s : string) : option Z :=
  match s with
  | EmptyString => if after_digit then Some acc else None
  | String c r =>
      match digit c with
      | Some d => digits (10 * acc + d) true r
      | None =>
          if decide (c = "_"%char) then
            if after_digit then digits acc false r else None
          else None
      end
  end.

(** [int(s)] in base 10: surrounding whitespace, an optional sign, then
    the digits; anything else is a [ValueError] (its message quotes the
    token as it is; Python would escape unprintable characters). *)
Definition int (s : string) : result Z :=
  let s' := strip s in
  let '(neg, body) :=
    match s' with
    | String "-" r => (true, r)
    | String "+" r => (false, r)
    | _ => (false, s')
    end in
  match digits 0 false body with
  | Some n => Ok (if neg : bool then - n else n)
  | None => Raise (ValueError ("invalid literal for int() with base 10: '" +:+ s +:+ "'"))
  end.

(** ["sep".join(l)] *)
Fixpoint join (sep : string) (l : list string) : string :=
  match l with
  | [] => EmptyString
  | [x] => x
  | x :: l => x +:+ sep +:+ join sep l
  end.

(** [str(n)] for integers *)
Definition str_N (n : N) : string := pretty n.
Definition str_Z (n : Z) : string := pretty n.

End Py.


(** ** Weights

    The number type of the evaluators: the constants [1.0] and [0.0] and the
    two operators the code applies to weights. *)
Class Weight (W : Type) : Type := {
  w_one : W;                 (* [1.0], also [true_weight] *)
  w_zero : W;                (* [0.0], also [false_weight] *)
  w_mul : W → W → W;         (* [*] *)
  w_add : W → W → W;         (* [+] *)
}.

(** Python's [float]: IEEE 754 binary64. *)
#[global] Instance float_weight : Weight float := {|
  w_one := 1.0%float;
  w_zero := 0.0%float;
  w_mul := PrimFloat.mul;
  w_add := PrimFloat.add;
|}.

(** Exact integer arithmetic. *)
#[global] Instance Z_weight : Weight Z := {|
  w_one := 1;
  w_zero := 0;
  w_mul := Z.mul;
  w_add := Z.add;
|}.

(** A function from literals is a weight table too. *)
#[global] Instance fun_lookup {W} : Lookup Z W (Z → option W) := λ l f, f l.

Section evaluators.
Context {W : Type} `{!Weight W}.
Context {M : Type} `{!Lookup Z W M}.

(** Slots of the weight array hold [None] until they are assigned. *)
Definition py_mul (a b : option W) : result W :=
  match a, b with
  | Some x, Some y => Ok (w_mul x y)
  | _, _ => Raise TypeError
  end.

Definition py_add (a b : option W) : result W :=
  match a, b with
  | Some x, Some y => Ok (w_add x y)
  | _, _ => Raise TypeError
  end.

(** [weights[lit] if lit in weights else 1.0]; [in] on the default
    [weights=None] is a [TypeError]. *)
Definition literal_weight (weights : option M) (lit : Z) : result W :=
  match weights with
  | None => Raise TypeError
  | Some m =>
      match m !! lit with
      | Some w => Ok w
      | None => Ok w_one
      end
  end.

(** The local variables of an evaluator that survive a loop iteration. *)
Record wmc_state : Type := WmcState {
  wmc : list (option W);
  ln : Z;
  detected : bool;
}.

Definition wmc_init : wmc_state := {| wmc := []; ln := 0; detected := false |}.

(** *** [nnf_file_wmc] *)

(** [wmc[ln] *= wmc[int(cols[2 + i])]] *)
Definition nnf_and_step (cols : list string) (ln : Z) (wmc : list (option W)) (i : Z)
    : result (list (option W)) :=
  cur ← Py.getitem wmc ln;
  tok ← Py.getitem cols (2 + i);
  c ← Py.int tok;
  x ← Py.getitem wmc c;
  v ← py_mul cur x;
  Py.setitem wmc ln (Some v).

(** [wmc[ln] += wmc[int(cols[3 + i])]] *)
Definition nnf_or_step (cols : list string) (ln : Z) (wmc : list (option W)) (i : Z)
    : result (list (option W)) :=
  cur ← Py.getitem wmc ln;
  tok ← Py.getitem cols (3 + i);
  c ← Py.int tok;
  x ← Py.getitem wmc c;
  v ← py_add cur x;
  Py.setitem wmc ln (Some v).

(** The three [if cols[0] == ...] statements of the loop body. *)
Definition nnf_L (weights : option M) (cols : list string) (ln : Z) (wmc : list (option W))
    : result (list (option W)) :=
  tok ← Py.getitem cols 1;
  lit ← Py.int tok;
  w ← literal_weight weights lit;
  Py.setitem wmc ln (Some w).

Definition nnf_A (cols : list string) (ln : Z) (wmc : list (option W))
    : result (list (option W)) :=
  wmc ← Py.setitem wmc ln (Some w_one);
  tok ← Py.getitem cols 1;
  k ← Py.int tok;
  foldlM (nnf_and_step cols ln) wmc (Py.range k).

Definition nnf_O (cols : list string) (ln : Z) (wmc : list (option W))
    : result (list (option W)) :=
  wmc ← Py.setitem wmc ln (Some w_zero);
  tok ← Py.getitem cols 2;
  k ← Py.int tok;
  foldlM (nnf_or_step cols ln) wmc (Py.range k).

(** One iteration of [for line in nnf_file.readlines()]. *)
Definition nnf_line (weights : option M) (st : wmc_state) (line : string) : result wmc_state :=
  let cols := Py.split " " (Py.strip line) in
  cols0 ← Py.getitem cols 0;
  if decide (cols0 = "c") then Ok st
  else if decide (cols0 = "nnf") then
    tok ← Py.getitem cols 1;
    n ← Py.int tok;
    Ok {| wmc := Py.repeat None n; ln := ln st; detected := true |}
  else if negb (detected st) then
    Raise (Exception "An NNF file should start with 'nnf'")
  else
    wmc1 ← (if decide (cols0 = "L") then nnf_L weights cols (ln st) (wmc st) else Ok (wmc st));
    wmc2 ← (if decide (cols0 = "A") then nnf_A cols (ln st) wmc1 else Ok wmc1);
    wmc3 ← (if decide (cols0 = "O") then nnf_O cols (ln st) wmc2 else Ok wmc2);
    Ok {| wmc := wmc3; ln := ln st + 1; detected := detected st |}.

(** The whole loop, from the initial values of the locals. *)
Definition nnf_run (nnf_file : string) (weights : option M) : result wmc_state :=
  foldlM (nnf_line weights) wmc_init (Py.readlines nnf_file).

(** [nnf_file_wmc(nnf_filename, weights=None)], on the text of the file;
    the result is [wmc[-1]], a weight or [None]. *)
Definition nnf_file_wmc (nnf_file : string) (weights : option M) : result (option W) :=
  st ← nnf_run nnf_file weights;
  Py.getitem (wmc st) (-1).

(** *** [sdd_file_wmc] *)

Definition sdd_L (weights : option M) (cols : list string) (wmc : list (option W))
    : result (list (option W)) :=
  tok ← Py.getitem cols 1;
  nodeid ← Py.int tok;
  tok ← Py.getitem cols 3;
  lit ← Py.int tok;
  w ← literal_weight weights lit;
  Py.setitem wmc nodeid (Some w).

Definition sdd_F (cols : list string) (wmc : list (option W)) : result (list (option W)) :=
  tok ← Py.getitem cols 1;
  nodeid ← Py.int tok;
  Py.setitem wmc nodeid (Some w_zero).

Definition sdd_T (cols : list string) (wmc : list (option W)) : result (list (option W)) :=
  tok ← Py.getitem cols 1;
  nodeid ← Py.int tok;
  Py.setitem wmc nodeid (Some w_one).

(** [w += wmc[elmts[2 * idx]] * wmc[elmts[2 * idx + 1]]] *)
Definition sdd_element_step (elmts : list Z) (wmc : list (option W)) (w : W) (idx : Z)
    : result W :=
  p ← Py.getitem elmts (2 * idx);
  wp ← Py.getitem wmc p;
  s ← Py.getitem elmts (2 * idx + 1);
  ws ← Py.getitem wmc s;
  v ← py_mul wp ws;
  py_add (Some w) (Some v).

Definition sdd_D (cols : list string) (wmc : list (option W)) : result (list (option W)) :=
  tok ← Py.getitem cols 1;
  nodeid ← Py.int tok;
  tok ← Py.getitem cols 3;
  nb_elmts ← Py.int tok;
  elmts ← mapM Py.int (drop 4 cols);
  w ← foldlM (sdd_element_step elmts wmc) w_zero (Py.range nb_elmts);
  Py.setitem wmc nodeid (Some w).

(** One iteration of [for line in sdd_file.readlines()]. *)
Definition sdd_line (weights : option M) (st : wmc_state) (line : string) : result wmc_state :=
  let cols := Py.split " " (Py.strip line) in
  cols0 ← Py.getitem cols 0;
  if decide (cols0 = "c") then Ok st
  else if decide (cols0 = "sdd") then
    tok ← Py.getitem cols 1;
    n ← Py.int tok;
    Ok {| wmc := Py.repeat None n; ln := ln st; detected := true |}
  else if negb (detected st) then
    Raise (Exception "An SDD file should start with 'sdd'")
  else
    wmc1 ← (if decide (cols0 = "L") then sdd_L weights cols (wmc st) else Ok (wmc st));
    wmc2 ← (if decide (cols0 = "F") then sdd_F cols wmc1 else Ok wmc1);
    wmc3 ← (if decide (cols0 = "T") then sdd_T cols wmc2 else Ok wmc2);
    wmc4 ← (if decide (cols0 = "D") then sdd_D cols wmc3 else Ok wmc3);
    Ok {| wmc := wmc4; ln := ln st + 1; detected := detected st |}.

Definition sdd_run (sdd_file : string) (weights : option M) : result wmc_state :=
  foldlM (sdd_line weights) wmc_init (Py.readlines sdd_file).

(** [sdd_file_wmc(sdd_filename, weights=None)]; the result is [wmc[0]]. *)
Definition sdd_file_wmc (sdd_file : string) (weights : option M) : result (option W) :=
  st ← sdd_run sdd_file weights;
  Py.getitem (wmc st) 0.

End evaluators.

Arguments wmc_state W : clear implicits.

(** A text from its lines, each terminated by a newline but the last. *)
Definition text (lines : list string) : string := Py.join (String "010" "") lines.

(** ** Preconditions used to state what a line computes *)

(** Every child index is an earlier slot that already holds a weight. *)
Definition children_assigned {W} (wmc : list (option W)) (ln : Z) (cs : list Z) (ws : list W) : Prop :=
  Forall2 (λ c w, 0 ≤ c < ln ∧ wmc !! Z.to_nat c = Some (Some w)) cs ws.

(** The tokens are the decimal spellings of the integers. *)
Definition tokens_are (toks : list string) (cs : list Z) : Prop :=
  Forall2 (λ tok c, Py.int tok = Ok c) toks cs.

(** The element list of a [D] line, as the tokens after the count spell
    it: primes and subs alternate. *)
Definition flat_pairs (ps : list (Z * Z)) : list Z :=
  concat ((λ ps, [ps.1; ps.2]) <$> ps).

(** Every referenced node id holds a weight when the line is processed. *)
Definition elements_assigned {W} (wmc : list (option W)) (ps : list (Z * Z)) (wps : list (W * W)) : Prop :=
  Forall2 (λ ps wps, Py.getitem wmc ps.1 = Ok (Some wps.1) ∧ Py.getitem wmc ps.2 = Ok (Some wps.2))
    ps wps.

(** [0.0 + w1*w1' + w2*w2' + ...], added in the order of the loop. *)
Definition sum_of_products {W} `{!Weight W} (wps : list (W * W)) : W :=
  foldl (λ acc wps, w_add acc (w_mul wps.1 wps.2)) w_zero wps.

(** The leading token [cols[0]] of a line. *)
Definition leading_token (line : string) : string :=
  default "" (head (Py.split " " (Py.strip line))).

(** ** The circuit a file encodes, and its models

    The evaluators never inspect a weight: they only combine weights with
    [*] and [+].  Run on the free terms over the literals, the same code
    returns the circuit the file encodes. *)
Inductive circuit : Type :=
  | CLit (lit : Z)
  | COne
  | CZero
  | CMul (a b : circuit)
  | CAdd (a b : circuit).

#[global] Instance circuit_weight : Weight circuit := {|
  w_one := COne;
  w_zero := CZero;
  w_mul := CMul;
  w_add := CAdd;
|}.

(** The table that gives every literal itself as its weight. *)
Definition lit_table : Z → option circuit := λ lit, Some (CLit lit).

Definition nnf_circuit (nnf_file : string) : result (option circuit) :=
  nnf_file_wmc nnf_file (Some lit_table).

Definition sdd_circuit (sdd_file : string) : result (option circuit) :=
  sdd_file_wmc sdd_file (Some lit_table).

(** The value of a circuit for given literal weights. *)
Fixpoint eval {W} `{!Weight W} (lw : Z → W) (c : circuit) : W :=
  match c with
  | CLit lit => lw lit
  | COne => w_one
  | CZero => w_zero
  | CMul a b => w_mul (eval lw a) (eval lw b)
  | CAdd a b => w_add (eval lw a) (eval lw b)
  end.

(** The weight a table gives a literal: [weights[lit]], or [1.0]. *)
Definition table_weight {W} `{!Weight W} {M} `{!Lookup Z W M} (weights : M) (lit : Z) : W :=
  default w_one (weights !! lit).

Definition map_state {V W} (h : V → W) (st : wmc_state V) : wmc_state W :=
  {| wmc := fmap (M:=list) (fmap (M:=option) h) (wmc st);
     ln := ln st; detected := detected st |}.

(** *** Reference semantics

    What follows is not code of the module: it is the meaning the
    specification gives a circuit, a Boolean function whose satisfying
    assignments are counted, against which the evaluators are compared.

    An assignment is the set of the variables it makes true; the literal
    [v] is the variable [v], the literal [-v] its negation. *)
Definition sat_lit (a : gset Z) (lit : Z) : bool :=
  if 0 <? lit then bool_decide (lit ∈ a) else negb (bool_decide (- lit ∈ a)).

Fixpoint sat (a : gset Z) (c : circuit) : bool :=
  match c with
  | CLit lit => sat_lit a lit
  | COne => true
  | CZero => false
  | CMul x y => sat a x && sat a y
  | CAdd x y => sat a x || sat a y
  end.

Fixpoint vars (c : circuit) : gset Z :=
  match c with
  | CLit lit => {[Z.abs lit]}
  | COne | CZero => ∅
  | CMul x y | CAdd x y => vars x ∪ vars y
  end.

(** The number of assignments to the variables [vs] that extend [a] and
    satisfy [f]. *)
Fixpoint count_models (vs : list Z) (f : gset Z → bool) (a : gset Z) : nat :=
  match vs with
  | [] => if f a then 1%nat else 0%nat
  | v :: vs => (count_models vs f ({[v]} ∪ a) + count_models vs f a)%nat
  end.

(** The number of satisfying assignments of a circuit, over the variables
    that occur in it. *)
Definition model_count (c : circuit) : nat :=
  count_models (elements (vars c)) (λ a, sat a c) ∅.

(** Decomposable: the factors of a product share no variable.
    Deterministic: the terms of a sum have no common model.
    Smooth: a term of a sum that has a model mentions every variable of
    the sum. *)
Fixpoint proper (c : circuit) : bool :=
  match c with
  | CLit _ | COne | CZero => true
  | CMul x y => proper x && proper y && bool_decide (vars x ## vars y)
  | CAdd x y =>
      proper x && proper y
      && (model_count (CMul x y) =? 0)%nat
      && ((model_count x =? 0)%nat || bool_decide (vars x = vars x ∪ vars y))
      && ((model_count y =? 0)%nat || bool_decide (vars y = vars x ∪ vars y))
  end.

(** The natural number [n] as a weight: [1.0 + (1.0 + ... + 0.0)]. *)
Fixpoint weight_of_nat {W} `{!Weight W} (n : nat) : W :=
  match n with
  | O => w_zero
  | S n => w_add w_one (weight_of_nat n)
  end.

(** Exact arithmetic: the laws of sums and products the count relies on.
    Binary64 floats satisfy them only as long as no rounding occurs. *)
Class WeightLaws (W : Type) `{!Weight W} : Prop := {
  w_add_0_l : ∀ x : W, w_add w_zero x = x;
  w_add_0_r : ∀ x : W, w_add x w_zero = x;
  w_add_assoc : ∀ x y z : W, w_add (w_add x y) z = w_add x (w_add y z);
  w_mul_1_l : ∀ x : W, w_mul w_one x = x;
  w_mul_0_l : ∀ x : W, w_mul w_zero x = w_zero;
  w_mul_add_distr_r : ∀ x y z : W, w_mul (w_add x y) z = w_add (w_mul x z) (w_mul y z);
}.

(** Apply [f] to the weight a call returned, if it returned one. *)
Definition on_weight {A B} (f : A → B) (r : result (option A)) : result (option B) :=
  fmap (M:=result) (fmap (M:=option) f) r.

(** [f] does not read the variable [v]. *)
Definition ignores (f : gset Z → bool) (v : Z) : Prop :=
  ∀ b, f ({[v]} ∪ b) = f b.

(** ** SDD nodes as the renderer reads them

    The renderer only uses the traversal interface of a node: its kind
    ([is_true], [is_false], [is_literal], [is_decision]), [id], [literal],
    [vtree()] (absent, or a vtree node of which only [position()] is read)
    and [elements()].  Sharing is by identity: two occurrences of one node
    are two equal subterms carrying the same [id]. *)
Inductive SddNode : Type :=
  | TrueNode (id : N) (vtree : option Z)
  | FalseNode (id : N) (vtree : option Z)
  | LiteralNode (id : N) (vtree : option Z) (literal : Z)
  | DecisionNode (id : N) (vtree : option Z) (elements : list (SddNode * SddNode)).

Definition node_id (node : SddNode) : N :=
  match node with
  | TrueNode id _ | FalseNode id _ | LiteralNode id _ _ | DecisionNode id _ _ => id
  end.

Definition node_vtree (node : SddNode) : option Z :=
  match node with
  | TrueNode _ vt | FalseNode _ vt | LiteralNode _ vt _ | DecisionNode _ vt _ => vt
  end.

Definition is_true (node : SddNode) : bool :=
  match node with TrueNode _ _ => true | _ => false end.
Definition is_false (node : SddNode) : bool :=
  match node with FalseNode _ _ => true | _ => false end.
Definition is_literal (node : SddNode) : bool :=
  match node with LiteralNode _ _ _ => true | _ => false end.
Definition is_decision (node : SddNode) : bool :=
  match node with DecisionNode _ _ _ => true | _ => false end.

(** [node.literal], read on literal nodes only. *)
Definition node_literal (node : SddNode) : Z :=
  match node with LiteralNode _ _ lit => lit | _ => 0 end.

Definition node_elements (node : SddNode) : list (SddNode * SddNode) :=
  match node with DecisionNode _ _ elts => elts | _ => [] end.

(** [LitNameMap = Dict[Union[int, str], str]] *)
Abbreviation LitNameMap := (gmap (Z + string) string).

(** The double quote, and [f"{name}"] for a key. *)
Definition dq : string := String "034" EmptyString.
Definition format_key (name : Z + string) : string :=
  match name with
  | inl lit => Py.str_Z lit
  | inr s => s
  end.

(** [litnamemap.get(name, name)], formatted *)
Definition get_name (litnamemap : LitNameMap) (name : Z + string) : string :=
  match litnamemap !! name with
  | Some s => s
  | None => format_key name
  end.

(** [_format_sddnode_label(node, name, litnamemap)], for the dictionary
    [sdd_to_dot] always supplies. *)
Definition _format_sddnode_label (node : SddNode) (name : option (Z + string))
    (litnamemap : LitNameMap) : string :=
  let name :=
    match name with
    | Some name => name
    | None =>
        if is_true node then inr (default "⟙" (litnamemap !! inr "true"))
        else if is_false node then inr (default "⟘" (litnamemap !! inr "false"))
        else inl (node_literal node)
    end in
  get_name litnamemap name.

(** [_format_sddnode_xlabel(node)]; the two characters backslash, n are
    Graphviz's line break. *)
Definition _format_sddnode_xlabel (node : SddNode) : string :=
  let vtree_pos :=
    match node_vtree node with
    | Some position => Py.str_Z position
    | None => "n"
    end in
  "Id:" +:+ Py.str_N (node_id node) +:+ "\nVp:" +:+ vtree_pos.

(** [extra_options] *)
Definition extra_options (node : SddNode) (show_id : bool) : string :=
  if show_id then ",xlabel=" +:+ dq +:+ _format_sddnode_xlabel node +:+ dq else "".

(** The statements the traversal emits. *)
Definition leaf_stmt (nodeid label extra : string) : string :=
  nodeid +:+ " [shape=rectangle,label=" +:+ dq +:+ label +:+ dq +:+ extra +:+ "];".

Definition decision_stmt (litnamemap : LitNameMap) (show_id : bool) (node : SddNode) : string :=
  Py.str_N (node_id node) +:+ " [shape=circle,label=" +:+ dq
    +:+ default "+" (litnamemap !! inr "add") +:+ dq +:+ extra_options node show_id +:+ "];".

Definition ps_id (id idx : N) : string := "ps_" +:+ Py.str_N id +:+ "_" +:+ Py.str_N idx.

Definition element_stmt (litnamemap : LitNameMap) (id idx : N) : string :=
  ps_id id idx +:+ " [shape=circle, label=" +:+ dq
    +:+ default "×" (litnamemap !! inr "mult") +:+ dq +:+ "];".

Definition element_edge (id idx : N) : string :=
  Py.str_N id +:+ " -> " +:+ ps_id id idx +:+ " [arrowhead=none];".

Definition child_edge (id idx : N) (child_id : string) : string :=
  ps_id id idx +:+ " -> " +:+ child_id +:+ ";".

(** The state a traversal reads and writes: the module-level global
    [node_count] and the set [visited] of the current call.  A node is in
    [visited] by its identity, which is its [id]. *)
Record render_state : Type := RenderState {
  node_count : N;
  visited : gset N;
}.

Definition visited_add (node : SddNode) (st : render_state) : render_state :=
  {| node_count := node_count st; visited := {[node_id node]} ∪ visited st |}.

(** The leaf branch of [_sddnode_to_dot_int]. *)
Definition leaf_to_dot (node : SddNode) (litnamemap : LitNameMap) (show_id merge_leafs : bool)
    (st : render_state) : (string * list string) * render_state :=
  let st := if merge_leafs then visited_add node st else st in
  let label := _format_sddnode_label node None litnamemap in
  let extra := extra_options node show_id in
  let '(nodeid, st) :=
    if merge_leafs then (Py.str_N (node_id node), st)
    else ("n" +:+ Py.str_N (node_count st) +:+ "_" +:+ Py.str_N (node_id node),
          {| node_count := node_count st + 1; visited := visited st |}) in
  ((nodeid, [leaf_stmt nodeid label extra]), st).

Section elements_loop.
Variable rec : SddNode → render_state → (string * list string) * render_state.
Variables (litnamemap : LitNameMap) (id : N).

(** [for idx, (prime, sub) in enumerate(node.elements())], from index
    [idx] on, with the statement list [s] built so far. *)
Fixpoint elements_loop (elts : list (SddNode * SddNode)) (idx : N) (s : list string)
    (st : render_state) : list string * render_state :=
  match elts with
  | [] => (s, st)
  | (prime, sub) :: elts =>
      let '((prime_id, prime_s), st) := rec prime st in
      let '((sub_id, sub_s), st) := rec sub st in
      let s := s ++ [element_stmt litnamemap id idx; element_edge id idx;
                     child_edge id idx prime_id; child_edge id idx sub_id] in
      let s := s ++ prime_s in
      let s := s ++ sub_s in
      elements_loop elts (idx + 1)%N s st
  end.
End elements_loop.

(** [_sddnode_to_dot_int(node, visited, litnamemap, show_id, merge_leafs)] *)
Fixpoint _sddnode_to_dot_int (node : SddNode) (litnamemap : LitNameMap)
    (show_id merge_leafs : bool) (st : render_state) {struct node}
    : (string * list string) * render_state :=
  if bool_decide (node_id node ∈ visited st) then ((Py.str_N (node_id node), []), st)
  else
    match node with
    | DecisionNode id _ elts =>
        let st := visited_add node st in
        let nodeid := Py.str_N id in
        let s := [decision_stmt litnamemap show_id node] in
        let '(s, st) :=
          elements_loop (λ child st, _sddnode_to_dot_int child litnamemap show_id merge_leafs st)
            litnamemap id elts 0%N s st in
        ((nodeid, s), st)
    | _ => leaf_to_dot node litnamemap show_id merge_leafs st
    end.

(** The list [s] of [sdd_to_dot] before it is joined, for a root that is
    not [None], when the global [node_count] holds [g]: the traversal runs
    on a fresh [visited] set. *)
Definition sdd_to_dot_lines (node : SddNode) (litnamemap : LitNameMap)
    (show_id merge_leafs : bool) (g : N) : list string * render_state :=
  let visited := ∅ in
  let '((nodeid, root_s), st) :=
    _sddnode_to_dot_int node litnamemap show_id merge_leafs
      {| node_count := g; visited := visited |} in
  (["digraph sdd {"] ++ root_s ++ ["}"], st).

(** [sdd_to_dot(node, litnamemap=None, show_id=False, merge_leafs=False)],
    from the value [g] of the global [node_count] to the returned string (or
    the exception) and the value of the global afterwards.  The first
    statement, [node_count = 0], overwrites the global. *)
Definition sdd_to_dot (node : option SddNode) (litnamemap : option LitNameMap)
    (show_id merge_leafs : bool) (g : N) : result string * N :=
  let g := 0%N in
  let litnamemap := default ∅ litnamemap in
  match node with
  | None => (Raise (ValueError "No root node given"), g)
  | Some node =>
      let '(s, st) := sdd_to_dot_lines node litnamemap show_id merge_leafs g in
      (Ok (Py.join (String "010" "") s), node_count st)
  end.

(** ** Reading the output of a traversal *)

(** All the nodes below a node, itself included, one entry per path. *)
Fixpoint subnodes (node : SddNode) : list SddNode :=
  node ::
  match node with
  | DecisionNode _ _ elts =>
      flat_map (λ ps, let '(prime, sub) := ps in subnodes prime ++ subnodes sub) elts
  | _ => []
  end.

(** Ids identify nodes: the unfolding of a DAG whose nodes have distinct
    ids. *)
Definition unique_ids (root : SddNode) : Prop :=
  ∀ a b, a ∈ subnodes root → b ∈ subnodes root → node_id a = node_id b → a = b.

(** How often a statement occurs in an output. *)
Definition occurrences (stmt : string) (s : list string) : nat :=
  length (filter (λ line, line = stmt) s).

(** How many lines of an output satisfy [P]. *)
Definition count_lines (P : string → Prop) `{!∀ line, Decision (P line)}
    (s : list string) : nat :=
  length (filter P s).

(** Shapes of identifiers, used to tell statements apart. *)
Definition is_digit (c : ascii) : bool :=
  match Py.digit c with Some _ => true | None => false end.

Fixpoint digits_only (s : string) : bool :=
  match s with
  | EmptyString => true
  | String c r => is_digit c && digits_only r
  end.

Definition starts_with_digit (s : string) : bool :=
  match s with
  | String c _ => is_digit c
  | EmptyString => false
  end.

(** [s] begins with [p]. *)
Fixpoint starts_with (p s : string) : bool :=
  match p, s with
  | EmptyString, _ => true
  | String c p, String c' s => Ascii.eqb c c' && starts_with p s
  | String _ _, EmptyString => false
  end.

(** The statements a decision node contributes on its own account: its
    node statement and, for each of its elements, the statement of the
    element node and the edge from the decision node to it. *)
Inductive owned_by (litnamemap : LitNameMap) (show_id : bool) (d : SddNode) : string → Prop :=
  | owns_decision_stmt :
      owned_by litnamemap show_id d (decision_stmt litnamemap show_id d)
  | owns_element_stmt (idx : nat) :
      (idx < length (node_elements d))%nat →
      owned_by litnamemap show_id d (element_stmt litnamemap (node_id d) (N.of_nat idx))
  | owns_element_edge (idx : nat) :
      (idx < length (node_elements d))%nat →
      owned_by litnamemap show_id d (element_edge (node_id d) (N.of_nat idx)).

(** The line is an edge from the element node [ps_<id>_<idx>] to one of
    its two children. *)
Definition is_child_edge (id idx : N) (line : string) : Prop :=
  starts_with (ps_id id idx +:+ " -> ") line = true.

#[global] Instance is_child_edge_dec (id idx : N) (line : string) :
  Decision (is_child_edge id idx line) :=
  decide (starts_with (ps_id id idx +:+ " -> ") line = true).

(** Occurrences of [stmt] among the element statements and edges that
    the loop over [elts] emits from index [idx] on. *)
Fixpoint own_occurrences (stmt : string) (litnamemap : LitNameMap) (id : N)
    (elts : list (SddNode * SddNode)) (idx : N) : nat :=
  match elts with
  | [] => 0
  | _ :: elts =>
      (occurrences stmt [element_stmt litnamemap id idx; element_edge id idx]
       + own_occurrences stmt litnamemap id elts (idx + 1)%N)%nat
  end.

(** [κ idx + κ (idx + 1) + ...], [n] terms. *)
Fixpoint element_total (κ : N → nat) (n : nat) (idx : N) : nat :=
  match n with
  | O => 0%nat
  | S n => (κ idx + element_total κ n (idx + 1)%N)%nat
  end.

(** 1 when [id] entered the visited set between [before] and [after]. *)
Definition newly_visited (id : N) (before after : gset N) : nat :=
  if decide (id ∈ after ∧ id ∉ before) then 1%nat else 0%nat.

(** Invariant of a traversal under [root]: every decision node that is
    visited and not pending (its loop has ended) has its decision children
    visited. *)
Definition closed_except (root : SddNode) (V P : gset N) : Prop :=
  ∀ x prime sub,
    x ∈ subnodes root → node_id x ∈ V → node_id x ∉ P →
    (prime, sub) ∈ node_elements x →
    (is_decision prime = true → node_id prime ∈ V)
    ∧ (is_decision sub = true → node_id sub ∈ V).

(** The literals that occur in a circuit. *)
Fixpoint literals (c : circuit) : gset Z :=
  match c with
  | CLit lit => {[lit]}
  | COne | CZero => ∅
  | CMul x y | CAdd x y => literals x ∪ literals y
  end.

(** The state [st] with its line counter moved to [k]. *)
Definition with_ln {W} (k : Z) (st : wmc_state W) : wmc_state W :=
  {| wmc := wmc st; ln := k; detected := detected st |}.

(** The slots from [ln] on hold no weight yet. *)
Definition later_slots_unassigned {W} (st : wmc_state W) : Prop :=
  0 ≤ ln st ∧ ∀ j x, (Z.to_nat (ln st) ≤ j)%nat → wmc st !! j = Some x → x = None.

(** [l'] is [l] but for the slot [k]. *)
Definition only_slot {A} (k : nat) (l l' : list A) : Prop :=
  length l' = length l ∧ ∀ j, j ≠ k → l' !! j = l !! j.

(** ** Reading the nodes and edges of the output *)

(** A later state of a traversal: the counter did not go down and nothing
    left the visited set. *)
Definition state_le (st st' : render_state) : Prop :=
  (node_count st ≤ node_count st')%N ∧ visited st ⊆ visited st'.

(** The line is a node statement for the identifier [name]: it begins
    with [name], a space and an opening bracket. *)
Definition declares (name line : string) : Prop :=
  starts_with (name +:+ " [") line = true.

#[global] Instance declares_dec (name line : string) : Decision (declares name line) :=
  decide (starts_with (name +:+ " [") line = true).

(** Some line of [s] is a node statement for [name]. *)
Definition declared (s : list string) (name : string) : Prop :=
  ∃ line, line ∈ s ∧ declares name line.

(** The line is the statement of a leaf that was not merged, [n<k>_<id>]
    for some [k] and [id]; of the [k]-th such leaf. *)
Definition is_unmerged_leaf (line : string) : Prop :=
  starts_with "n" line = true.

#[global] Instance is_unmerged_leaf_dec (line : string) : Decision (is_unmerged_leaf line) :=
  decide (starts_with "n" line = true).

Definition is_unmerged_leaf_nr (k : N) (line : string) : Prop :=
  starts_with ("n" +:+ Py.str_N k +:+ "_") line = true.

#[global] Instance is_unmerged_leaf_nr_dec (k : N) (line : string) :
  Decision (is_unmerged_leaf_nr k line) :=
  decide (starts_with ("n" +:+ Py.str_N k +:+ "_") line = true).

(** If [line] is an edge, its two ends are declared in [s] or, for an end
    that carries an SDD id, visited ([V]). *)
Definition edge_ends_declared (s : list string) (V : gset N) (line : string) : Prop :=
  (∀ a i child, line = child_edge a i child →
     declared s (ps_id a i) ∧ ((∃ k, child = Py.str_N k ∧ k ∈ V) ∨ declared s child))
  ∧ (∀ a i, line = element_edge a i → a ∈ V ∧ declared s (ps_id a i)).

Definition edges_ok (s : list string) (V : gset N) : Prop :=
  ∀ line, line ∈ s → edge_ends_declared s V line.

(** ** Vtrees as the renderer reads them

    [vtree_to_dot] only uses four methods of a vtree node: [position()],
    [var()] (read on leaves only), [left()] and [right()], each of the last
    two a vtree node or [None]. *)
Inductive Vtree : Type :=
  | VtreeNode (position : Z) (var : Z) (left right : option Vtree).

Definition vtree_position (vtree : Vtree) : Z :=
  match vtree with VtreeNode position _ _ _ => position end.
Definition vtree_var (vtree : Vtree) : Z :=
  match vtree with VtreeNode _ var _ _ => var end.
Definition vtree_left (vtree : Vtree) : option Vtree :=
  match vtree with VtreeNode _ _ l _ => l end.
Definition vtree_right (vtree : Vtree) : option Vtree :=
  match vtree with VtreeNode _ _ _ r => r end.

(** [name = vtree.var()], then [litnamemap.get(name, name)] when a
    dictionary is given, formatted. *)
Definition vtree_name (litnamemap : option LitNameMap) (var : Z) : string :=
  match litnamemap with
  | Some litnamemap => get_name litnamemap (inl var)
  | None => format_key (inl var)
  end.

(** [extra_options] of a vtree node *)
Definition vtree_extra_options (position : Z) (show_id : bool) : string :=
  if show_id then ",xlabel=" +:+ dq +:+ Py.str_Z position +:+ dq else "".

Definition vtree_leaf_stmt (position : Z) (name extra : string) : string :=
  Py.str_Z position +:+ " [label=" +:+ dq +:+ name +:+ dq +:+ ",shape=" +:+ dq +:+ "box" +:+ dq
    +:+ extra +:+ "];".

Definition vtree_inner_stmt (position : Z) (extra : string) : string :=
  Py.str_Z position +:+ " [shape=" +:+ dq +:+ "point" +:+ dq +:+ extra +:+ "];".

Definition vtree_edge (position child : Z) : string :=
  Py.str_Z position +:+ " -> " +:+ Py.str_Z child +:+ " [arrowhead=none];".

(** The statement of the node itself, the first one [_vtree_to_dot_int]
    emits. *)
Definition vtree_stmt (vtree : Vtree) (litnamemap : option LitNameMap) (show_id : bool) : string :=
  match vtree_left vtree, vtree_right vtree with
  | None, None =>
      vtree_leaf_stmt (vtree_position vtree) (vtree_name litnamemap (vtree_var vtree))
        (vtree_extra_options (vtree_position vtree) show_id)
  | _, _ =>
      vtree_inner_stmt (vtree_position vtree) (vtree_extra_options (vtree_position vtree) show_id)
  end.

(** [_vtree_to_dot_int(vtree, litnamemap, show_id)] *)
Fixpoint _vtree_to_dot_int (vtree : Vtree) (litnamemap : option LitNameMap) (show_id : bool)
    {struct vtree} : list string :=
  match vtree with
  | VtreeNode position var l r =>
      let s := [] in
      let s := s ++ [vtree_stmt vtree litnamemap show_id] in
      let s :=
        match l with
        | Some l =>
            let s := s ++ [vtree_edge position (vtree_position l)] in
            s ++ _vtree_to_dot_int l litnamemap show_id
        | None => s
        end in
      let s :=
        match r with
        | Some r =>
            let s := s ++ [vtree_edge position (vtree_position r)] in
            s ++ _vtree_to_dot_int r litnamemap show_id
        | None => s
        end in
      s
  end.

(** [vtree_to_dot(vtree, litnamemap=None, show_id=False)], for a vtree
    node. *)
Definition vtree_to_dot (vtree : Vtree) (litnamemap : option LitNameMap) (show_id : bool)
    : string :=
  let s := ["digraph vtree {"] in
  let s := s ++ _vtree_to_dot_int vtree litnamemap show_id in
  let s := s ++ ["}"] in
  Py.join (String "010" "") s.

(** The children of a vtree node, and all the nodes of a vtree in
    pre-order. *)
Definition vtree_children (vtree : Vtree) : list Vtree :=
  match vtree_left vtree with Some l => [l] | None => [] end
  ++ match vtree_right vtree with Some r => [r] | None => [] end.

Fixpoint vtree_nodes (vtree : Vtree) : list Vtree :=
  match vtree with
  | VtreeNode _ _ l r =>
      vtree ::
      match l with Some l => vtree_nodes l | None => [] end
      ++ match r with Some r => vtree_nodes r | None => [] end
  end.

Definition vtree_is_leaf (vtree : Vtree) : bool :=
  match vtree_left vtree, vtree_right vtree with
  | None, None => true
  | _, _ => false
  end.

(** The characters of a decimal integer: the digits and the sign. *)
Definition is_int_char (c : ascii) : bool := is_digit c || Ascii.eqb c "-".

Fixpoint int_chars_only (s : string) : bool :=
  match s with
  | EmptyString => true
  | String c r => is_int_char c && int_chars_only r
  end.

(** ** Integers held exactly by binary64 floats

    Not code of the module: the vocabulary for saying that a float the
    evaluators compute is a whole number.  [integer_float N x] reads the
    kernel's specification [x] of a float as the integer [N]: zero, or a
    normal number with a 53-bit mantissa [K] and an exponent [e] such that
    [K * 2^e = N].  Every integer from 0 up to [2^53] is held by exactly one
    float. *)
Definition integer_float (N : Z) (x : spec_float) : Prop :=
  match x with
  | S754_zero false => N = 0
  | S754_finite false K e =>
      2 ^ 52 ≤ Z.pos K < 2 ^ 53 ∧ -52 ≤ e ≤ 1 ∧ Z.pos K * 2 ^ (e + 52) = N * 2 ^ 52
  | _ => False
  end.

Definition holds_integer (N : Z) (x : float) : Prop := integer_float N (Prim2SF x).

(** The float of the integer [n], by the conversion of the kernel (the [float(n)]
    of Python for [0 <= n < 2^63]). *)
Definition float_of_Z (n : Z) : float := PrimFloat.of_uint63 (Uint63.of_Z n).

(** Every value met while the circuit is evaluated on the integers [n]
    stays between 0 and [2^53], the range in which binary64 holds every
    integer. *)
Fixpoint exact_range (n : Z → Z) (c : circuit) : Prop :=
  match c with
  | CLit lit => 0 ≤ n lit ≤ 2 ^ 53
  | COne | CZero => True
  | CMul x y => exact_range n x ∧ exact_range n y ∧ eval n x * eval n y ≤ 2 ^ 53
  | CAdd x y => exact_range n x ∧ exact_range n y ∧ eval n x + eval n y ≤ 2 ^ 53
  end.

(** A test file: the smooth d-DNNF
    [(x_{n+1} ∧ ⋀ (x_i ∨ ¬x_i)) ∨ (¬x_{n+1} ∧ ⋀ x_i)], [i] from 1 to [n],
    over [n + 1] variables, which has [2^n + 1] models. *)
Definition rounding_gadget (i : Z) : list string :=
  ["L " +:+ Py.str_Z i; "L " +:+ Py.str_Z (- i);
   "O " +:+ Py.str_Z i +:+ " 2 " +:+ Py.str_Z (3 * (i - 1)) +:+ " "
     +:+ Py.str_Z (3 * (i - 1) + 1)].

Definition rounding_nnf_file (n : Z) : string :=
  let vs := seqZ 1 n in
  let children (f : Z → Z) := foldr (λ i s, " " +:+ Py.str_Z (f i) +:+ s) "" vs in
  text (["nnf " +:+ Py.str_Z (3 * n + 7) +:+ " " +:+ Py.str_Z (4 * n + 6) +:+ " "
           +:+ Py.str_Z (n + 1)]
        ++ flat_map rounding_gadget vs
        ++ ["A " +:+ Py.str_Z n +:+ children (λ i, 3 * (i - 1) + 2);
            "A " +:+ Py.str_Z n +:+ children (λ i, 3 * (i - 1));
            "L " +:+ Py.str_Z (n + 1);
            "L " +:+ Py.str_Z (- (n + 1));
            "A 2 " +:+ Py.str_Z (3 * n + 2) +:+ " " +:+ Py.str_Z (3 * n);
            "A 2 " +:+ Py.str_Z (3 * n + 3) +:+ " " +:+ Py.str_Z (3 * n + 1);
            "O " +:+ Py.str_Z (n + 1) +:+ " 2 " +:+ Py.str_Z (3 * n + 4) +:+ " "
              +:+ Py.str_Z (3 * n + 5)]).

(** *** Weighted model count (reference semantics)

    Not code of the module either: the weighted model count the
    evaluators are named after.  [weighted_models lw vs f a] is the sum, over
    the assignments to the variables [vs] that extend [a] and satisfy [f], of
    the product of the weights of the literals the assignment makes true:
    [lw v] for a variable [v] it makes true, [lw (- v)] for one it makes
    false. *)
Fixpoint weighted_models {W} `{!Weight W} (lw : Z → W) (vs : list Z) (f : gset Z → bool)
    (a : gset Z) : W :=
  match vs with
  | [] => if f a then w_one else w_zero
  | v :: vs =>
      w_add (w_mul (lw v) (weighted_models lw vs f ({[v]} ∪ a)))
            (w_mul (lw (- v)) (weighted_models lw vs f a))
  end.

(** The weighted model count of a circuit, over the variables that occur
    in it. *)
Definition weighted_model_count {W} `{!Weight W} (lw : Z → W) (c : circuit) : W :=
  weighted_models lw (elements (vars c)) (λ a, sat a c) ∅.

(** Exact arithmetic with commutative [+] and [*]: the laws of a
    commutative semiring, which the integers satisfy.  Binary64 floats
    satisfy them only as long as no rounding occurs. *)
Class SemiringLaws (W : Type) `{!Weight W} : Prop := {
  sr_add_comm : ∀ x y : W, w_add x y = w_add y x;
  sr_add_assoc : ∀ x y z : W, w_add (w_add x y) z = w_add x (w_add y z);
  sr_add_0_l : ∀ x : W, w_add w_zero x = x;
  sr_mul_comm : ∀ x y : W, w_mul x y = w_mul y x;
  sr_mul_assoc : ∀ x y z : W, w_mul (w_mul x y) z = w_mul x (w_mul y z);
  sr_mul_1_l : ∀ x : W, w_mul w_one x = x;
  sr_mul_0_l : ∀ x : W, w_mul w_zero x = w_zero;
  sr_mul_add_distr_l : ∀ x y z : W, w_mul x (w_add y z) = w_add (w_mul x y) (w_mul x z);
}.

(** The keys at which the statements of one node read the label map:
    ["true"] (resp. ["false"]) and then the name found there, looked up once
    more by [_format_sddnode_label]; the literal of a literal node; ["add"]
    for a decision node and ["mult"] for its elements. *)
Definition label_keys (node : SddNode) (litnamemap : LitNameMap) : list (Z + string) :=
  match node with
  | TrueNode _ _ => [inr "true"; inr (default "⟙" (litnamemap !! inr "true"))]
  | FalseNode _ _ => [inr "false"; inr (default "⟘" (litnamemap !! inr "false"))]
  | LiteralNode _ _ literal => [inl literal]
  | DecisionNode _ _ elements =>
      inr "add" :: match elements with [] => [] | _ :: _ => [inr "mult"] end
  end.

(** [line] is among the lines of every visit of [node] during which the
    node [p] enters the visited set. *)
Definition emitted_when_visited (litnamemap : LitNameMap) (show_id merge_leafs : bool)
    (p : SddNode) (line : string) (node : SddNode) : Prop :=
  ∀ st, node_id p ∉ visited st →
        node_id p ∈ visited (_sddnode_to_dot_int node litnamemap show_id merge_leafs st).2 →
        line ∈ (_sddnode_to_dot_int node litnamemap show_id merge_leafs st).1.2.

(** * Properties *)

(** ** The built-ins on sample inputs *)

Example readlines_ex :
  Py.readlines ("a" +:+ String "010" ("b" +:+ String "010" (String "010" "c")))
  = ["a" +:+ String "010" ""; "b" +:+ String "010" ""; String "010" ""; "c"]
  ∧ Py.readlines "" = []
  ∧ Py.readlines (String "010" "") = [String "010" ""].
Proof. split_and!; reflexivity. Qed.

Example strip_split_ex :
  Py.split " " (Py.strip ("O 2  2 10 " +:+ String "010" "")) = ["O"; "2"; ""; "2"; "10"]
  ∧ Py.split " " "" = [""]
  ∧ Py.split " " " " = [""; ""]
  ∧ Py.strip (String "009" (" L 1" +:+ String "013" (String "010" ""))) = "L 1".
Proof. split_and!; reflexivity. Qed.

Example int_ex :
  Py.int " -1_0" = Ok (-10) ∧ Py.int "+007" = Ok 7
  ∧ Py.int (String "009" ("1" +:+ String "010" "")) = Ok 1
  ∧ is_ok (Py.int "1__0") = false ∧ is_ok (Py.int "") = false
  ∧ is_ok (Py.int "_1") = false ∧ is_ok (Py.int "1_") = false
  ∧ is_ok (Py.int "- 1") = false ∧ is_ok (Py.int "+-1") = false
  ∧ is_ok (Py.int "0x10") = false ∧ is_ok (Py.int "1.0") = false
  ∧ is_ok (Py.int "-") = false.
Proof. split_and!; reflexivity. Qed.

Example getitem_ex :
  Py.getitem [1; 2; 3] (-3) = Ok 1 ∧ Py.getitem [1; 2; 3] (-1) = Ok 3
  ∧ Py.getitem [1; 2; 3] (-4) = Raise IndexError ∧ Py.getitem [1; 2; 3] 3 = Raise IndexError
  ∧ Py.repeat 0 (-3) = [] ∧ Py.range (-2) = [] ∧ Py.range 3 = [0; 1; 2].
Proof. split_and!; reflexivity. Qed.

(** ** Python indexing on in-range, non-negative indices *)

Lemma index_nonneg {A} (l : list A) (i : Z) :
  0 ≤ i < Z.of_nat (length l) → Py.index l i = Some (Z.to_nat i).
Proof.
  intros Hi. unfold Py.index. cbn zeta.
  rewrite bool_decide_eq_true_2 by done. done.
Qed.

Lemma getitem_lookup {A} (l : list A) (i : Z) (x : A) :
  0 ≤ i → l !! Z.to_nat i = Some x → Py.getitem l i = Ok x.
Proof.
  intros Hi Hx. unfold Py.getitem.
  rewrite index_nonneg.
  - by rewrite Hx.
  - apply lookup_lt_Some in Hx. lia.
Qed.

Lemma getitem_nat {A} (l : list A) (k : nat) (x : A) :
  l !! k = Some x → Py.getitem l (Z.of_nat k) = Ok x.
Proof. intros Hx. apply getitem_lookup; [lia|]. by rewrite Nat2Z.id. Qed.

Lemma setitem_nonneg {A} (l : list A) (i : Z) (x : A) :
  0 ≤ i < Z.of_nat (length l) → Py.setitem l i x = Ok (<[Z.to_nat i:=x]> l).
Proof. intros Hi. unfold Py.setitem. by rewrite index_nonneg. Qed.

Lemma getitem_cons_succ {A} (x : A) (l : list A) (i : Z) :
  0 ≤ i → Py.getitem (x :: l) (1 + i) = Py.getitem l i.
Proof.
  intros Hi. unfold Py.getitem, Py.index. cbn zeta. cbn [length].
  destruct (decide (i < Z.of_nat (length l))) as [Hlt|Hge].
  - rewrite !bool_decide_eq_true_2 by lia.
    replace (Z.to_nat (1 + i)) with (S (Z.to_nat i)) by lia. done.
  - rewrite !bool_decide_eq_false_2 by lia. done.
Qed.


Lemma getitem_middle {A} (pre post : list A) (x : A) (i : Z) :
  Z.of_nat (length pre) = i → Py.getitem (pre ++ x :: post) i = Ok x.
Proof.
  intros <-. apply getitem_nat. by apply list_lookup_middle.
Qed.

(** ** The loops of the evaluators *)
Section loops.
Context {W : Type} `{!Weight W}.
Implicit Types (ws : list W) (cs : list Z).

Lemma nnf_loop_gen (step : list string → Z → list (option W) → Z → result (list (option W)))
    (op : W → W → W) (off : Z) cols ln wmc0 :
  (∀ wmc i, step cols ln wmc i =
     cur ← Py.getitem wmc ln; tok ← Py.getitem cols (off + i); c ← Py.int tok;
     x ← Py.getitem wmc c;
     v ← match cur, x with Some a, Some b => Ok (op a b) | _, _ => Raise TypeError end;
     Py.setitem wmc ln (Some v)) →
  0 ≤ ln < Z.of_nat (length wmc0) →
  ∀ toks cs ws pre rest acc i,
    cols = pre ++ toks ++ rest →
    Z.of_nat (length pre) = off + i →
    tokens_are toks cs →
    children_assigned wmc0 ln cs ws →
    foldlM (step cols ln) (<[Z.to_nat ln:=Some acc]> wmc0) (seqZ i (Z.of_nat (length toks)))
    = Ok (<[Z.to_nat ln:=Some (foldl op acc ws)]> wmc0).
Proof.
  intros Hstep Hln toks cs ws pre rest acc i Hcols Hpre Htoks.
  revert ws pre acc i Hcols Hpre.
  induction Htoks as [|tok c toks cs Htok Htoks IH]; intros ws pre acc i Hcols Hpre Hch.
  - apply Forall2_nil_inv_l in Hch as ->. by rewrite seqZ_nil.
  - apply Forall2_cons_inv_l in Hch as (w & ws' & [Hc Hw] & Hch & ->).
    rewrite seqZ_cons by (cbn [length]; lia). cbn [foldlM foldl].
    rewrite Hstep.
    rewrite (getitem_lookup _ ln (Some acc)); [|lia|].
    2:{ apply list_lookup_insert_eq. lia. }
    cbn [mbind result_bind].
    rewrite Hcols, (getitem_middle pre (toks ++ rest) tok) by done.
    cbn [mbind result_bind]. rewrite Htok. cbn [mbind result_bind].
    rewrite (getitem_lookup _ c (Some w)); [|lia|].
    2:{ rewrite list_lookup_insert_ne by lia. done. }
    cbn [mbind result_bind].
    rewrite setitem_nonneg by (rewrite length_insert; lia).
    rewrite list_insert_insert_eq.
    replace (Z.pred (Z.of_nat (length (tok :: toks)))) with (Z.of_nat (length toks))
      by (cbn [length]; lia).
    rewrite <- Hcols.
    apply (IH ws' (pre ++ [tok])); [|rewrite length_app; cbn [length]; lia|done].
    rewrite Hcols, <- app_assoc. done.
Qed.

End loops.

Ltac step_bind := cbn [mbind result_bind].

(** Read a token at a known position of [cols]. *)
Ltac read_col :=
  repeat match goal with
  | |- context [Py.getitem (?x :: ?l) ?i] =>
      erewrite (getitem_lookup (x :: l) i) by (first [lia | reflexivity])
  end;
  step_bind.

Ltac decide_col :=
  repeat match goal with
  | |- context [decide (?a = ?b)] =>
      let H := fresh in
      destruct (decide (a = b)) as [H|H];
      [try discriminate H; clear H|try (exfalso; apply H; reflexivity); clear H]
  end.

(** ** Lines of an NNF file *)
Section nnf_lines.
Context {W : Type} `{!Weight W}.
Context {M : Type} `{!Lookup Z W M}.
Implicit Types (st : wmc_state W) (weights : option M).

Lemma nnf_line_L (m : M) st line tok rest lit :
  detected st = true →
  Py.split " " (Py.strip line) = "L" :: tok :: rest →
  Py.int tok = Ok lit →
  0 ≤ ln st < Z.of_nat (length (wmc st)) →
  nnf_line (Some m) st line
  = Ok {| wmc := <[Z.to_nat (ln st):=Some (default w_one (m !! lit))]> (wmc st);
          ln := ln st + 1; detected := true |}.
Proof.
  intros Hdet Hcols Htok Hln. unfold nnf_line. rewrite Hcols. cbn zeta.
  read_col. decide_col. rewrite Hdet. cbn [negb].
  unfold nnf_L. read_col. rewrite Htok. step_bind.
  unfold literal_weight.
  destruct (m !! lit) as [w|]; step_bind; rewrite setitem_nonneg by done; done.
Qed.

Lemma nnf_line_A weights st line ktok toks rest cs ws :
  detected st = true →
  Py.split " " (Py.strip line) = "A" :: ktok :: toks ++ rest →
  Py.int ktok = Ok (Z.of_nat (length toks)) →
  tokens_are toks cs →
  children_assigned (wmc st) (ln st) cs ws →
  0 ≤ ln st < Z.of_nat (length (wmc st)) →
  nnf_line weights st line
  = Ok {| wmc := <[Z.to_nat (ln st):=Some (foldl w_mul w_one ws)]> (wmc st);
          ln := ln st + 1; detected := true |}.
Proof.
  intros Hdet Hcols Hk Htoks Hch Hln. unfold nnf_line. rewrite Hcols. cbn zeta.
  read_col. decide_col. rewrite Hdet. cbn [negb]. step_bind.
  unfold nnf_A. rewrite setitem_nonneg by done. step_bind.
  read_col. rewrite Hk. step_bind. unfold Py.range.
  rewrite (nnf_loop_gen nnf_and_step w_mul 2 _ (ln st) (wmc st) (λ _ _, eq_refl) Hln
             toks cs ws ["A"; ktok] rest w_one 0 eq_refl eq_refl Htoks Hch).
  done.
Qed.

Lemma nnf_line_O weights st line jtok ktok toks rest cs ws :
  detected st = true →
  Py.split " " (Py.strip line) = "O" :: jtok :: ktok :: toks ++ rest →
  Py.int ktok = Ok (Z.of_nat (length toks)) →
  tokens_are toks cs →
  children_assigned (wmc st) (ln st) cs ws →
  0 ≤ ln st < Z.of_nat (length (wmc st)) →
  nnf_line weights st line
  = Ok {| wmc := <[Z.to_nat (ln st):=Some (foldl w_add w_zero ws)]> (wmc st);
          ln := ln st + 1; detected := true |}.
Proof.
  intros Hdet Hcols Hk Htoks Hch Hln. unfold nnf_line. rewrite Hcols. cbn zeta.
  read_col. decide_col. rewrite Hdet. cbn [negb]. step_bind.
  unfold nnf_O. rewrite setitem_nonneg by done. step_bind.
  read_col. rewrite Hk. step_bind. unfold Py.range.
  rewrite (nnf_loop_gen nnf_or_step w_add 3 _ (ln st) (wmc st) (λ _ _, eq_refl) Hln
             toks cs ws ["O"; jtok; ktok] rest w_zero 0 eq_refl eq_refl Htoks Hch).
  done.
Qed.

(** The [j] token of an [O] line is never read. *)
Lemma nnf_line_O_j weights st line1 line2 j1 j2 rest :
  Py.split " " (Py.strip line1) = "O" :: j1 :: rest →
  Py.split " " (Py.strip line2) = "O" :: j2 :: rest →
  nnf_line weights st line1 = nnf_line weights st line2.
Proof.
  intros H1 H2. unfold nnf_line. rewrite H1, H2. cbn zeta.
  read_col. decide_col.
  destruct (negb (detected st)); [done|]. step_bind.
  unfold nnf_O.
  destruct (Py.setitem (wmc st) (ln st) (Some w_zero)) as [wmc1|e]; [|done]. step_bind.
  assert (Hget : ∀ k, 2 ≤ k →
    Py.getitem ("O" :: j1 :: rest) k = Py.getitem ("O" :: j2 :: rest) k).
  { intros k Hk. replace k with (1 + (1 + (k - 2))) by lia.
    rewrite !getitem_cons_succ by lia. done. }
  rewrite (Hget 2) by done.
  destruct (Py.getitem ("O" :: j2 :: rest) 2) as [tok|e]; [|done]. step_bind.
  destruct (Py.int tok) as [k|e]; [|done]. step_bind.
  f_equal. unfold Py.range.
  assert (Hstep : ∀ wmc0 i, 0 ≤ i →
    nnf_or_step ("O" :: j1 :: rest) (ln st) wmc0 i
    = nnf_or_step ("O" :: j2 :: rest) (ln st) wmc0 i).
  { intros wmc0 i Hi. unfold nnf_or_step. by rewrite Hget by lia. }
  assert (Hloop : ∀ l wmc0, Forall (λ i, 0 ≤ i) l →
    foldlM (nnf_or_step ("O" :: j1 :: rest) (ln st)) wmc0 l
    = foldlM (nnf_or_step ("O" :: j2 :: rest) (ln st)) wmc0 l).
  { induction l as [|i l IH]; intros wmc0 Hl; [done|].
    apply Forall_cons in Hl as [Hi Hl]. cbn [foldlM].
    rewrite Hstep by done.
    destruct (nnf_or_step _ _ _ _) as [wmc'|e']; step_bind; [|done]. by apply IH. }
  rewrite Hloop; [done|].
  apply Forall_forall. intros i Hi. apply elem_of_seqZ in Hi. lia.
Qed.

End nnf_lines.

(** ** Lines of an SDD file *)

Lemma mapM_int (toks : list string) (cs : list Z) :
  tokens_are toks cs → mapM Py.int toks = Ok cs.
Proof.
  induction 1 as [|tok c toks cs Htok _ IH]; [done|].
  cbn [mapM]. rewrite Htok. step_bind.
  change (mapM Py.int toks ≫= (λ k, mret (c :: k)) = Ok (c :: cs)).
  rewrite IH. done.
Qed.

Section sdd_lines.
Context {W : Type} `{!Weight W}.
Context {M : Type} `{!Lookup Z W M}.
Implicit Types (st : wmc_state W) (weights : option M).

Lemma sdd_element_step_Ok (wmc0 : list (option W)) pre p s rest wp ws acc i :
  Z.of_nat (length pre) = 2 * i →
  Py.getitem wmc0 p = Ok (Some wp) →
  Py.getitem wmc0 s = Ok (Some ws) →
  sdd_element_step (pre ++ p :: s :: rest) wmc0 acc i = Ok (w_add acc (w_mul wp ws)).
Proof.
  intros Hpre Hp Hs. unfold sdd_element_step.
  rewrite (getitem_middle pre _ p (2 * i)) by done. step_bind. rewrite Hp. step_bind.
  replace (pre ++ p :: s :: rest) with ((pre ++ [p]) ++ s :: rest) by by rewrite <- app_assoc.
  rewrite (getitem_middle (pre ++ [p]) _ s (2 * i + 1)).
  2:{ rewrite length_app. cbn [length]. lia. }
  step_bind. rewrite Hs. reflexivity.
Qed.

Lemma sdd_element_loop (wmc0 : list (option W)) elmts ps wps :
  elements_assigned wmc0 ps wps →
  ∀ pre extra acc i,
    elmts = pre ++ flat_pairs ps ++ extra →
    Z.of_nat (length pre) = 2 * i →
    foldlM (sdd_element_step elmts wmc0) acc (seqZ i (Z.of_nat (length ps)))
    = Ok (foldl (λ acc wps, w_add acc (w_mul wps.1 wps.2)) acc wps).
Proof.
  induction 1 as [|[p s] [wp ws] ps wps [Hp Hs] _ IH]; intros pre extra acc i Helm Hpre.
  - by rewrite seqZ_nil.
  - rewrite seqZ_cons by (cbn [length]; lia). cbn [foldlM foldl fst snd] in *.
    unfold flat_pairs in Helm. cbn [fmap list_fmap concat fst snd app] in Helm.
    rewrite Helm at 1.
    rewrite (sdd_element_step_Ok wmc0 pre p s _ wp ws acc i Hpre Hp Hs). step_bind.
    replace (Z.pred (Z.of_nat (length ((p, s) :: ps)))) with (Z.of_nat (length ps))
      by (cbn [length]; lia).
    apply (IH (pre ++ [p; s]) extra).
    + rewrite Helm, <- app_assoc. done.
    + rewrite length_app. cbn [length]. lia.
Qed.

Lemma sdd_line_D weights st line idtok vtok ntok etoks nodeid ps extra wps :
  detected st = true →
  Py.split " " (Py.strip line) = "D" :: idtok :: vtok :: ntok :: etoks →
  Py.int idtok = Ok nodeid →
  Py.int ntok = Ok (Z.of_nat (length ps)) →
  tokens_are etoks (flat_pairs ps ++ extra) →
  elements_assigned (wmc st) ps wps →
  0 ≤ nodeid < Z.of_nat (length (wmc st)) →
  sdd_line weights st line
  = Ok {| wmc := <[Z.to_nat nodeid:=Some (sum_of_products wps)]> (wmc st);
          ln := ln st + 1; detected := true |}.
Proof.
  intros Hdet Hcols Hid Hn Htoks Hel Hnode. unfold sdd_line. rewrite Hcols. cbn zeta.
  read_col. decide_col. rewrite Hdet. cbn [negb]. step_bind.
  unfold sdd_D. read_col. rewrite Hid. step_bind. rewrite Hn. step_bind.
  cbn [drop]. rewrite drop_0, (mapM_int _ _ Htoks). step_bind. unfold Py.range.
  rewrite (sdd_element_loop (wmc st) _ ps wps Hel [] extra w_zero 0 eq_refl eq_refl).
  step_bind. rewrite setitem_nonneg by done. done.
Qed.

Lemma sdd_line_T weights st line idtok rest nodeid :
  detected st = true →
  Py.split " " (Py.strip line) = "T" :: idtok :: rest →
  Py.int idtok = Ok nodeid →
  0 ≤ nodeid < Z.of_nat (length (wmc st)) →
  sdd_line weights st line
  = Ok {| wmc := <[Z.to_nat nodeid:=Some w_one]> (wmc st); ln := ln st + 1; detected := true |}.
Proof.
  intros Hdet Hcols Hid Hnode. unfold sdd_line. rewrite Hcols. cbn zeta.
  read_col. decide_col. rewrite Hdet. cbn [negb]. step_bind.
  unfold sdd_T. read_col. rewrite Hid. step_bind.
  rewrite setitem_nonneg by done. done.
Qed.

Lemma sdd_line_F weights st line idtok rest nodeid :
  detected st = true →
  Py.split " " (Py.strip line) = "F" :: idtok :: rest →
  Py.int idtok = Ok nodeid →
  0 ≤ nodeid < Z.of_nat (length (wmc st)) →
  sdd_line weights st line
  = Ok {| wmc := <[Z.to_nat nodeid:=Some w_zero]> (wmc st); ln := ln st + 1; detected := true |}.
Proof.
  intros Hdet Hcols Hid Hnode. unfold sdd_line. rewrite Hcols. cbn zeta.
  read_col. decide_col. rewrite Hdet. cbn [negb]. step_bind.
  unfold sdd_F. read_col. rewrite Hid. step_bind.
  rewrite setitem_nonneg by done. done.
Qed.

End sdd_lines.

(** ** Whole files *)

Lemma foldlM_app {A B} (f : A → B → result A) (a : A) (l k : list B) :
  foldlM f a (l ++ k) = a' ← foldlM f a l; foldlM f a' k.
Proof.
  revert a. induction l as [|b l IH]; intros a; [done|].
  cbn [app foldlM]. destruct (f a b) as [a'|e]; step_bind; [apply IH|done].
Qed.

Lemma split_nonempty (sep : ascii) (s : string) : Py.split sep s ≠ [].
Proof.
  destruct s as [|c r]; cbn [Py.split]; [done|].
  destruct (decide (c = sep)); [done|]. by destruct (Py.split sep r).
Qed.

Lemma getitem_cols_0 (line : string) :
  Py.getitem (Py.split " " (Py.strip line)) 0 = Ok (leading_token line).
Proof.
  unfold leading_token.
  pose proof (split_nonempty " " (Py.strip line)) as Hne.
  destruct (Py.split " " (Py.strip line)) as [|tok toks]; [done|].
  by apply getitem_lookup.
Qed.

Section files.
Context {W : Type} `{!Weight W}.
Context {M : Type} `{!Lookup Z W M}.
Implicit Types (st : wmc_state W) (weights : option M).

Lemma nnf_line_comment weights st line :
  leading_token line = "c" → nnf_line weights st line = Ok st.
Proof.
  intros Hc. unfold nnf_line. cbn zeta. rewrite getitem_cols_0, Hc. step_bind.
  decide_col. done.
Qed.

Lemma sdd_line_comment weights st line :
  leading_token line = "c" → sdd_line weights st line = Ok st.
Proof.
  intros Hc. unfold sdd_line. cbn zeta. rewrite getitem_cols_0, Hc. step_bind.
  decide_col. done.
Qed.

Lemma nnf_comments weights st comments :
  Forall (λ line, leading_token line = "c") comments →
  foldlM (nnf_line weights) st comments = Ok st.
Proof.
  induction 1 as [|line comments Hc _ IH]; [done|].
  cbn [foldlM]. by rewrite nnf_line_comment.
Qed.

Lemma sdd_comments weights st comments :
  Forall (λ line, leading_token line = "c") comments →
  foldlM (sdd_line weights) st comments = Ok st.
Proof.
  induction 1 as [|line comments Hc _ IH]; [done|].
  cbn [foldlM]. by rewrite sdd_line_comment.
Qed.

(** A line that is neither a comment nor a header, before any header. *)
Lemma nnf_line_no_header weights st line :
  detected st = false →
  leading_token line ≠ "c" → leading_token line ≠ "nnf" →
  nnf_line weights st line = Raise (Exception "An NNF file should start with 'nnf'").
Proof.
  intros Hdet Hc Hh. unfold nnf_line. cbn zeta. rewrite getitem_cols_0. step_bind.
  rewrite !decide_False by done. by rewrite Hdet.
Qed.

Lemma sdd_line_no_header weights st line :
  detected st = false →
  leading_token line ≠ "c" → leading_token line ≠ "sdd" →
  sdd_line weights st line = Raise (Exception "An SDD file should start with 'sdd'").
Proof.
  intros Hdet Hc Hh. unfold sdd_line. cbn zeta. rewrite getitem_cols_0. step_bind.
  rewrite !decide_False by done. by rewrite Hdet.
Qed.

(** After the header, a line whose leading token is none of the known
    ones changes nothing but the line counter. *)
Lemma nnf_line_unrecognized weights st line :
  detected st = true →
  leading_token line ∉ ["c"; "nnf"; "L"; "A"; "O"] →
  nnf_line weights st line = Ok {| wmc := wmc st; ln := ln st + 1; detected := true |}.
Proof.
  intros Hdet Hin. unfold nnf_line. cbn zeta. rewrite getitem_cols_0. step_bind.
  rewrite !decide_False by (intros Heq; apply Hin; rewrite Heq; set_solver).
  rewrite Hdet. cbn [negb].
  repeat (step_bind; rewrite decide_False by (intros Heq; apply Hin; rewrite Heq; set_solver)).
  reflexivity.
Qed.

Lemma sdd_line_unrecognized weights st line :
  detected st = true →
  leading_token line ∉ ["c"; "sdd"; "L"; "F"; "T"; "D"] →
  sdd_line weights st line = Ok {| wmc := wmc st; ln := ln st + 1; detected := true |}.
Proof.
  intros Hdet Hin. unfold sdd_line. cbn zeta. rewrite getitem_cols_0. step_bind.
  rewrite !decide_False by (intros Heq; apply Hin; rewrite Heq; set_solver).
  rewrite Hdet. cbn [negb].
  repeat (step_bind; rewrite decide_False by (intros Heq; apply Hin; rewrite Heq; set_solver)).
  reflexivity.
Qed.

(** The line counter never goes down. *)
Lemma nnf_line_ln weights st st' line :
  nnf_line weights st line = Ok st' → ln st ≤ ln st'.
Proof.
  unfold nnf_line. cbn zeta. rewrite getitem_cols_0. step_bind.
  destruct (decide (_ = "c")); [intros [= <-]; lia|].
  destruct (decide (_ = "nnf")).
  { destruct (Py.getitem _ 1) as [tok|]; step_bind; [|done].
    destruct (Py.int tok); step_bind; [|done]. intros [= <-]. cbn. lia. }
  destruct (negb _); [done|].
  repeat match goal with
  | |- (?r ≫= _) = _ → _ => destruct r as [?|?]; step_bind; [|done]
  end.
  intros [= <-]. cbn. lia.
Qed.

Lemma nnf_lines_ln weights lines st st' :
  foldlM (nnf_line weights) st lines = Ok st' → ln st ≤ ln st'.
Proof.
  revert st. induction lines as [|line lines IH]; intros st; cbn [foldlM].
  - intros [= <-]. lia.
  - destruct (nnf_line weights st line) as [st1|] eqn:E; [|done]. step_bind.
    intros Hrest. apply nnf_line_ln in E. apply IH in Hrest. lia.
Qed.

End files.

(** * What the evaluators compute *)

(** C1.  In [sdd_file_wmc], a decision line
    [D <id> <vtreeId> <elementCount> <p1> <s1> <p2> <s2> ...] assigns to node
    [<id>] the sum over its [elementCount] elements of
    [weight[pi] * weight[si]], read from the weights the referenced ids hold
    when the line is processed.  In Scenario 3 (node 0 the literal 1 with
    table weight 0.4, node 1 the literal -1 absent from the table, node 2 a
    decision over (0,1) and (1,0)) the decision node gets
    0.4*1.0 + 1.0*0.4 = 0.8. *)
Theorem sdd_decision_line_weight :
  (∀ (W : Type) (HW : Weight W) (M : Type) (HM : Lookup Z W M)
     (weights : option M) (st : wmc_state W)
     (line idtok vtok ntok : string) (etoks : list string)
     (nodeid : Z) (ps : list (Z * Z)) (extra : list Z) (wps : list (W * W)),
     detected st = true →
     Py.split " " (Py.strip line) = "D" :: idtok :: vtok :: ntok :: etoks →
     Py.int idtok = Ok nodeid →
     Py.int ntok = Ok (Z.of_nat (length ps)) →
     tokens_are etoks (flat_pairs ps ++ extra) →
     elements_assigned (wmc st) ps wps →
     0 ≤ nodeid < Z.of_nat (length (wmc st)) →
     sdd_line weights st line
     = Ok {| wmc := <[Z.to_nat nodeid:=Some (sum_of_products wps)]> (wmc st);
             ln := ln st + 1; detected := true |})
  ∧ wmc <$> sdd_run (text ["sdd 3"; "L 0 0 1"; "L 1 0 -1"; "D 2 1 2 0 1 1 0"])
              (Some ({[1 := 0.4%float]} : gmap Z float))
    = Ok [Some 0.4%float; Some 1.0%float; Some 0.8%float]
  ∧ sum_of_products [(0.4, 1.0); (1.0, 0.4)]%float = 0.8%float.
Proof.
  split; [|split].
  - intros. by eapply sdd_line_D.
  - vm_compute. reflexivity.
  - vm_compute. reflexivity.
Qed.

Lemma sdd_decision_line_weight_witness :
  sdd_line (Some ({[1 := 0.4%float]} : gmap Z float))
    {| wmc := [Some 0.4%float; Some 1.0%float; None]; ln := 2; detected := true |}
    "D 2 1 2 0 1 1 0"
  = Ok {| wmc := [Some 0.4%float; Some 1.0%float; Some (sum_of_products [(0.4, 1.0); (1.0, 0.4)]%float)];
          ln := 3; detected := true |}.
Proof.
  apply (proj1 sdd_decision_line_weight float _ (gmap Z float) _ _
           {| wmc := [Some 0.4%float; Some 1.0%float; None]; ln := 2; detected := true |}
           "D 2 1 2 0 1 1 0" "2" "1" "2" ["0"; "1"; "1"; "0"] 2 [(0, 1); (1, 0)] []
           [(0.4, 1.0); (1.0, 0.4)]%float).
  - reflexivity.
  - reflexivity.
  - reflexivity.
  - reflexivity.
  - repeat constructor.
  - repeat constructor.
  - simpl. lia.
Defined.

(** C2.  In [nnf_file_wmc] with a weight table supplied, a line [L <lit>]
    assigns to its slot [weights[lit]] when [lit] is a key of the table and
    [1.0] otherwise; a missing key is not an error.  The file
    [nnf 1 0 1 / L 1] evaluates to 1.0 with the empty table and to 0.3 with
    the table [{1: 0.3}]. *)
Theorem nnf_literal_line_weight :
  (∀ (W : Type) (HW : Weight W) (M : Type) (HM : Lookup Z W M)
     (weights : M) (st : wmc_state W) (line tok : string) (rest : list string) (lit : Z),
     detected st = true →
     Py.split " " (Py.strip line) = "L" :: tok :: rest →
     Py.int tok = Ok lit →
     0 ≤ ln st < Z.of_nat (length (wmc st)) →
     nnf_line (Some weights) st line
     = Ok {| wmc := <[Z.to_nat (ln st):=Some (default w_one (weights !! lit))]> (wmc st);
             ln := ln st + 1; detected := true |})
  ∧ nnf_file_wmc (text ["nnf 1 0 1"; "L 1"]) (Some (∅ : gmap Z float)) = Ok (Some 1.0%float)
  ∧ nnf_file_wmc (text ["nnf 1 0 1"; "L 1"]) (Some ({[1 := 0.3%float]} : gmap Z float))
    = Ok (Some 0.3%float).
Proof.
  split; [|split].
  - intros. by eapply nnf_line_L.
  - vm_compute. reflexivity.
  - vm_compute. reflexivity.
Qed.

Lemma nnf_literal_line_weight_witness :
  nnf_line (Some ({[1 := 0.3%float]} : gmap Z float))
    {| wmc := [None; None]; ln := 0; detected := true |} "L -1"
  = Ok {| wmc := [Some 1.0%float; None]; ln := 1; detected := true |}.
Proof.
  etrans.
  - apply (proj1 nnf_literal_line_weight float _ (gmap Z float) _ {[1 := 0.3%float]}
             {| wmc := [None; None]; ln := 0; detected := true |} "L -1" "-1" [] (-1)).
    + reflexivity.
    + reflexivity.
    + reflexivity.
    + simpl. lia.
  - vm_compute. reflexivity.
Defined.

(** C3.  In [nnf_file_wmc], a line [A <k> <c1> ... <ck>] assigns to its
    slot the product of the weights of the slots [c1..ck] (1.0 when
    [k = 0]), and a line [O <j> <k> <c1> ... <ck>] the sum of the weights of
    the slots [c1..ck] (0.0 when [k = 0]); the children are earlier slots
    that hold a weight.  What an [O] line computes does not depend on its
    [j] token. *)
Theorem nnf_and_or_line_weight :
  ∀ (W : Type) (HW : Weight W) (M : Type) (HM : Lookup Z W M)
    (weights : option M) (st : wmc_state W),
    (∀ (line ktok : string) (toks rest : list string) (cs : list Z) (ws : list W),
       detected st = true →
       Py.split " " (Py.strip line) = "A" :: ktok :: toks ++ rest →
       Py.int ktok = Ok (Z.of_nat (length toks)) →
       tokens_are toks cs →
       children_assigned (wmc st) (ln st) cs ws →
       0 ≤ ln st < Z.of_nat (length (wmc st)) →
       nnf_line weights st line
       = Ok {| wmc := <[Z.to_nat (ln st):=Some (foldl w_mul w_one ws)]> (wmc st);
               ln := ln st + 1; detected := true |})
    ∧ (∀ (line jtok ktok : string) (toks rest : list string) (cs : list Z) (ws : list W),
       detected st = true →
       Py.split " " (Py.strip line) = "O" :: jtok :: ktok :: toks ++ rest →
       Py.int ktok = Ok (Z.of_nat (length toks)) →
       tokens_are toks cs →
       children_assigned (wmc st) (ln st) cs ws →
       0 ≤ ln st < Z.of_nat (length (wmc st)) →
       nnf_line weights st line
       = Ok {| wmc := <[Z.to_nat (ln st):=Some (foldl w_add w_zero ws)]> (wmc st);
               ln := ln st + 1; detected := true |})
    ∧ (∀ (line ktok : string) (rest : list string),
       detected st = true →
       Py.split " " (Py.strip line) = "A" :: ktok :: rest →
       Py.int ktok = Ok 0 →
       0 ≤ ln st < Z.of_nat (length (wmc st)) →
       nnf_line weights st line
       = Ok {| wmc := <[Z.to_nat (ln st):=Some w_one]> (wmc st);
               ln := ln st + 1; detected := true |})
    ∧ (∀ (line jtok ktok : string) (rest : list string),
       detected st = true →
       Py.split " " (Py.strip line) = "O" :: jtok :: ktok :: rest →
       Py.int ktok = Ok 0 →
       0 ≤ ln st < Z.of_nat (length (wmc st)) →
       nnf_line weights st line
       = Ok {| wmc := <[Z.to_nat (ln st):=Some w_zero]> (wmc st);
               ln := ln st + 1; detected := true |})
    ∧ (∀ (line1 line2 j1 j2 : string) (rest : list string),
       Py.split " " (Py.strip line1) = "O" :: j1 :: rest →
       Py.split " " (Py.strip line2) = "O" :: j2 :: rest →
       nnf_line weights st line1 = nnf_line weights st line2).
Proof.
  intros W HW M HM weights st. split_and!.
  - intros. by eapply nnf_line_A.
  - intros. by eapply nnf_line_O.
  - intros line ktok rest Hdet Hcols Hk Hln.
    by apply (nnf_line_A weights st line ktok [] rest [] []); [| | |constructor|constructor|].
  - intros line jtok ktok rest Hdet Hcols Hk Hln.
    by apply (nnf_line_O weights st line jtok ktok [] rest [] []); [| | |constructor|constructor|].
  - intros. by eapply nnf_line_O_j.
Qed.

Lemma nnf_and_or_line_weight_witness :
  let st := {| wmc := [Some 0.5%float; Some 0.25%float; None];
               ln := 2; detected := true |} in
  nnf_line (None : option (gmap Z float)) st "A 2 0 1"
  = Ok {| wmc := [Some 0.5%float; Some 0.25%float; Some (1.0 * 0.5 * 0.25)%float];
          ln := 3; detected := true |}
  ∧ nnf_line (None : option (gmap Z float)) st "O 7 2 0 1"
    = Ok {| wmc := [Some 0.5%float; Some 0.25%float; Some (0.0 + 0.5 + 0.25)%float];
            ln := 3; detected := true |}
  ∧ nnf_line (None : option (gmap Z float)) st "O 7 2 0 1"
    = nnf_line (None : option (gmap Z float)) st "O x 2 0 1".
Proof.
  intros st.
  destruct (nnf_and_or_line_weight float _ (gmap Z float) _ None st)
    as (HA & HO & _ & _ & Hj).
  split; [|split].
  - apply (HA "A 2 0 1" "2" ["0"; "1"] [] [0; 1] [0.5; 0.25]%float).
    + reflexivity.
    + reflexivity.
    + reflexivity.
    + repeat (constructor; [reflexivity|]). constructor.
    + repeat (constructor; [split; [simpl; lia|reflexivity]|]). constructor.
    + simpl. lia.
  - apply (HO "O 7 2 0 1" "7" "2" ["0"; "1"] [] [0; 1] [0.5; 0.25]%float).
    + reflexivity.
    + reflexivity.
    + reflexivity.
    + repeat (constructor; [reflexivity|]). constructor.
    + repeat (constructor; [split; [simpl; lia|reflexivity]|]). constructor.
    + simpl. lia.
  - apply (Hj "O 7 2 0 1" "O x 2 0 1" "7" "x" ["2"; "0"; "1"]); reflexivity.
Defined.

Lemma getitem_last {A} (l : list A) (n : Z) :
  Z.of_nat (length l) = n + 1 → 0 ≤ n → Py.getitem l (-1) = Py.getitem l n.
Proof.
  intros Hlen Hn. unfold Py.getitem, Py.index. cbn zeta.
  rewrite (bool_decide_eq_false_2 (0 ≤ -1 < _)) by lia.
  rewrite (bool_decide_eq_true_2 (_ ≤ -1 < 0)) by lia.
  rewrite (bool_decide_eq_true_2 (0 ≤ n < _)) by lia.
  replace (Z.to_nat (Z.of_nat (length l) + -1)) with (Z.to_nat n) by lia. done.
Qed.

(** C4 (as stated, refuted).  The header announces two nodes and one body
    line follows: the last slot written is slot 0 and holds 0.3, yet the
    call returns [None], the content of the never written slot 1. *)
Lemma nnf_last_slot_counterexample :
  let nnf_file := text ["nnf 2 0 1"; "L 1"] in
  let weights := Some ({[1 := 0.3%float]} : gmap Z float) in
  nnf_run nnf_file weights
  = Ok {| wmc := [Some 0.3%float; None]; ln := 1; detected := true |}
  ∧ nnf_file_wmc nnf_file weights = Ok None
  ∧ ¬ (∀ (nnf_file : string) (weights : option (gmap Z float)) (st : wmc_state float)
         (r : option float),
         nnf_run nnf_file weights = Ok st →
         nnf_file_wmc nnf_file weights = Ok r →
         wmc st !! Z.to_nat (ln st - 1) = Some r).
Proof.
  split; [|split].
  - vm_compute. reflexivity.
  - vm_compute. reflexivity.
  - intros Hclaim.
    specialize (Hclaim (text ["nnf 2 0 1"; "L 1"]) (Some {[1 := 0.3%float]})
                  {| wmc := [Some 0.3%float; None]; ln := 1; detected := true |} None).
    discriminate Hclaim; vm_compute; reflexivity.
Qed.

(** C4 (amended).  When [nnf_file_wmc] does not raise, its result is the
    last element of the weight array ([wmc[-1]]).  When moreover the last
    line of the file is a body line ([L], [A] or [O]) and the array has
    exactly as many slots as body lines were processed (the node count of
    the header is the number of body lines), that element is the slot this
    last line wrote. *)
Theorem nnf_result_last_element :
  ∀ (W : Type) (HW : Weight W) (M : Type) (HM : Lookup Z W M)
    (nnf_file : string) (weights : option M) (st : wmc_state W),
    nnf_run nnf_file weights = Ok st →
    nnf_file_wmc nnf_file weights = Py.getitem (wmc st) (-1)
    ∧ (∀ (before : list string) (last_line : string) (st0 : wmc_state W),
         Py.readlines nnf_file = before ++ [last_line] →
         foldlM (nnf_line weights) wmc_init before = Ok st0 →
         leading_token last_line ∈ ["L"; "A"; "O"] →
         Z.of_nat (length (wmc st)) = ln st0 + 1 →
         ln st = ln st0 + 1
         ∧ nnf_file_wmc nnf_file weights = Py.getitem (wmc st) (ln st0)).
Proof.
  intros W HW M HM nnf_file weights st Hrun.
  assert (Hres : nnf_file_wmc nnf_file weights = Py.getitem (wmc st) (-1)).
  { unfold nnf_file_wmc. by rewrite Hrun. }
  split; [done|].
  intros before last_line st0 Hlines Hbefore Hlast Hlen.
  assert (Hln0 : 0 ≤ ln st0) by apply (nnf_lines_ln _ _ _ _ Hbefore).
  assert (Hstep : nnf_line weights st0 last_line = Ok st).
  { unfold nnf_run in Hrun. rewrite Hlines, foldlM_app, Hbefore in Hrun.
    cbn [mbind result_bind foldlM] in Hrun.
    by destruct (nnf_line weights st0 last_line). }
  split.
  - revert Hstep. unfold nnf_line. cbn zeta. rewrite getitem_cols_0. step_bind.
    assert (Hne : leading_token last_line ≠ "c" ∧ leading_token last_line ≠ "nnf").
    { split; intros Heq; rewrite Heq in Hlast;
        apply list_elem_of_In in Hlast; cbn [In] in Hlast; intuition discriminate. }
    destruct Hne as [Hc Hh]. rewrite !decide_False by done.
    destruct (negb _); [done|].
    repeat match goal with
    | |- (?r ≫= _) = _ → _ => destruct r as [?|?]; step_bind; [|done]
    end.
    by intros [= <-].
  - rewrite Hres. by apply getitem_last.
Qed.

Lemma nnf_result_last_element_witness :
  let nnf_file := text ["nnf 2 0 1"; "L 1"; "A 1 0"] in
  let weights := Some ({[1 := 0.3%float]} : gmap Z float) in
  nnf_file_wmc nnf_file weights
  = Py.getitem [Some 0.3%float; Some (1.0 * 0.3)%float] 1.
Proof.
  intros nnf_file weights.
  assert (Hrun : nnf_run nnf_file weights
                 = Ok {| wmc := [Some 0.3%float; Some (1.0 * 0.3)%float];
                         ln := 2; detected := true |})
    by (vm_compute; reflexivity).
  apply (proj2 (nnf_result_last_element float _ (gmap Z float) _ nnf_file weights _ Hrun)
          [String.append "nnf 2 0 1" (String "010" ""); String.append "L 1" (String "010" "")]
          "A 1 0"
          {| wmc := [Some 0.3%float; None]; ln := 1; detected := true |}).
  - vm_compute. reflexivity.
  - vm_compute. reflexivity.
  - apply list_elem_of_In. cbn. tauto.
  - reflexivity.
Defined.

(** C5.  [sdd_file_wmc] returns the weight held by node id 0 (the root by
    convention); a [T] line assigns 1.0 and an [F] line assigns 0.0.  For
    any weight table, the file [sdd 1 / T 0] evaluates to 1.0 and the file
    [sdd 1 / F 0] to 0.0. *)
Theorem sdd_result_is_node_0 :
  ∀ (W : Type) (HW : Weight W) (M : Type) (HM : Lookup Z W M) (weights : option M),
    (∀ (sdd_file : string) (st : wmc_state W),
       sdd_run sdd_file weights = Ok st →
       sdd_file_wmc sdd_file weights = Py.getitem (wmc st) 0)
    ∧ (∀ (st : wmc_state W) (line idtok : string) (rest : list string) (nodeid : Z),
       detected st = true →
       Py.split " " (Py.strip line) = "T" :: idtok :: rest →
       Py.int idtok = Ok nodeid →
       0 ≤ nodeid < Z.of_nat (length (wmc st)) →
       sdd_line weights st line
       = Ok {| wmc := <[Z.to_nat nodeid:=Some w_one]> (wmc st);
               ln := ln st + 1; detected := true |})
    ∧ (∀ (st : wmc_state W) (line idtok : string) (rest : list string) (nodeid : Z),
       detected st = true →
       Py.split " " (Py.strip line) = "F" :: idtok :: rest →
       Py.int idtok = Ok nodeid →
       0 ≤ nodeid < Z.of_nat (length (wmc st)) →
       sdd_line weights st line
       = Ok {| wmc := <[Z.to_nat nodeid:=Some w_zero]> (wmc st);
               ln := ln st + 1; detected := true |})
    ∧ sdd_file_wmc (text ["sdd 1"; "T 0"]) weights = Ok (Some w_one)
    ∧ sdd_file_wmc (text ["sdd 1"; "F 0"]) weights = Ok (Some w_zero).
Proof.
  intros W HW M HM weights. split_and!.
  - intros sdd_file st Hrun. unfold sdd_file_wmc. by rewrite Hrun.
  - intros. by eapply sdd_line_T.
  - intros. by eapply sdd_line_F.
  - vm_compute. reflexivity.
  - vm_compute. reflexivity.
Qed.

Lemma sdd_result_is_node_0_witness :
  let weights := Some ({[1 := 0.4%float]} : gmap Z float) in
  sdd_line weights {| wmc := [None; None]; ln := 0; detected := true |} "T 1"
  = Ok {| wmc := [None; Some 1.0%float]; ln := 1; detected := true |}
  ∧ sdd_line weights {| wmc := [None; None]; ln := 0; detected := true |} "F 0"
    = Ok {| wmc := [Some 0.0%float; None]; ln := 1; detected := true |}
  ∧ sdd_file_wmc (text ["sdd 1"; "T 0"]) weights = Ok (Some 1.0%float)
  ∧ sdd_file_wmc (text ["sdd 1"; "F 0"]) weights = Ok (Some 0.0%float).
Proof.
  intros weights.
  destruct (sdd_result_is_node_0 float float_weight (gmap Z float) _ weights)
    as (_ & HT & HF & H1 & H0).
  split; [|split; [|split]].
  - apply (HT {| wmc := [None; None]; ln := 0; detected := true |} "T 1" "1" [] 1).
    + reflexivity.
    + reflexivity.
    + reflexivity.
    + simpl. lia.
  - apply (HF {| wmc := [None; None]; ln := 0; detected := true |} "F 0" "0" [] 0).
    + reflexivity.
    + reflexivity.
    + reflexivity.
    + simpl. lia.
  - exact H1.
  - exact H0.
Defined.

(** C6 (as stated, refuted).  A body line with an unrecognized leading
    token is accepted by both evaluators, and the exception raised for a
    missing header carries a fixed message without a line number: the same
    message whether the offending line is the first or the third. *)
Lemma format_error_counterexample :
  nnf_file_wmc (text ["nnf 1 0 1"; "L 1"; "X 7"]) (Some (∅ : gmap Z float)) = Ok (Some 1.0%float)
  ∧ sdd_file_wmc (text ["sdd 1"; "T 0"; "X 7"]) (Some (∅ : gmap Z float)) = Ok (Some 1.0%float)
  ∧ nnf_file_wmc (text ["L 1"]) (Some (∅ : gmap Z float))
    = Raise (Exception "An NNF file should start with 'nnf'")
  ∧ nnf_file_wmc (text ["c one"; "c two"; "L 1"]) (Some (∅ : gmap Z float))
    = Raise (Exception "An NNF file should start with 'nnf'")
  ∧ nnf_file_wmc (text ["nnf"; "L 1"]) (Some (∅ : gmap Z float)) = Raise IndexError.
Proof. split_and!; vm_compute; reflexivity. Qed.

(** C6 (amended).  [nnf_file_wmc] and [sdd_file_wmc] raise an exception
    with the fixed message "An NNF file should start with 'nnf'" (resp.
    "An SDD file should start with 'sdd'"), which names no line number, when
    the first line that is not a comment is not a header line; the
    exception ends the call and no weight is returned.  A header line whose
    count token is missing raises [IndexError], and one whose count token is
    not an integer raises the [ValueError] of [int].  After the header, a
    line with an unrecognized leading token is not an error: it only
    advances the line counter. *)
Theorem missing_header_raises :
  ∀ (W : Type) (HW : Weight W) (M : Type) (HM : Lookup Z W M) (weights : option M),
    (∀ (nnf_file : string) (comments rest : list string) (line : string),
       Py.readlines nnf_file = comments ++ line :: rest →
       Forall (λ l, leading_token l = "c") comments →
       leading_token line ∉ ["c"; "nnf"] →
       nnf_file_wmc (W:=W) nnf_file weights
       = Raise (Exception "An NNF file should start with 'nnf'"))
    ∧ (∀ (sdd_file : string) (comments rest : list string) (line : string),
       Py.readlines sdd_file = comments ++ line :: rest →
       Forall (λ l, leading_token l = "c") comments →
       leading_token line ∉ ["c"; "sdd"] →
       sdd_file_wmc (W:=W) sdd_file weights
       = Raise (Exception "An SDD file should start with 'sdd'"))
    ∧ (∀ (st : wmc_state W) (line : string),
       Py.split " " (Py.strip line) = ["nnf"] → nnf_line weights st line = Raise IndexError)
    ∧ (∀ (st : wmc_state W) (line : string),
       Py.split " " (Py.strip line) = ["sdd"] → sdd_line weights st line = Raise IndexError)
    ∧ (∀ (st : wmc_state W) (line tok : string) (rest : list string) (e : exception),
       Py.split " " (Py.strip line) = "nnf" :: tok :: rest →
       Py.int tok = Raise e → nnf_line weights st line = Raise e)
    ∧ (∀ (st : wmc_state W) (line tok : string) (rest : list string) (e : exception),
       Py.split " " (Py.strip line) = "sdd" :: tok :: rest →
       Py.int tok = Raise e → sdd_line weights st line = Raise e)
    ∧ (∀ (st : wmc_state W) (line : string),
       detected st = true →
       leading_token line ∉ ["c"; "nnf"; "L"; "A"; "O"] →
       nnf_line weights st line = Ok {| wmc := wmc st; ln := ln st + 1; detected := true |})
    ∧ (∀ (st : wmc_state W) (line : string),
       detected st = true →
       leading_token line ∉ ["c"; "sdd"; "L"; "F"; "T"; "D"] →
       sdd_line weights st line = Ok {| wmc := wmc st; ln := ln st + 1; detected := true |}).
Proof.
  intros W HW M HM weights. split_and!.
  - intros nnf_file comments rest line Hlines Hcomments Hline.
    unfold nnf_file_wmc, nnf_run. rewrite Hlines, foldlM_app, nnf_comments by done.
    cbn [mbind result_bind foldlM].
    rewrite nnf_line_no_header; [done|done| |]; intros Heq; apply Hline; rewrite Heq;
      apply list_elem_of_In; cbn; tauto.
  - intros sdd_file comments rest line Hlines Hcomments Hline.
    unfold sdd_file_wmc, sdd_run. rewrite Hlines, foldlM_app, sdd_comments by done.
    cbn [mbind result_bind foldlM].
    rewrite sdd_line_no_header; [done|done| |]; intros Heq; apply Hline; rewrite Heq;
      apply list_elem_of_In; cbn; tauto.
  - intros st line Hcols. unfold nnf_line. rewrite Hcols. reflexivity.
  - intros st line Hcols. unfold sdd_line. rewrite Hcols. reflexivity.
  - intros st line tok rest e Hcols Htok. unfold nnf_line. rewrite Hcols. cbn zeta.
    read_col. decide_col. rewrite Htok. reflexivity.
  - intros st line tok rest e Hcols Htok. unfold sdd_line. rewrite Hcols. cbn zeta.
    read_col. decide_col. rewrite Htok. reflexivity.
  - intros. by apply nnf_line_unrecognized.
  - intros. by apply sdd_line_unrecognized.
Qed.

Lemma missing_header_raises_witness :
  nnf_file_wmc (text ["c one"; "c two"; "L 1"]) (Some (∅ : gmap Z float))
  = Raise (Exception "An NNF file should start with 'nnf'")
  ∧ sdd_file_wmc (text ["c one"; "T 0"; "sdd 1"]) (Some (∅ : gmap Z float))
    = Raise (Exception "An SDD file should start with 'sdd'").
Proof.
  destruct (missing_header_raises float float_weight (gmap Z float) _ (Some ∅))
    as (Hnnf & Hsdd & _).
  split.
  - apply (Hnnf _ [String.append "c one" (String "010" ""); String.append "c two" (String "010" "")]
             [] "L 1").
    + reflexivity.
    + repeat (constructor; [reflexivity|]). constructor.
    + vm_compute. intros Hin. apply list_elem_of_In in Hin. cbn in Hin.
      intuition discriminate.
  - apply (Hsdd _ [String.append "c one" (String "010" "")] ["sdd 1"]
             (String.append "T 0" (String "010" ""))).
    + reflexivity.
    + repeat (constructor; [reflexivity|]). constructor.
    + vm_compute. intros Hin. apply list_elem_of_In in Hin. cbn in Hin.
      intuition discriminate.
Defined.

Example sdd_to_dot_ex :
  let lit1 := LiteralNode 2 (Some 0) 1 in
  let lit2 := LiteralNode 3 (Some 0) (-1) in
  let tt := TrueNode 1 None in
  let ff := FalseNode 0 None in
  let root := DecisionNode 5 (Some 1) [(lit1, tt); (lit2, ff)] in
  sdd_to_dot (Some root) None true false 7
  = (Ok (text ["digraph sdd {";
               "5 [shape=circle,label=" +:+ dq +:+ "+" +:+ dq +:+ ",xlabel=" +:+ dq +:+ "Id:5\nVp:1" +:+ dq +:+ "];";
               "ps_5_0 [shape=circle, label=" +:+ dq +:+ "×" +:+ dq +:+ "];";
               "5 -> ps_5_0 [arrowhead=none];";
               "ps_5_0 -> n0_2;";
               "ps_5_0 -> n1_1;";
               "n0_2 [shape=rectangle,label=" +:+ dq +:+ "1" +:+ dq +:+ ",xlabel=" +:+ dq +:+ "Id:2\nVp:0" +:+ dq +:+ "];";
               "n1_1 [shape=rectangle,label=" +:+ dq +:+ "⟙" +:+ dq +:+ ",xlabel=" +:+ dq +:+ "Id:1\nVp:n" +:+ dq +:+ "];";
               "ps_5_1 [shape=circle, label=" +:+ dq +:+ "×" +:+ dq +:+ "];";
               "5 -> ps_5_1 [arrowhead=none];";
               "ps_5_1 -> n2_3;";
               "ps_5_1 -> n3_0;";
               "n2_3 [shape=rectangle,label=" +:+ dq +:+ "-1" +:+ dq +:+ ",xlabel=" +:+ dq +:+ "Id:3\nVp:0" +:+ dq +:+ "];";
               "n3_0 [shape=rectangle,label=" +:+ dq +:+ "⟘" +:+ dq +:+ ",xlabel=" +:+ dq +:+ "Id:0\nVp:n" +:+ dq +:+ "];";
               "}"]), 4%N).
Proof. vm_compute. reflexivity. Qed.

(** * Model counting *)

#[global] Instance Z_weight_laws : WeightLaws Z.
Proof. split; cbn; intros; lia. Qed.

Example non_smooth_nnf :
  let nnf_file := text ["nnf 5 4 2"; "L 1"; "L -1"; "L 2"; "A 2 1 2"; "O 1 2 0 3"] in
  nnf_circuit nnf_file
  = Ok (Some (CAdd (CAdd CZero (CLit 1)) (CMul (CMul COne (CLit (-1))) (CLit 2))))
  ∧ on_weight model_count (nnf_circuit nnf_file) = Ok (Some 3%nat)
  ∧ on_weight proper (nnf_circuit nnf_file) = Ok (Some false).
Proof. split_and!; vm_compute; reflexivity. Qed.

(** ** The evaluators commute with the evaluation of circuits *)

Lemma index_fmap {A B} (f : A → B) (l : list A) (i : Z) :
  Py.index (f <$> l) i = Py.index l i.
Proof. unfold Py.index. by rewrite length_fmap. Qed.

Lemma getitem_fmap {A B} (f : A → B) (l : list A) (i : Z) :
  Py.getitem (f <$> l) i = f <$> Py.getitem l i.
Proof.
  unfold Py.getitem. rewrite index_fmap.
  destruct (Py.index l i) as [k|]; [|done].
  rewrite list_lookup_fmap. by destruct (l !! k).
Qed.

Lemma setitem_fmap {A B} (f : A → B) (l : list A) (i : Z) (x : A) :
  Py.setitem (f <$> l) i (f x) = fmap (M:=result) (fmap (M:=list) f) (Py.setitem l i x).
Proof.
  unfold Py.setitem. rewrite index_fmap.
  destruct (Py.index l i) as [k|]; [|done].
  cbn. by rewrite list_fmap_insert.
Qed.

Lemma foldlM_fmap {A A' B} (h : A → A') (f : A → B → result A) (f' : A' → B → result A')
    (l : list B) (a : A) :
  (∀ a b, f' (h a) b = h <$> f a b) →
  foldlM f' (h a) l = h <$> foldlM f a l.
Proof.
  intros Hf. revert a. induction l as [|b l IH]; intros a; [done|].
  cbn [foldlM]. rewrite Hf. destruct (f a b) as [a'|e]; [|done].
  cbn [fmap result_fmap]. step_bind. apply IH.
Qed.

Ltac hom_case r := destruct r; cbn [fmap result_fmap]; step_bind; [|done].

Section homomorphism.
Context {W : Type} `{!Weight W} {M : Type} `{!Lookup Z W M} (weights : M).

Local Abbreviation h := (eval (table_weight weights)).
Local Abbreviation H := (fmap (M:=list) (fmap (M:=option) h)).

Lemma py_mul_hom (a b : option circuit) : py_mul (h <$> a) (h <$> b) = h <$> py_mul a b.
Proof. by destruct a, b. Qed.

Lemma py_add_hom (a b : option circuit) : py_add (h <$> a) (h <$> b) = h <$> py_add a b.
Proof. by destruct a, b. Qed.

Lemma literal_weight_hom (lit : Z) :
  literal_weight (Some weights) lit = h <$> literal_weight (Some lit_table) lit.
Proof.
  unfold literal_weight. change (lit_table !! lit) with (Some (CLit lit)).
  cbn. unfold table_weight. by destruct (weights !! lit).
Qed.

Lemma nnf_and_step_hom cols ln (wmc0 : list (option circuit)) i :
  nnf_and_step cols ln (H wmc0) i = H <$> nnf_and_step cols ln wmc0 i.
Proof.
  unfold nnf_and_step. rewrite getitem_fmap.
  hom_case (Py.getitem wmc0 ln). hom_case (Py.getitem cols (2 + i)). hom_case (Py.int a0).
  rewrite getitem_fmap. hom_case (Py.getitem wmc0 a1).
  rewrite py_mul_hom. hom_case (py_mul a a2).
  exact (setitem_fmap (fmap h) wmc0 ln (Some a3)).
Qed.

Lemma nnf_or_step_hom cols ln (wmc0 : list (option circuit)) i :
  nnf_or_step cols ln (H wmc0) i = H <$> nnf_or_step cols ln wmc0 i.
Proof.
  unfold nnf_or_step. rewrite getitem_fmap.
  hom_case (Py.getitem wmc0 ln). hom_case (Py.getitem cols (3 + i)). hom_case (Py.int a0).
  rewrite getitem_fmap. hom_case (Py.getitem wmc0 a1).
  rewrite py_add_hom. hom_case (py_add a a2).
  exact (setitem_fmap (fmap h) wmc0 ln (Some a3)).
Qed.

Lemma nnf_L_hom cols ln (wmc0 : list (option circuit)) :
  nnf_L (Some weights) cols ln (H wmc0) = H <$> nnf_L (Some lit_table) cols ln wmc0.
Proof.
  unfold nnf_L. hom_case (Py.getitem cols 1). hom_case (Py.int a).
  rewrite literal_weight_hom. hom_case (literal_weight (Some lit_table) a0).
  exact (setitem_fmap (fmap h) wmc0 ln (Some a1)).
Qed.

Lemma nnf_A_hom cols ln (wmc0 : list (option circuit)) :
  nnf_A cols ln (H wmc0) = H <$> nnf_A cols ln wmc0.
Proof.
  unfold nnf_A.
  assert (E : Py.setitem (H wmc0) ln (Some w_one) = H <$> Py.setitem wmc0 ln (Some w_one))
    by exact (setitem_fmap (fmap h) wmc0 ln (Some w_one)).
  rewrite E.
  hom_case (Py.setitem wmc0 ln (Some (w_one (W:=circuit)))).
  hom_case (Py.getitem cols 1). hom_case (Py.int a0).
  apply foldlM_fmap, nnf_and_step_hom.
Qed.

Lemma nnf_O_hom cols ln (wmc0 : list (option circuit)) :
  nnf_O cols ln (H wmc0) = H <$> nnf_O cols ln wmc0.
Proof.
  unfold nnf_O.
  assert (E : Py.setitem (H wmc0) ln (Some w_zero) = H <$> Py.setitem wmc0 ln (Some w_zero))
    by exact (setitem_fmap (fmap h) wmc0 ln (Some w_zero)).
  rewrite E.
  hom_case (Py.setitem wmc0 ln (Some (w_zero (W:=circuit)))).
  hom_case (Py.getitem cols 2). hom_case (Py.int a0).
  apply foldlM_fmap, nnf_or_step_hom.
Qed.

Lemma nnf_line_hom (st : wmc_state circuit) (line : string) :
  nnf_line (Some weights) (map_state h st) line
  = map_state h <$> nnf_line (Some lit_table) st line.
Proof.
  unfold nnf_line. cbn zeta.
  hom_case (Py.getitem (Py.split " " (Py.strip line)) 0).
  destruct (decide (a = "c")); [done|].
  destruct (decide (a = "nnf")).
  { hom_case (Py.getitem (Py.split " " (Py.strip line)) 1). hom_case (Py.int a0).
    unfold map_state, Py.repeat. cbn. by rewrite fmap_replicate. }
  cbn [map_state detected]. destruct (negb (detected st)); [done|].
  change (wmc (map_state h st)) with (H (wmc st)).
  change (ln (map_state h st)) with (ln st).
  assert (HL : (if decide (a = "L")
                then nnf_L (Some weights) (Py.split " " (Py.strip line)) (ln st) (H (wmc st))
                else Ok (H (wmc st)))
               = H <$> (if decide (a = "L")
                        then nnf_L (Some lit_table) (Py.split " " (Py.strip line)) (ln st) (wmc st)
                        else Ok (wmc st))).
  { destruct (decide (a = "L")); [apply nnf_L_hom|done]. }
  rewrite HL. match goal with |- (_ <$> ?r) ≫= _ = _ => hom_case r end.
  assert (HA : (if decide (a = "A")
                then nnf_A (Py.split " " (Py.strip line)) (ln st) (H a0)
                else Ok (H a0))
               = H <$> (if decide (a = "A")
                        then nnf_A (Py.split " " (Py.strip line)) (ln st) a0
                        else Ok a0)).
  { destruct (decide (a = "A")); [apply nnf_A_hom|done]. }
  rewrite HA. match goal with |- (_ <$> ?r) ≫= _ = _ => hom_case r end.
  assert (HO : (if decide (a = "O")
                then nnf_O (Py.split " " (Py.strip line)) (ln st) (H a1)
                else Ok (H a1))
               = H <$> (if decide (a = "O")
                        then nnf_O (Py.split " " (Py.strip line)) (ln st) a1
                        else Ok a1)).
  { destruct (decide (a = "O")); [apply nnf_O_hom|done]. }
  rewrite HO. match goal with |- (_ <$> ?r) ≫= _ = _ => hom_case r end.
  done.
Qed.

Lemma sdd_L_hom cols (wmc0 : list (option circuit)) :
  sdd_L (Some weights) cols (H wmc0) = H <$> sdd_L (Some lit_table) cols wmc0.
Proof.
  unfold sdd_L. hom_case (Py.getitem cols 1). hom_case (Py.int a).
  hom_case (Py.getitem cols 3). hom_case (Py.int a1).
  rewrite literal_weight_hom. hom_case (literal_weight (Some lit_table) a2).
  exact (setitem_fmap (fmap h) wmc0 a0 (Some a3)).
Qed.

Lemma sdd_F_hom cols (wmc0 : list (option circuit)) :
  sdd_F cols (H wmc0) = H <$> sdd_F cols wmc0.
Proof.
  unfold sdd_F. hom_case (Py.getitem cols 1). hom_case (Py.int a).
  exact (setitem_fmap (fmap h) wmc0 a0 (Some w_zero)).
Qed.

Lemma sdd_T_hom cols (wmc0 : list (option circuit)) :
  sdd_T cols (H wmc0) = H <$> sdd_T cols wmc0.
Proof.
  unfold sdd_T. hom_case (Py.getitem cols 1). hom_case (Py.int a).
  exact (setitem_fmap (fmap h) wmc0 a0 (Some w_one)).
Qed.

Lemma sdd_element_step_hom elmts (wmc0 : list (option circuit)) (w : circuit) idx :
  sdd_element_step elmts (H wmc0) (h w) idx = h <$> sdd_element_step elmts wmc0 w idx.
Proof.
  unfold sdd_element_step. hom_case (Py.getitem elmts (2 * idx)).
  rewrite getitem_fmap. hom_case (Py.getitem wmc0 a).
  hom_case (Py.getitem elmts (2 * idx + 1)).
  rewrite getitem_fmap. hom_case (Py.getitem wmc0 a1).
  rewrite py_mul_hom. hom_case (py_mul a0 a2). done.
Qed.

Lemma sdd_D_hom cols (wmc0 : list (option circuit)) :
  sdd_D cols (H wmc0) = H <$> sdd_D cols wmc0.
Proof.
  unfold sdd_D. hom_case (Py.getitem cols 1). hom_case (Py.int a).
  hom_case (Py.getitem cols 3). hom_case (Py.int a1).
  hom_case (mapM Py.int (drop 4 cols)).
  change (w_zero (W:=W)) with (h w_zero).
  rewrite (foldlM_fmap h (sdd_element_step a3 wmc0) (sdd_element_step a3 (H wmc0)))
    by apply sdd_element_step_hom.
  match goal with |- (_ <$> ?r) ≫= _ = _ => hom_case r end.
  exact (setitem_fmap (fmap h) wmc0 a0 (Some a4)).
Qed.

Ltac hom_if lem :=
  match goal with
  | |- (if ?c then ?f else Ok (H ?x)) ≫= _ = _ =>
      let E := fresh in
      assert (E : (if c then f else Ok (H x)) = H <$> (if c then _ else Ok x))
        by (destruct c; [apply lem|reflexivity]);
      rewrite E; clear E;
      match goal with |- (_ <$> ?r) ≫= _ = _ => hom_case r end
  end.

Lemma sdd_line_hom (st : wmc_state circuit) (line : string) :
  sdd_line (Some weights) (map_state h st) line
  = map_state h <$> sdd_line (Some lit_table) st line.
Proof.
  unfold sdd_line. cbn zeta.
  hom_case (Py.getitem (Py.split " " (Py.strip line)) 0).
  destruct (decide (a = "c")); [done|].
  destruct (decide (a = "sdd")).
  { hom_case (Py.getitem (Py.split " " (Py.strip line)) 1). hom_case (Py.int a0).
    unfold map_state, Py.repeat. cbn. by rewrite fmap_replicate. }
  cbn [map_state detected]. destruct (negb (detected st)); [done|].
  change (wmc (map_state h st)) with (H (wmc st)).
  change (ln (map_state h st)) with (ln st).
  hom_if sdd_L_hom. hom_if sdd_F_hom. hom_if sdd_T_hom. hom_if sdd_D_hom.
  done.
Qed.

Lemma sdd_file_wmc_hom (sdd_file : string) :
  sdd_file_wmc sdd_file (Some weights) = on_weight h (sdd_circuit sdd_file).
Proof.
  unfold sdd_circuit, sdd_file_wmc, sdd_run, on_weight.
  change (wmc_init (W:=W)) with (map_state h wmc_init).
  rewrite (foldlM_fmap (map_state h) (sdd_line (Some lit_table)) (sdd_line (Some weights)))
    by apply sdd_line_hom.
  hom_case (foldlM (sdd_line (Some lit_table)) wmc_init (Py.readlines sdd_file)).
  apply (getitem_fmap (fmap h)).
Qed.

Lemma nnf_file_wmc_hom (nnf_file : string) :
  nnf_file_wmc nnf_file (Some weights) = on_weight h (nnf_circuit nnf_file).
Proof.
  unfold nnf_circuit, nnf_file_wmc, nnf_run, on_weight.
  change (wmc_init (W:=W)) with (map_state h wmc_init).
  rewrite (foldlM_fmap (map_state h) (nnf_line (Some lit_table)) (nnf_line (Some weights)))
    by apply nnf_line_hom.
  hom_case (foldlM (nnf_line (Some lit_table)) wmc_init (Py.readlines nnf_file)).
  apply (getitem_fmap (fmap h)).
Qed.

End homomorphism.

(** ** Counting models *)

Lemma count_models_ext (vs : list Z) (f g : gset Z → bool) (a : gset Z) :
  (∀ b, f b = g b) → count_models vs f a = count_models vs g a.
Proof.
  intros Hfg. revert a. induction vs as [|v vs IH]; intros a; cbn [count_models].
  - by rewrite Hfg.
  - by rewrite !IH.
Qed.

Lemma count_models_false (vs : list Z) (a : gset Z) :
  count_models vs (λ _, false) a = 0%nat.
Proof. revert a. induction vs as [|v vs IH]; intros a; cbn [count_models]; [done|]. by rewrite !IH. Qed.

Lemma union_swap (v w : Z) (a : gset Z) : {[v]} ∪ ({[w]} ∪ a) = {[w]} ∪ ({[v]} ∪ a).
Proof. apply set_eq. intros x. rewrite !elem_of_union. tauto. Qed.

Lemma count_models_ignore_base (vs : list Z) (f : gset Z → bool) (v : Z) (a : gset Z) :
  ignores f v → count_models vs f ({[v]} ∪ a) = count_models vs f a.
Proof.
  intros Hf. revert a. induction vs as [|w vs IH]; intros a; cbn [count_models].
  - by rewrite Hf.
  - by rewrite union_swap, !IH.
Qed.

Lemma count_models_and_ignored (vs : list Z) (f g : gset Z → bool) (a : gset Z) :
  (∀ v, v ∈ vs → ignores f v) →
  count_models vs (λ b, f b && g b) a = if f a then count_models vs g a else 0%nat.
Proof.
  revert a. induction vs as [|v vs IH]; intros a Hf; cbn [count_models].
  - by destruct (f a), (g a).
  - rewrite !IH by (intros w Hw; apply Hf; by apply list_elem_of_further).
    rewrite (Hf v) by apply list_elem_of_here. by destruct (f a).
Qed.

Lemma count_models_product (vs1 vs2 : list Z) (f g : gset Z → bool) (a : gset Z) :
  (∀ v, v ∈ vs2 → ignores f v) →
  (∀ v, v ∈ vs1 → ignores g v) →
  count_models (vs1 ++ vs2) (λ b, f b && g b) a
  = (count_models vs1 f a * count_models vs2 g a)%nat.
Proof.
  intros Hf. revert a. induction vs1 as [|v vs1 IH]; intros a Hg; cbn [app count_models].
  - rewrite count_models_and_ignored by done. destruct (f a); lia.
  - rewrite !IH by (intros w Hw; apply Hg; by apply list_elem_of_further).
    rewrite (count_models_ignore_base vs2 g v) by (apply Hg, list_elem_of_here). lia.
Qed.

Lemma count_models_sum (vs : list Z) (f g : gset Z → bool) (a : gset Z) :
  (∀ b, f b && g b = false) →
  count_models vs (λ b, f b || g b) a = (count_models vs f a + count_models vs g a)%nat.
Proof.
  intros Hex. revert a. induction vs as [|v vs IH]; intros a; cbn [count_models].
  - specialize (Hex a). by destruct (f a), (g a).
  - rewrite !IH. lia.
Qed.

Lemma count_models_perm (vs vs' : list Z) (f : gset Z → bool) (a : gset Z) :
  vs ≡ₚ vs' → count_models vs f a = count_models vs' f a.
Proof.
  intros Hperm. revert a.
  induction Hperm as [|v vs vs' _ IH|v w vs|vs1 vs2 vs3 _ IH1 _ IH2]; intros a;
    cbn [count_models].
  - done.
  - by rewrite !IH.
  - rewrite union_swap. lia.
  - by rewrite IH1, IH2.
Qed.

Lemma count_models_zero (vs : list Z) (f : gset Z → bool) (a : gset Z) :
  count_models vs f a = 0%nat →
  ∀ b : gset Z, b ⊆ list_to_set vs → f (b ∪ a) = false.
Proof.
  revert a. induction vs as [|v vs IH]; intros a Hzero b Hb; cbn [count_models] in Hzero.
  - cbn in Hb. assert (b = ∅) as -> by (apply set_eq; set_solver).
    rewrite (left_id_L ∅ (∪)). by destruct (f a).
  - assert (H1 : count_models vs f ({[v]} ∪ a) = 0%nat) by lia.
    assert (H2 : count_models vs f a = 0%nat) by lia.
    destruct (decide (v ∈ b)) as [Hv|Hv].
    + replace (b ∪ a) with ((b ∖ {[v]}) ∪ ({[v]} ∪ a)).
      * apply (IH _ H1). intros x [Hx Hne]%elem_of_difference.
        apply Hb in Hx. cbn in Hx. apply elem_of_union in Hx as [Hx|Hx]; done.
      * apply set_eq. intros x. rewrite !elem_of_union, elem_of_difference, elem_of_singleton.
        destruct (decide (x = v)) as [->|]; tauto.
    + apply (IH _ H2). intros x Hx. pose proof (Hb x Hx) as Hx'. cbn in Hx'.
      apply elem_of_union in Hx' as [Hx'|Hx']; [|done].
      apply elem_of_singleton in Hx'. by subst x.
Qed.

(** ** Circuits *)

Lemma sat_lit_agree (a b : gset Z) (lit : Z) :
  (Z.abs lit ∈ a ↔ Z.abs lit ∈ b) → sat_lit a lit = sat_lit b lit.
Proof.
  intros Hab. unfold sat_lit. destruct (0 <? lit) eqn:Hpos.
  - apply Z.ltb_lt in Hpos. rewrite Z.abs_eq in Hab by lia.
    apply bool_decide_ext. done.
  - apply Z.ltb_ge in Hpos. rewrite Z.abs_neq in Hab by lia.
    f_equal. apply bool_decide_ext. done.
Qed.

Lemma sat_agree (a b : gset Z) (c : circuit) :
  (∀ v, v ∈ vars c → (v ∈ a ↔ v ∈ b)) → sat a c = sat b c.
Proof.
  induction c as [lit| | |x IHx y IHy|x IHx y IHy]; intros Hab; cbn [sat vars] in *;
    try done.
  - apply sat_lit_agree, Hab. by apply elem_of_singleton.
  - rewrite IHx, IHy; [done| |]; intros v Hv; apply Hab, elem_of_union; auto.
  - rewrite IHx, IHy; [done| |]; intros v Hv; apply Hab, elem_of_union; auto.
Qed.

Lemma sat_ignores (c : circuit) (v : Z) : v ∉ vars c → ignores (λ a, sat a c) v.
Proof.
  intros Hv b. apply sat_agree. intros w Hw.
  rewrite elem_of_union, elem_of_singleton.
  split; [intros [->|]|]; tauto.
Qed.

Lemma unsat_all (c : circuit) : model_count c = 0%nat → ∀ b, sat b c = false.
Proof.
  intros Hzero b. unfold model_count in Hzero.
  pose proof (count_models_zero _ _ _ Hzero (b ∩ vars c)) as Hb.
  rewrite (right_id_L ∅ (∪)) in Hb.
  rewrite <- Hb.
  - apply sat_agree. intros v Hv. rewrite elem_of_intersection. tauto.
  - rewrite list_to_set_elements_L. apply intersection_subseteq_r.
Qed.

Lemma count_models_unsat (vs : list Z) (c : circuit) (a : gset Z) :
  model_count c = 0%nat → count_models vs (λ b, sat b c) a = 0%nat.
Proof.
  intros Hzero.
  rewrite (count_models_ext _ _ (λ _, false)) by apply (unsat_all _ Hzero).
  apply count_models_false.
Qed.

Section exact.
Context {W : Type} `{!Weight W} `{!WeightLaws W}.

Lemma weight_of_nat_1 : weight_of_nat 1 = w_one.
Proof. cbn. apply w_add_0_r. Qed.

Lemma weight_of_nat_add (m n : nat) :
  weight_of_nat (m + n) = w_add (weight_of_nat m) (weight_of_nat n).
Proof.
  induction m as [|m IH]; cbn [weight_of_nat Nat.add].
  - by rewrite w_add_0_l.
  - by rewrite IH, w_add_assoc.
Qed.

Lemma weight_of_nat_mul (m n : nat) :
  weight_of_nat (m * n) = w_mul (weight_of_nat m) (weight_of_nat n).
Proof.
  induction m as [|m IH]; cbn [weight_of_nat Nat.mul].
  - by rewrite w_mul_0_l.
  - by rewrite weight_of_nat_add, IH, w_mul_add_distr_r, w_mul_1_l.
Qed.

(** With every literal weighing 1, a decomposable, deterministic and
    smooth circuit evaluates to the number of its models. *)
Lemma eval_model_count (lw : Z → W) (c : circuit) :
  (∀ lit, lw lit = w_one) →
  proper c = true →
  eval lw c = weight_of_nat (model_count c).
Proof.
  intros Hlw. induction c as [lit| | |x IHx y IHy|x IHx y IHy]; intros Hproper.
  - cbn [eval]. rewrite Hlw, <- weight_of_nat_1. f_equal.
    unfold model_count. cbn [vars sat]. rewrite elements_singleton. cbn [count_models].
    unfold sat_lit. destruct (0 <? lit) eqn:Hpos.
    + apply Z.ltb_lt in Hpos. rewrite Z.abs_eq by lia.
      rewrite bool_decide_eq_true_2 by set_solver.
      rewrite bool_decide_eq_false_2 by set_solver. done.
    + apply Z.ltb_ge in Hpos. rewrite Z.abs_neq by lia.
      rewrite bool_decide_eq_true_2 by set_solver.
      rewrite bool_decide_eq_false_2 by set_solver. done.
  - cbn [eval]. by rewrite <- weight_of_nat_1.
  - done.
  - cbn [proper] in Hproper.
    apply andb_prop in Hproper as [Hproper Hdisj]. apply andb_prop in Hproper as [Hx Hy].
    apply bool_decide_eq_true in Hdisj.
    cbn [eval]. rewrite IHx, IHy, <- weight_of_nat_mul by done. f_equal.
    unfold model_count at 3. cbn [vars sat].
    rewrite (count_models_perm _ (elements (vars x) ++ elements (vars y)))
      by by apply elements_disj_union.
    symmetry. apply count_models_product.
    + intros v Hv. apply sat_ignores. apply elem_of_elements in Hv. set_solver.
    + intros v Hv. apply sat_ignores. apply elem_of_elements in Hv. set_solver.
  - cbn [proper] in Hproper.
    apply andb_prop in Hproper as [Hproper Hsy]. apply andb_prop in Hproper as [Hproper Hsx].
    apply andb_prop in Hproper as [Hproper Hdet]. apply andb_prop in Hproper as [Hx Hy].
    apply Nat.eqb_eq in Hdet.
    cbn [eval]. rewrite IHx, IHy, <- weight_of_nat_add by done. f_equal.
    unfold model_count at 3. cbn [vars sat].
    rewrite count_models_sum by apply (unsat_all (CMul x y) Hdet).
    f_equal.
    + apply orb_prop in Hsx as [Hsx|Hsx].
      * apply Nat.eqb_eq in Hsx. by rewrite Hsx, count_models_unsat.
      * apply bool_decide_eq_true in Hsx. unfold model_count. by rewrite <- Hsx.
    + apply orb_prop in Hsy as [Hsy|Hsy].
      * apply Nat.eqb_eq in Hsy. by rewrite Hsy, count_models_unsat.
      * apply bool_decide_eq_true in Hsy. unfold model_count. by rewrite <- Hsy.
Qed.

End exact.

(** * The renderer *)

Lemma sdd_to_dot_global (node : option SddNode) (litnamemap : option LitNameMap)
    (show_id merge_leafs : bool) (g g' : N) :
  sdd_to_dot node litnamemap show_id merge_leafs g
  = sdd_to_dot node litnamemap show_id merge_leafs g'.
Proof. reflexivity. Qed.

(** C8.  Two sequential top-level calls of [sdd_to_dot] with the same
    root, label map and flags return the same string, whatever value the
    global [node_count] had before the first call: each call sets the
    counter to zero before it traverses, so the traversal runs from counter
    0 and an empty visited set, and a non-merged leaf at the root is named
    [n0_<id>]. *)
Theorem sdd_to_dot_reproducible :
  ∀ (node : option SddNode) (litnamemap : option LitNameMap) (show_id merge_leafs : bool) (g : N),
    fst (sdd_to_dot node litnamemap show_id merge_leafs
           (snd (sdd_to_dot node litnamemap show_id merge_leafs g)))
    = fst (sdd_to_dot node litnamemap show_id merge_leafs g)
    ∧ (∀ g', fst (sdd_to_dot node litnamemap show_id merge_leafs g')
             = fst (sdd_to_dot node litnamemap show_id merge_leafs g))
    ∧ (∀ root,
         fst (sdd_to_dot (Some root) litnamemap show_id merge_leafs g)
         = Ok (Py.join (String "010" "")
                 (["digraph sdd {"]
                  ++ snd (fst (_sddnode_to_dot_int root (default ∅ litnamemap) show_id merge_leafs
                                 {| node_count := 0; visited := ∅ |}))
                  ++ ["}"])))
    ∧ (∀ id vt lit,
         sdd_to_dot (Some (LiteralNode id vt lit)) litnamemap show_id false g
         = (Ok (Py.join (String "010" "")
                  ["digraph sdd {";
                   leaf_stmt ("n0_" +:+ Py.str_N id)
                     (_format_sddnode_label (LiteralNode id vt lit) None (default ∅ litnamemap))
                     (extra_options (LiteralNode id vt lit) show_id);
                   "}"]), 1%N)).
Proof.
  intros node litnamemap show_id merge_leafs g. split_and!.
  - apply (f_equal fst), sdd_to_dot_global.
  - intros g'. apply (f_equal fst), sdd_to_dot_global.
  - intros root. unfold sdd_to_dot, sdd_to_dot_lines.
    destruct (_sddnode_to_dot_int _ _ _ _ _) as [[nodeid root_s] st]. reflexivity.
  - intros id vt lit. unfold sdd_to_dot, sdd_to_dot_lines. cbn zeta.
    cbn [_sddnode_to_dot_int node_id visited].
    rewrite bool_decide_eq_false_2 by set_solver. reflexivity.
Qed.

(** What the assignment [node_count = 0] buys: the traversal itself reads
    the counter, so without it a second call would name its leaves
    differently. *)
Example traversal_reads_counter :
  (sdd_to_dot_lines (LiteralNode 2 None 1) ∅ false false 0).1
  ≠ (sdd_to_dot_lines (LiteralNode 2 None 1) ∅ false false 1).1.
Proof. vm_compute. discriminate. Qed.

(** C10.  [sdd_to_dot] with [None] as root raises
    [ValueError("No root node given")] and returns no text; with a root it
    returns a string. *)
Theorem sdd_to_dot_no_root :
  ∀ (node : option SddNode) (litnamemap : option LitNameMap) (show_id merge_leafs : bool) (g : N),
    match node with
    | None =>
        sdd_to_dot node litnamemap show_id merge_leafs g
        = (Raise (ValueError "No root node given"), 0%N)
    | Some root =>
        ∃ out, fst (sdd_to_dot node litnamemap show_id merge_leafs g) = Ok out
    end.
Proof.
  intros [root|] litnamemap show_id merge_leafs g; [|reflexivity].
  unfold sdd_to_dot. destruct (sdd_to_dot_lines _ _ _ _) as [s st]. eauto.
Qed.

(** ** Telling the statements of the output apart *)

Lemma string_app_cons (c : ascii) (r t : string) : String c r +:+ t = String c (r +:+ t).
Proof. reflexivity. Qed.

Lemma string_app_nil (t : string) : "" +:+ t = t.
Proof. reflexivity. Qed.

Lemma string_app_assoc (a b c : string) : (a +:+ b) +:+ c = a +:+ (b +:+ c).
Proof.
  induction a as [|x a IH]; [done|].
  rewrite !string_app_cons. by f_equal.
Qed.

Lemma pretty_N_char_is_digit (x : N) : is_digit (pretty_N_char x) = true.
Proof. unfold pretty_N_char. repeat case_match; reflexivity. Qed.

Lemma pretty_N_go_digits (x : N) (s : string) :
  digits_only s = true → digits_only (pretty_N_go x s) = true.
Proof.
  revert s. induction (N.lt_wf_0 x) as [x _ IH]. intros s Hs.
  destruct (decide (x = 0)%N) as [->|Hx]; [done|].
  rewrite pretty_N_go_step by lia. apply IH.
  - apply N.div_lt; lia.
  - cbn [digits_only]. by rewrite pretty_N_char_is_digit.
Qed.

Lemma pretty_N_go_nonempty (x : N) (s : string) : s ≠ "" → pretty_N_go x s ≠ "".
Proof.
  revert s. induction (N.lt_wf_0 x) as [x _ IH]. intros s Hs.
  destruct (decide (x = 0)%N) as [->|Hx]; [done|].
  rewrite pretty_N_go_step by lia. apply IH; [apply N.div_lt; lia|done].
Qed.

Lemma str_N_digits (n : N) : digits_only (Py.str_N n) = true.
Proof.
  unfold Py.str_N, pretty, pretty_N. case_decide; [done|].
  by apply pretty_N_go_digits.
Qed.

Lemma str_N_nonempty (n : N) : Py.str_N n ≠ "".
Proof.
  unfold Py.str_N, pretty, pretty_N. case_decide as Hn; [done|].
  rewrite pretty_N_go_step by lia. by apply pretty_N_go_nonempty.
Qed.

Lemma str_N_inj (a b : N) : Py.str_N a = Py.str_N b → a = b.
Proof. apply (inj pretty). Qed.

Lemma str_N_starts_with_digit (n : N) (t : string) :
  starts_with_digit (Py.str_N n +:+ t) = true.
Proof.
  pose proof (str_N_digits n) as Hd. pose proof (str_N_nonempty n) as Hne.
  destruct (Py.str_N n) as [|c r]; [done|].
  rewrite string_app_cons. cbn in *. by apply andb_prop in Hd as [-> _].
Qed.

(** A run of digits ends where the first other character stands. *)
Lemma digit_split (a b : string) (c c' : ascii) (r r' : string) :
  digits_only a = true → digits_only b = true →
  is_digit c = false → is_digit c' = false →
  a +:+ String c r = b +:+ String c' r' →
  a = b ∧ String c r = String c' r'.
Proof.
  revert b. induction a as [|x a IH]; intros [|y b] Ha Hb Hc Hc' Heq;
    rewrite ?string_app_cons, ?string_app_nil in Heq; cbn [digits_only] in *.
  - done.
  - injection Heq as -> _. apply andb_prop in Hb as [Hy _]. congruence.
  - injection Heq as <- _. apply andb_prop in Ha as [Hx _]. congruence.
  - injection Heq as -> Heq.
    apply andb_prop in Ha as [_ Ha]. apply andb_prop in Hb as [_ Hb].
    destruct (IH b Ha Hb Hc Hc' Heq) as [-> ?]. done.
Qed.

Lemma str_N_split (a b : N) (c c' : ascii) (r r' : string) :
  is_digit c = false → is_digit c' = false →
  Py.str_N a +:+ String c r = Py.str_N b +:+ String c' r' →
  a = b ∧ String c r = String c' r'.
Proof.
  intros Hc Hc' Heq.
  apply digit_split in Heq as [Heq ?]; auto using str_N_digits.
  by apply str_N_inj in Heq.
Qed.

(** Normal form of an equation between statements: appends nested to the
    right, literal prefixes unfolded to their first character. *)
Ltac stmt_norm H :=
  unfold decision_stmt, element_stmt, element_edge, child_edge, leaf_stmt, ps_id in H;
  rewrite ?string_app_assoc in H;
  rewrite ?string_app_cons, ?string_app_nil in H.

Ltac by_first_char H :=
  apply (f_equal starts_with_digit) in H;
  rewrite ?str_N_starts_with_digit in H;
  cbn [starts_with_digit] in H;
  discriminate H.

Section statements.
Context (litnamemap : LitNameMap) (show_id : bool).
Implicit Types (x y : SddNode) (a b i j : N).

Lemma decision_stmt_inj x y :
  decision_stmt litnamemap show_id x = decision_stmt litnamemap show_id y →
  node_id x = node_id y.
Proof. intros H. stmt_norm H. by apply str_N_split in H as [? _]. Qed.

Lemma decision_stmt_ne_element_stmt x a i :
  decision_stmt litnamemap show_id x ≠ element_stmt litnamemap a i.
Proof. intros H. stmt_norm H. by_first_char H. Qed.

Lemma decision_stmt_ne_element_edge x a i :
  decision_stmt litnamemap show_id x ≠ element_edge a i.
Proof. intros H. stmt_norm H. by apply str_N_split in H as [_ ?]. Qed.

Lemma decision_stmt_ne_child_edge x a i child :
  decision_stmt litnamemap show_id x ≠ child_edge a i child.
Proof. intros H. stmt_norm H. by_first_char H. Qed.

Lemma element_stmt_inj a b i j :
  element_stmt litnamemap a i = element_stmt litnamemap b j → a = b ∧ i = j.
Proof.
  intros H. stmt_norm H. injection H as H.
  apply str_N_split in H as [-> H]; [|done..]. injection H as H.
  by apply str_N_split in H as [-> _].
Qed.

Lemma element_stmt_ne_element_edge a b i j :
  element_stmt litnamemap a i ≠ element_edge b j.
Proof. intros H. stmt_norm H. symmetry in H. by_first_char H. Qed.

Lemma element_stmt_ne_child_edge a b i j child :
  element_stmt litnamemap a i ≠ child_edge b j child.
Proof.
  intros H. stmt_norm H. injection H as H.
  apply str_N_split in H as [-> H]; [|done..]. injection H as H.
  by apply str_N_split in H as [_ ?].
Qed.

Lemma element_edge_inj a b i j :
  element_edge a i = element_edge b j → a = b ∧ i = j.
Proof.
  intros H. stmt_norm H.
  apply str_N_split in H as [-> H]; [|done..]. injection H as H.
  apply str_N_split in H as [_ H]; [|done..]. injection H as H.
  by apply str_N_split in H as [-> _].
Qed.

Lemma element_edge_ne_child_edge a b i j child :
  element_edge a i ≠ child_edge b j child.
Proof. intros H. stmt_norm H. by_first_char H. Qed.

End statements.

(** ** Induction on nodes, through the element lists *)

Lemma SddNode_nested_ind (P : SddNode → Prop) :
  (∀ id vt, P (TrueNode id vt)) →
  (∀ id vt, P (FalseNode id vt)) →
  (∀ id vt lit, P (LiteralNode id vt lit)) →
  (∀ id vt elts, Forall (λ ps, P ps.1 ∧ P ps.2) elts → P (DecisionNode id vt elts)) →
  ∀ node, P node.
Proof.
  intros HT HF HL HD. fix IH 1.
  intros [id vt|id vt|id vt lit|id vt elts]; [apply HT|apply HF|apply HL|].
  apply HD. induction elts as [|[prime sub] elts IHelts]; constructor.
  - split; apply IH.
  - exact IHelts.
Qed.

Lemma subnodes_self (node : SddNode) : node ∈ subnodes node.
Proof. destruct node; cbn [subnodes]; apply list_elem_of_here. Qed.

Lemma subnodes_element (id : N) (vt : option Z) (elts : list (SddNode * SddNode))
    (prime sub x : SddNode) :
  (prime, sub) ∈ elts →
  x ∈ subnodes prime ∨ x ∈ subnodes sub →
  x ∈ subnodes (DecisionNode id vt elts).
Proof.
  intros Hin Hx. cbn [subnodes]. apply list_elem_of_further.
  apply list_elem_of_In, in_flat_map. exists (prime, sub).
  split; [by apply list_elem_of_In|].
  apply list_elem_of_In, elem_of_app. done.
Qed.

Lemma subnodes_inv (node x : SddNode) :
  x ∈ subnodes node →
  x = node ∨ ∃ prime sub, (prime, sub) ∈ node_elements node
                          ∧ (x ∈ subnodes prime ∨ x ∈ subnodes sub).
Proof.
  destruct node as [id vt|id vt|id vt lit|id vt elts]; cbn [subnodes node_elements];
    intros Hx; apply elem_of_cons in Hx as [->|Hx]; auto;
    try (by apply elem_of_nil in Hx).
  right. apply list_elem_of_In, in_flat_map in Hx as ([prime sub] & Hin & Hx).
  exists prime, sub. split; [by apply list_elem_of_In|].
  by apply list_elem_of_In, elem_of_app in Hx.
Qed.

Lemma subnodes_trans (root node x : SddNode) :
  node ∈ subnodes root → x ∈ subnodes node → x ∈ subnodes root.
Proof.
  revert node x. induction root as [id vt|id vt|id vt lit|id vt elts IH]
    using SddNode_nested_ind; intros node x Hnode Hx;
    apply subnodes_inv in Hnode as [->|(prime & sub & Hin & Hnode)]; try done;
    try (by apply elem_of_nil in Hin).
  cbn [node_elements] in Hin.
  rewrite Forall_forall in IH. destruct (IH _ Hin) as [IHp IHs]. cbn [fst snd] in *.
  eapply subnodes_element; [done|].
  destruct Hnode as [Hnode|Hnode]; [left; by eapply IHp|right; by eapply IHs].
Qed.

(** ** Counting statements *)

Lemma occurrences_nil (stmt : string) : occurrences stmt [] = 0%nat.
Proof. reflexivity. Qed.

Lemma occurrences_app (stmt : string) (s1 s2 : list string) :
  occurrences stmt (s1 ++ s2) = (occurrences stmt s1 + occurrences stmt s2)%nat.
Proof. unfold occurrences. by rewrite filter_app, length_app. Qed.

Lemma occurrences_cons_ne (stmt line : string) (s : list string) :
  stmt ≠ line → occurrences stmt (line :: s) = occurrences stmt s.
Proof. intros Hne. unfold occurrences. by rewrite filter_cons_False by congruence. Qed.

Lemma occurrences_cons_eq (stmt : string) (s : list string) :
  occurrences stmt (stmt :: s) = S (occurrences stmt s).
Proof. unfold occurrences. by rewrite filter_cons_True. Qed.

Lemma newly_visited_same (id : N) (V : gset N) : newly_visited id V V = 0%nat.
Proof. unfold newly_visited. rewrite decide_False; [done|]. tauto. Qed.

Lemma newly_visited_trans (id : N) (V1 V2 V3 : gset N) :
  V1 ⊆ V2 → V2 ⊆ V3 →
  (newly_visited id V1 V2 + newly_visited id V2 V3)%nat = newly_visited id V1 V3.
Proof.
  intros H12 H23. unfold newly_visited.
  pose proof (H12 id). pose proof (H23 id).
  repeat case_decide; try done; tauto.
Qed.

(** ** The traversal *)
Section traversal.
Context (litnamemap : LitNameMap) (show_id merge_leafs : bool).

Local Abbreviation visit node st :=
  (_sddnode_to_dot_int node litnamemap show_id merge_leafs st).
Local Abbreviation loop :=
  (elements_loop (λ child st, _sddnode_to_dot_int child litnamemap show_id merge_leafs st)
     litnamemap).

Lemma visit_unfold (node : SddNode) (st : render_state) :
  visit node st
  = if bool_decide (node_id node ∈ visited st) then ((Py.str_N (node_id node), []), st)
    else
      match node with
      | DecisionNode id _ elts =>
          let '(s, st') :=
            loop id elts 0%N [decision_stmt litnamemap show_id node] (visited_add node st) in
          ((Py.str_N id, s), st')
      | _ => leaf_to_dot node litnamemap show_id merge_leafs st
      end.
Proof. destruct node; reflexivity. Qed.

Lemma loop_acc (id : N) (elts : list (SddNode * SddNode)) (idx : N) (s : list string)
    (st : render_state) :
  loop id elts idx s st = (s ++ (loop id elts idx [] st).1, (loop id elts idx [] st).2).
Proof.
  revert idx s st. induction elts as [|[prime sub] elts IH]; intros idx s st;
    cbn [elements_loop fst snd].
  - by rewrite app_nil_r.
  - destruct (_sddnode_to_dot_int prime _ _ _ st) as [[prime_id prime_s] st1].
    destruct (_sddnode_to_dot_int sub _ _ _ st1) as [[sub_id sub_s] st2].
    rewrite (IH _ (_ ++ sub_s)). symmetry. rewrite (IH _ (_ ++ sub_s)). cbn [fst snd app].
    by rewrite <- !app_assoc.
Qed.

Lemma loop_cons (id : N) (prime sub : SddNode) (elts : list (SddNode * SddNode)) (idx : N)
    (st : render_state) :
  let r1 := visit prime st in
  let r2 := visit sub r1.2 in
  let r3 := loop id elts (idx + 1)%N [] r2.2 in
  loop id ((prime, sub) :: elts) idx [] st
  = ([element_stmt litnamemap id idx; element_edge id idx;
      child_edge id idx r1.1.1; child_edge id idx r2.1.1]
     ++ r1.1.2 ++ r2.1.2 ++ r3.1, r3.2).
Proof.
  cbn zeta. cbn [elements_loop].
  destruct (_sddnode_to_dot_int prime _ _ _ st) as [[prime_id prime_s] st1].
  cbn [fst snd].
  destruct (_sddnode_to_dot_int sub _ _ _ st1) as [[sub_id sub_s] st2].
  cbn [fst snd]. rewrite loop_acc. cbn [app]. by rewrite <- !app_assoc.
Qed.

End traversal.

(** ** The statements a decision node owns *)
Section owned.
Context (litnamemap : LitNameMap) (show_id : bool).
Context (d : SddNode) (stmt : string) (Hstmt : owned_by litnamemap show_id d stmt).

Lemma owned_ne_merged_leaf (k : N) (label extra : string) :
  stmt ≠ leaf_stmt (Py.str_N k) label extra.
Proof using Hstmt.
  destruct Hstmt as [|idx Hidx|idx Hidx]; intros H; stmt_norm H.
  - by apply str_N_split in H as [_ ?].
  - symmetry in H. by_first_char H.
  - by apply str_N_split in H as [_ ?].
Qed.

Lemma owned_ne_fresh_leaf (name label extra : string) :
  stmt ≠ leaf_stmt ("n" +:+ name) label extra.
Proof using Hstmt.
  destruct Hstmt as [|idx Hidx|idx Hidx]; intros H; stmt_norm H.
  - by_first_char H.
  - discriminate H.
  - by_first_char H.
Qed.

Lemma owned_ne_child_edge (a i : N) (child : string) : stmt ≠ child_edge a i child.
Proof using Hstmt.
  destruct Hstmt.
  - apply decision_stmt_ne_child_edge.
  - apply element_stmt_ne_child_edge.
  - apply element_edge_ne_child_edge.
Qed.

Lemma owned_ne_other_decision (x : SddNode) :
  node_id x ≠ node_id d → stmt ≠ decision_stmt litnamemap show_id x.
Proof using Hstmt.
  intros Hne. destruct Hstmt as [|idx Hidx|idx Hidx]; intros H.
  - by apply decision_stmt_inj in H.
  - symmetry in H. by apply decision_stmt_ne_element_stmt in H.
  - symmetry in H. by apply decision_stmt_ne_element_edge in H.
Qed.

Lemma owned_ne_other_element (a i : N) :
  a ≠ node_id d →
  stmt ≠ element_stmt litnamemap a i ∧ stmt ≠ element_edge a i.
Proof using Hstmt.
  intros Hne. destruct Hstmt as [|idx Hidx|idx Hidx]; split; intros H.
  - by apply decision_stmt_ne_element_stmt in H.
  - by apply decision_stmt_ne_element_edge in H.
  - apply element_stmt_inj in H as [? _]. congruence.
  - by apply element_stmt_ne_element_edge in H.
  - symmetry in H. by apply element_stmt_ne_element_edge in H.
  - apply element_edge_inj in H as [? _]. congruence.
Qed.

End owned.

Lemma own_occurrences_decision_stmt (litnamemap : LitNameMap) (show_id : bool) (x : SddNode)
    (a : N) (elts : list (SddNode * SddNode)) (idx : N) :
  own_occurrences (decision_stmt litnamemap show_id x) litnamemap a elts idx = 0%nat.
Proof.
  revert idx. induction elts as [|ps elts IH]; intros idx; [done|].
  cbn [own_occurrences].
  rewrite (occurrences_cons_ne _ (element_stmt _ _ _)) by apply decision_stmt_ne_element_stmt.
  rewrite (occurrences_cons_ne _ (element_edge _ _)) by apply decision_stmt_ne_element_edge.
  by rewrite occurrences_nil, IH.
Qed.

Lemma own_occurrences_element_stmt (litnamemap : LitNameMap) (a : N)
    (elts : list (SddNode * SddNode)) (i k : nat) :
  own_occurrences (element_stmt litnamemap a (N.of_nat k)) litnamemap a elts (N.of_nat i)
  = if decide (i ≤ k < i + length elts)%nat then 1%nat else 0%nat.
Proof.
  revert i. induction elts as [|ps elts IH]; intros i; cbn [own_occurrences length].
  - rewrite decide_False by lia. done.
  - replace (N.of_nat i + 1)%N with (N.of_nat (S i)) by lia. rewrite IH.
    destruct (decide (k = i)) as [->|Hne].
    + rewrite occurrences_cons_eq.
      rewrite occurrences_cons_ne, occurrences_nil by apply element_stmt_ne_element_edge.
      rewrite decide_False by lia. rewrite decide_True by lia. done.
    + rewrite occurrences_cons_ne.
      2:{ intros H. apply element_stmt_inj in H as [_ H]. lia. }
      rewrite occurrences_cons_ne, occurrences_nil by apply element_stmt_ne_element_edge.
      repeat case_decide; (done || lia).
Qed.

Lemma own_occurrences_element_edge (litnamemap : LitNameMap) (a : N)
    (elts : list (SddNode * SddNode)) (i k : nat) :
  own_occurrences (element_edge a (N.of_nat k)) litnamemap a elts (N.of_nat i)
  = if decide (i ≤ k < i + length elts)%nat then 1%nat else 0%nat.
Proof.
  revert i. induction elts as [|ps elts IH]; intros i; cbn [own_occurrences length].
  - rewrite decide_False by lia. done.
  - replace (N.of_nat i + 1)%N with (N.of_nat (S i)) by lia. rewrite IH.
    rewrite (occurrences_cons_ne _ (element_stmt _ _ _)).
    2:{ intros H. symmetry in H. by apply element_stmt_ne_element_edge in H. }
    destruct (decide (k = i)) as [->|Hne].
    + rewrite occurrences_cons_eq, occurrences_nil.
      rewrite decide_False by lia. rewrite decide_True by lia. done.
    + rewrite occurrences_cons_ne, occurrences_nil.
      2:{ intros H. apply element_edge_inj in H as [_ H]. lia. }
      repeat case_decide; (done || lia).
Qed.

(** Among the statements a decision node emits on its own account, each
    owned one occurs once. *)
Lemma owned_self_once (litnamemap : LitNameMap) (show_id : bool) (d : SddNode) (stmt : string) :
  owned_by litnamemap show_id d stmt →
  (occurrences stmt [decision_stmt litnamemap show_id d]
   + own_occurrences stmt litnamemap (node_id d) (node_elements d) 0)%nat = 1%nat.
Proof.
  intros [|idx Hidx|idx Hidx].
  - by rewrite occurrences_cons_eq, occurrences_nil, own_occurrences_decision_stmt.
  - rewrite occurrences_cons_ne, occurrences_nil.
    2:{ intros H. symmetry in H. by apply decision_stmt_ne_element_stmt in H. }
    rewrite (own_occurrences_element_stmt _ _ _ 0 idx). rewrite decide_True by lia. done.
  - rewrite occurrences_cons_ne, occurrences_nil.
    2:{ intros H. symmetry in H. by apply decision_stmt_ne_element_edge in H. }
    rewrite (own_occurrences_element_edge _ _ _ 0 idx). rewrite decide_True by lia. done.
Qed.

(** ** What a traversal emits and visits *)
Section emitted.
Context (litnamemap : LitNameMap) (show_id merge_leafs : bool).

Local Abbreviation visit node st :=
  (_sddnode_to_dot_int node litnamemap show_id merge_leafs st).
Local Abbreviation loop :=
  (elements_loop (λ child st, _sddnode_to_dot_int child litnamemap show_id merge_leafs st)
     litnamemap).

Lemma leaf_to_dot_visited (node : SddNode) (st : render_state) :
  visited (leaf_to_dot node litnamemap show_id merge_leafs st).2
  = if merge_leafs then {[node_id node]} ∪ visited st else visited st.
Proof. unfold leaf_to_dot. by destruct merge_leafs. Qed.

Lemma loop_mono (id : N) (elts : list (SddNode * SddNode)) :
  Forall (λ ps, (∀ st, visited st ⊆ visited (visit ps.1 st).2)
                ∧ (∀ st, visited st ⊆ visited (visit ps.2 st).2)) elts →
  ∀ idx st, visited st ⊆ visited (loop id elts idx [] st).2.
Proof.
  induction 1 as [|[prime sub] elts [Hp Hs] _ IH]; intros idx st; [done|].
  rewrite loop_cons. cbn zeta. cbn [fst snd] in *.
  etrans; [apply Hp|]. etrans; [apply Hs|]. apply IH.
Qed.

Lemma visit_mono (node : SddNode) (st : render_state) :
  visited st ⊆ visited (visit node st).2.
Proof.
  revert st. induction node as [id vt|id vt|id vt lit|id vt elts IH]
    using SddNode_nested_ind; intros st; rewrite visit_unfold;
    case_bool_decide; try done;
    try (rewrite leaf_to_dot_visited; destruct merge_leafs; set_solver).
  rewrite loop_acc. cbn [fst snd].
  etrans; [|by apply loop_mono]. cbn. set_solver.
Qed.

Lemma visit_decision_visited (node : SddNode) (st : render_state) :
  is_decision node = true → node_id node ∈ visited (visit node st).2.
Proof.
  intros Hdec. rewrite visit_unfold. case_bool_decide; [done|].
  destruct node as [| | |id vt elts]; try done.
  rewrite loop_acc. cbn [fst snd].
  eapply loop_mono; [|cbn; set_solver].
  apply Forall_forall. intros ps _. split; apply visit_mono.
Qed.

End emitted.

(** ** Counting the lines of a traversal

    [P] holds of no statement of a leaf and of no statement that a
    decision node other than [d] emits on its own account; among the four
    statements [d] emits for its element [i] it holds of [κ i], whatever the
    identifiers of the children are.  Then the lines satisfying [P] are
    emitted when [d] is expanded, and only then. *)
Section counted.
Context (litnamemap : LitNameMap) (show_id merge_leafs : bool).
Context (P : string → Prop) `{!∀ line, Decision (P line)}.
Context (d : SddNode) (κ : N → nat).

Local Abbreviation visit node st :=
  (_sddnode_to_dot_int node litnamemap show_id merge_leafs st).
Local Abbreviation loop :=
  (elements_loop (λ child st, _sddnode_to_dot_int child litnamemap show_id merge_leafs st)
     litnamemap).
Local Abbreviation element_stmts id idx c1 c2 :=
  [element_stmt litnamemap id idx; element_edge id idx;
   child_edge id idx c1; child_edge id idx c2].
Local Abbreviation own_total :=
  (count_lines P [decision_stmt litnamemap show_id d]
   + element_total κ (length (node_elements d)) 0)%nat.
Local Abbreviation same_id_is_d node :=
  (∀ x, x ∈ subnodes node → node_id x = node_id d → x = d).
Local Abbreviation emitted_with_d node :=
  (∀ st, count_lines P (visit node st).1.2
         = Nat.mul own_total
             (newly_visited (node_id d) (visited st) (visited (visit node st).2))).

Hypothesis P_leaf : ∀ node st,
  count_lines P (leaf_to_dot node litnamemap show_id merge_leafs st).1.2 = 0%nat.
Hypothesis P_other_decision : ∀ x,
  node_id x ≠ node_id d → ¬ P (decision_stmt litnamemap show_id x).
Hypothesis P_other_element : ∀ a i c1 c2,
  a ≠ node_id d → count_lines P (element_stmts a i c1 c2) = 0%nat.
Hypothesis P_element : ∀ i c1 c2,
  count_lines P (element_stmts (node_id d) i c1 c2) = κ i.

Lemma count_lines_app (s1 s2 : list string) :
  count_lines P (s1 ++ s2) = (count_lines P s1 + count_lines P s2)%nat.
Proof. unfold count_lines. by rewrite filter_app, length_app. Qed.

Lemma count_loop (id : N) (elts : list (SddNode * SddNode)) :
  Forall (λ ps, emitted_with_d ps.1 ∧ emitted_with_d ps.2) elts →
  ∀ idx st,
    count_lines P (loop id elts idx [] st).1
    = ((if decide (id = node_id d) then element_total κ (length elts) idx else 0)
       + own_total * newly_visited (node_id d) (visited st)
                       (visited (loop id elts idx [] st).2))%nat.
Proof using P_other_element P_element.
  induction 1 as [|[prime sub] elts [Hp Hs] _ IH]; intros idx st.
  - cbn. rewrite newly_visited_same. case_decide; lia.
  - rewrite loop_cons. cbn zeta. cbn [fst snd length element_total] in *.
    change (element_stmts id idx (visit prime st).1.1 (visit sub (visit prime st).2).1.1
            ++ (visit prime st).1.2 ++ (visit sub (visit prime st).2).1.2
            ++ (loop id elts (idx + 1)%N [] (visit sub (visit prime st).2).2).1)
      with (element_stmts id idx (visit prime st).1.1 (visit sub (visit prime st).2).1.1
            ++ ((visit prime st).1.2 ++ (visit sub (visit prime st).2).1.2
                ++ (loop id elts (idx + 1)%N [] (visit sub (visit prime st).2).2).1)).
    rewrite (count_lines_app (element_stmts id idx _ _)).
    rewrite !count_lines_app, Hp, Hs, IH.
    set (st1 := (visit prime st).2). set (st2 := (visit sub st1).2).
    set (st3 := (loop id elts (idx + 1)%N [] st2).2).
    assert (H01 : visited st ⊆ visited st1) by apply visit_mono.
    assert (H12 : visited st1 ⊆ visited st2) by apply visit_mono.
    assert (H23 : visited st2 ⊆ visited st3).
    { apply loop_mono. apply Forall_forall. intros ps _. split; intros; apply visit_mono. }
    pose proof (newly_visited_trans (node_id d) _ _ _ H01 H12) as E1.
    pose proof (newly_visited_trans (node_id d) _ _ _ (transitivity H01 H12) H23) as E2.
    destruct (decide (id = node_id d)) as [->|Hid].
    + rewrite P_element. nia.
    + rewrite P_other_element by done. nia.
Qed.

Lemma count_visit (node : SddNode) :
  is_decision d = true → same_id_is_d node → emitted_with_d node.
Proof using P_leaf P_other_decision P_other_element P_element.
  intros Hd.
  induction node as [id vt|id vt|id vt lit|id vt elts IH] using SddNode_nested_ind;
    intros Hsame st; rewrite visit_unfold; case_bool_decide as Hvis;
    try (cbn [fst snd]; rewrite newly_visited_same; cbn; lia).
  1-3: rewrite P_leaf, leaf_to_dot_visited;
       unfold newly_visited; rewrite decide_False; [lia|];
       intros [Hin Hout]; destruct merge_leafs; [|done];
       apply elem_of_union in Hin as [Hin|Hin]; [|done];
       apply elem_of_singleton in Hin;
       specialize (Hsame _ (subnodes_self _) (eq_sym Hin)); by subst d.
  rewrite loop_acc. cbn [fst snd]. rewrite count_lines_app, count_loop.
  2:{ rewrite Forall_forall in IH. apply Forall_forall. intros [prime sub] Hin.
      destruct (IH _ Hin) as [IHp IHs]. cbn [fst snd] in *.
      split; [apply IHp|apply IHs]; intros x Hx; apply Hsame;
        eapply subnodes_element; eauto. }
  set (st1 := visited_add (DecisionNode id vt elts) st).
  set (st2 := (loop id elts 0%N [] st1).2).
  assert (Hmono : visited st1 ⊆ visited st2).
  { apply loop_mono. apply Forall_forall. intros ps _. split; apply visit_mono. }
  assert (Hst1 : visited st1 = {[id]} ∪ visited st) by done.
  cbn [node_id] in Hvis.
  destruct (decide (id = node_id d)) as [Hid|Hid].
  - assert (DecisionNode id vt elts = d) as Heq by (apply Hsame; [apply subnodes_self|done]).
    rewrite <- Heq. cbn [node_id node_elements].
    unfold newly_visited.
    rewrite (decide_False (P := id ∈ visited st2 ∧ id ∉ visited st1)).
    2:{ rewrite Hst1. intros [_ Hout]. apply Hout, elem_of_union. left.
        by apply elem_of_singleton. }
    rewrite (decide_True (P := id ∈ visited st2 ∧ id ∉ visited st)).
    2:{ split; [|done]. apply Hmono. rewrite Hst1. apply elem_of_union. left.
        by apply elem_of_singleton. }
    lia.
  - assert (count_lines P [decision_stmt litnamemap show_id (DecisionNode id vt elts)]
            = 0%nat) as ->.
    { unfold count_lines. rewrite filter_cons_False; [done|].
      by apply P_other_decision. }
    assert (newly_visited (node_id d) (visited st1) (visited st2)
            = newly_visited (node_id d) (visited st) (visited st2)) as ->; [|lia].
    unfold newly_visited. rewrite Hst1.
    assert (node_id d ∈ {[id]} ∪ visited st ↔ node_id d ∈ visited st) as Hiff.
    { rewrite elem_of_union, elem_of_singleton. split; [intros [?|?]|]; [congruence|done|auto]. }
    repeat case_decide; try done; tauto.
Qed.

End counted.

(** ** Every decision node below the root is visited *)
Section coverage.
Context (litnamemap : LitNameMap) (show_id merge_leafs : bool).
Context (root : SddNode) (Hunique : unique_ids root).

Local Abbreviation visit node st :=
  (_sddnode_to_dot_int node litnamemap show_id merge_leafs st).
Local Abbreviation loop :=
  (elements_loop (λ child st, _sddnode_to_dot_int child litnamemap show_id merge_leafs st)
     litnamemap).

Local Abbreviation keeps_closed node :=
  (node ∈ subnodes root →
   ∀ st P, closed_except root (visited st) P →
           closed_except root (visited (visit node st).2) P).

Lemma closed_except_mono_leaf (V P : gset N) (node : SddNode) :
  node ∈ subnodes root → is_decision node = false →
  closed_except root V P → closed_except root ({[node_id node]} ∪ V) P.
Proof using Hunique.
  intros Hnode Hleaf Hclosed x prime sub Hx Hin Hout Helt.
  apply elem_of_union in Hin as [Hin|Hin].
  - apply elem_of_singleton in Hin.
    rewrite (Hunique x node Hx Hnode Hin) in Helt.
    destruct node; cbn in Helt, Hleaf; try done; by apply elem_of_nil in Helt.
  - destruct (Hclosed x prime sub Hx Hin Hout Helt) as [Hp Hs].
    split; intros; apply elem_of_union; right; auto.
Qed.

Lemma closed_loop (id : N) (elts : list (SddNode * SddNode)) :
  Forall (λ ps, keeps_closed ps.1 ∧ keeps_closed ps.2) elts →
  (∀ prime sub, (prime, sub) ∈ elts → prime ∈ subnodes root ∧ sub ∈ subnodes root) →
  ∀ idx st P,
    closed_except root (visited st) P →
    closed_except root (visited (loop id elts idx [] st).2) P
    ∧ ∀ prime sub, (prime, sub) ∈ elts →
        (is_decision prime = true → node_id prime ∈ visited (loop id elts idx [] st).2)
        ∧ (is_decision sub = true → node_id sub ∈ visited (loop id elts idx [] st).2).
Proof.
  induction 1 as [|[prime sub] elts [Hp Hs] Hall IH]; intros Hsub idx st P Hclosed.
  - split; [done|]. intros prime sub Hin. by apply elem_of_nil in Hin.
  - rewrite loop_cons. cbn zeta. cbn [fst snd] in *.
    destruct (Hsub prime sub) as [Hprime Hsubn]; [apply list_elem_of_here|].
    set (st1 := (visit prime st).2). set (st2 := (visit sub st1).2).
    assert (Hc1 : closed_except root (visited st1) P) by by apply Hp.
    assert (Hc2 : closed_except root (visited st2) P) by by apply Hs.
    destruct (IH (λ p s Hin, Hsub p s (list_elem_of_further _ _ _ Hin)) (idx + 1)%N st2 P Hc2)
      as [Hc3 Hin3].
    split; [done|].
    assert (Hmono : visited st2 ⊆ visited (loop id elts (idx + 1)%N [] st2).2).
    { apply loop_mono. apply Forall_forall. intros ps _. split; intros; apply visit_mono. }
    intros p s Hin. apply elem_of_cons in Hin as [[= -> ->]|Hin]; [|by apply Hin3].
    split; intros Hdec; apply Hmono.
    + apply (visit_mono _ _ _ sub st1). by apply visit_decision_visited.
    + by apply visit_decision_visited.
Qed.

Lemma closed_visit (node : SddNode) : keeps_closed node.
Proof using Hunique.
  induction node as [id vt|id vt|id vt lit|id vt elts IH] using SddNode_nested_ind;
    intros Hnode st P Hclosed; rewrite visit_unfold; case_bool_decide as Hvis; try done.
  1-3: rewrite leaf_to_dot_visited; destruct merge_leafs; [|done];
       by apply (closed_except_mono_leaf _ _ _ Hnode).
  rewrite loop_acc. cbn [fst snd].
  set (node := DecisionNode id vt elts) in *.
  assert (Hsub : ∀ prime sub, (prime, sub) ∈ elts →
                              prime ∈ subnodes root ∧ sub ∈ subnodes root).
  { intros prime sub Hin. split; apply (subnodes_trans root node); try done;
      eapply (subnodes_element id vt elts prime sub); eauto using subnodes_self. }
  assert (Hc1 : closed_except root (visited (visited_add node st)) ({[id]} ∪ P)).
  { intros x prime sub Hx Hin Hout Helt. cbn in Hin.
    apply not_elem_of_union in Hout as [Hid HP].
    apply elem_of_union in Hin as [Hin|Hin]; [done|].
    destruct (Hclosed x prime sub Hx Hin HP Helt) as [Hp Hs].
    split; intros; cbn; apply elem_of_union; right; auto. }
  destruct (closed_loop id elts IH Hsub 0%N _ _ Hc1) as [Hc2 Hin2].
  intros x prime sub Hx Hin Hout Helt.
  destruct (decide (node_id x = id)) as [Hid|Hid].
  - rewrite (Hunique x node Hx Hnode Hid) in Helt. cbn [node_elements] in Helt.
    by apply Hin2.
  - apply (Hc2 x prime sub Hx Hin); [|done].
    apply not_elem_of_union. split; [|done]. by rewrite elem_of_singleton.
Qed.

Lemma closed_reach (V : gset N) (node : SddNode) :
  closed_except root V ∅ →
  node ∈ subnodes root → node_id node ∈ V →
  ∀ x, x ∈ subnodes node → is_decision x = true → node_id x ∈ V.
Proof.
  intros Hclosed.
  induction node as [id vt|id vt|id vt lit|id vt elts IH] using SddNode_nested_ind;
    intros Hnode Hin x Hx Hdec;
    apply subnodes_inv in Hx as [->|(prime & sub & Helt & Hx)]; try done;
    try (by apply elem_of_nil in Helt).
  cbn [node_elements] in Helt.
  destruct (Hclosed _ prime sub Hnode Hin ltac:(set_solver) Helt) as [Hp Hs].
  rewrite Forall_forall in IH. destruct (IH _ Helt) as [IHp IHs]. cbn [fst snd] in *.
  assert (Hprime : prime ∈ subnodes root).
  { apply (subnodes_trans root (DecisionNode id vt elts)); [done|].
    eapply subnodes_element; eauto using subnodes_self. }
  assert (Hsubn : sub ∈ subnodes root).
  { apply (subnodes_trans root (DecisionNode id vt elts)); [done|].
    eapply subnodes_element; eauto using subnodes_self. }
  destruct Hx as [Hx|Hx].
  - destruct (is_decision prime) eqn:Ep.
    + by apply IHp; auto.
    + destruct prime; try done; cbn [subnodes] in Hx;
        apply list_elem_of_singleton in Hx; by subst x.
  - destruct (is_decision sub) eqn:Es.
    + by apply IHs; auto.
    + destruct sub; try done; cbn [subnodes] in Hx;
        apply list_elem_of_singleton in Hx; by subst x.
Qed.

Lemma all_decisions_visited (d : SddNode) (g : N) :
  d ∈ subnodes root → is_decision d = true →
  node_id d ∈ visited (visit root {| node_count := g; visited := ∅ |}).2.
Proof using Hunique.
  intros Hd Hdec.
  destruct (is_decision root) eqn:Hroot.
  - eapply (closed_reach _ root); try done.
    + apply closed_visit; [apply subnodes_self|].
      intros x prime sub _ Hin. cbn in Hin. by apply not_elem_of_empty in Hin.
    + apply subnodes_self.
    + by apply visit_decision_visited.
  - destruct root; try done; cbn [subnodes] in Hd;
      apply list_elem_of_singleton in Hd; by subst d.
Qed.

End coverage.

(** *** The statements a decision node owns occur when it is expanded *)

Lemma element_total_own_occurrences (litnamemap : LitNameMap) (stmt : string) (id : N)
    (elts : list (SddNode * SddNode)) (idx : N) :
  element_total
    (λ i, occurrences stmt [element_stmt litnamemap id i; element_edge id i])
    (length elts) idx
  = own_occurrences stmt litnamemap id elts idx.
Proof.
  revert idx. induction elts as [|ps elts IH]; intros idx; [done|].
  cbn [length element_total own_occurrences]. by rewrite IH.
Qed.

Section owned_count.
Context (litnamemap : LitNameMap) (show_id merge_leafs : bool).
Context (d : SddNode) (Hd : is_decision d = true).
Context (stmt : string) (Hstmt : owned_by litnamemap show_id d stmt).

Lemma occurrences_leaf (node : SddNode) (st : render_state) :
  occurrences stmt (leaf_to_dot node litnamemap show_id merge_leafs st).1.2 = 0%nat.
Proof using Hstmt.
  unfold leaf_to_dot. destruct merge_leafs; cbn [fst snd].
  - rewrite occurrences_cons_ne; [done|]. by eapply owned_ne_merged_leaf.
  - rewrite occurrences_cons_ne; [done|]. by eapply owned_ne_fresh_leaf.
Qed.

Lemma occurrences_visit (node : SddNode) (st : render_state) :
  (∀ x, x ∈ subnodes node → node_id x = node_id d → x = d) →
  occurrences stmt (_sddnode_to_dot_int node litnamemap show_id merge_leafs st).1.2
  = newly_visited (node_id d) (visited st)
      (visited (_sddnode_to_dot_int node litnamemap show_id merge_leafs st).2).
Proof using Hstmt Hd.
  intros Hsame.
  set (κ := λ i, occurrences stmt
                   [element_stmt litnamemap (node_id d) i; element_edge (node_id d) i]).
  assert (Hother_dec : ∀ x, node_id x ≠ node_id d → ¬ decision_stmt litnamemap show_id x = stmt).
  { intros x Hx. apply not_eq_sym. by eapply owned_ne_other_decision. }
  assert (Hother_el : ∀ a i c1 c2, a ≠ node_id d →
            occurrences stmt [element_stmt litnamemap a i; element_edge a i;
                              child_edge a i c1; child_edge a i c2] = 0%nat).
  { intros a i c1 c2 Ha. destruct (owned_ne_other_element _ _ _ _ Hstmt a i Ha) as [H1 H2].
    rewrite (occurrences_cons_ne _ (element_stmt _ _ _)) by done.
    rewrite (occurrences_cons_ne _ (element_edge _ _)) by done.
    rewrite !(occurrences_cons_ne _ (child_edge _ _ _)) by by eapply owned_ne_child_edge.
    apply occurrences_nil. }
  assert (Hel : ∀ i c1 c2,
            occurrences stmt [element_stmt litnamemap (node_id d) i; element_edge (node_id d) i;
                              child_edge (node_id d) i c1; child_edge (node_id d) i c2] = κ i).
  { intros i c1 c2.
    change [element_stmt litnamemap (node_id d) i; element_edge (node_id d) i;
            child_edge (node_id d) i c1; child_edge (node_id d) i c2]
      with ([element_stmt litnamemap (node_id d) i; element_edge (node_id d) i]
            ++ [child_edge (node_id d) i c1; child_edge (node_id d) i c2]).
    rewrite occurrences_app.
    rewrite !(occurrences_cons_ne _ (child_edge _ _ _)) by by eapply owned_ne_child_edge.
    rewrite occurrences_nil. unfold κ. lia. }
  pose proof (count_visit litnamemap show_id merge_leafs (λ line, line = stmt) d κ
                occurrences_leaf Hother_dec Hother_el Hel node Hd Hsame st) as Hcount.
  change (occurrences stmt
            (_sddnode_to_dot_int node litnamemap show_id merge_leafs st).1.2
          = ((occurrences stmt [decision_stmt litnamemap show_id d]
              + element_total κ (length (node_elements d)) 0)
             * newly_visited (node_id d) (visited st)
                 (visited (_sddnode_to_dot_int node litnamemap show_id merge_leafs st).2))%nat)
    in Hcount.
  rewrite Hcount. unfold κ.
  rewrite element_total_own_occurrences, (owned_self_once _ _ _ _ Hstmt). lia.
Qed.

End owned_count.

(** *** The edges from an element node to its two children *)

Lemma starts_with_self (p t : string) : starts_with p (p +:+ t) = true.
Proof.
  induction p as [|c p IH]; [done|].
  rewrite string_app_cons. cbn [starts_with]. by rewrite Ascii.eqb_refl.
Qed.

Lemma starts_with_head (c : ascii) (p s : string) :
  starts_with (String c p) s = true → ∃ s', s = String c s'.
Proof.
  destruct s as [|c' s]; cbn [starts_with]; [done|].
  intros [Hc _]%andb_prop. apply Ascii.eqb_eq in Hc as ->. eauto.
Qed.

Lemma starts_with_digits (x y : string) (c c' : ascii) (p s : string) :
  digits_only x = true → digits_only y = true →
  is_digit c = false → is_digit c' = false →
  starts_with (x +:+ String c p) (y +:+ String c' s) = true →
  x = y ∧ starts_with (String c p) (String c' s) = true.
Proof.
  revert y. induction x as [|a x IH]; intros [|b y] Hx Hy Hc Hc' Hsw;
    rewrite ?string_app_cons, ?string_app_nil in Hsw; cbn [digits_only] in *.
  - done.
  - cbn [starts_with] in Hsw. apply andb_prop in Hsw as [Heq _].
    apply Ascii.eqb_eq in Heq as ->. apply andb_prop in Hy as [Hb _]. congruence.
  - cbn [starts_with] in Hsw. apply andb_prop in Hsw as [Heq _].
    apply Ascii.eqb_eq in Heq as ->. apply andb_prop in Hx as [Ha _]. congruence.
  - cbn [starts_with] in Hsw. apply andb_prop in Hsw as [Heq Hsw].
    apply Ascii.eqb_eq in Heq as ->.
    apply andb_prop in Hx as [_ Hx]. apply andb_prop in Hy as [_ Hy].
    destruct (IH y Hx Hy Hc Hc' Hsw) as [-> ?]. done.
Qed.

Lemma str_N_starts_with (a b : N) (c c' : ascii) (p s : string) :
  is_digit c = false → is_digit c' = false →
  starts_with (Py.str_N a +:+ String c p) (Py.str_N b +:+ String c' s) = true →
  a = b ∧ starts_with (String c p) (String c' s) = true.
Proof.
  intros Hc Hc' Hsw.
  apply starts_with_digits in Hsw as [Heq ?]; auto using str_N_digits.
  by apply str_N_inj in Heq.
Qed.

Ltac edge_norm H :=
  unfold is_child_edge, decision_stmt, element_stmt, element_edge, child_edge, leaf_stmt,
    ps_id in H;
  rewrite ?string_app_assoc in H;
  rewrite ?string_app_cons, ?string_app_nil in H.

Lemma is_child_edge_not_digit_first (id idx : N) (line : string) :
  starts_with_digit line = true → ¬ is_child_edge id idx line.
Proof.
  intros Hdigit H. edge_norm H.
  apply starts_with_head in H as [s' ->]. discriminate Hdigit.
Qed.

Lemma is_child_edge_child_edge (id idx a i : N) (child : string) :
  is_child_edge id idx (child_edge a i child) ↔ a = id ∧ i = idx.
Proof.
  split.
  - intros H. edge_norm H. cbn [starts_with Ascii.eqb Bool.eqb andb] in H.
    apply str_N_starts_with in H as [-> H]; [|done..].
    cbn [starts_with Ascii.eqb Bool.eqb andb] in H.
    by apply str_N_starts_with in H as [-> _].
  - intros [-> ->]. unfold is_child_edge, child_edge.
    rewrite <- (string_app_assoc (ps_id id idx) " -> "). apply starts_with_self.
Qed.

Lemma is_child_edge_element_stmt (litnamemap : LitNameMap) (id idx a i : N) :
  ¬ is_child_edge id idx (element_stmt litnamemap a i).
Proof.
  intros H. edge_norm H. cbn [starts_with Ascii.eqb Bool.eqb andb] in H.
  apply str_N_starts_with in H as [-> H]; [|done..].
  cbn [starts_with Ascii.eqb Bool.eqb andb] in H.
  apply str_N_starts_with in H as [_ H]; [|done..].
  discriminate H.
Qed.

Lemma element_total_single (j c n i0 : nat) :
  element_total (λ i, if decide (i = N.of_nat j) then c else 0%nat) n (N.of_nat i0)
  = if decide (i0 ≤ j < i0 + n)%nat then c else 0%nat.
Proof.
  revert i0. induction n as [|n IH]; intros i0; cbn [element_total].
  - rewrite decide_False by lia. done.
  - replace (N.of_nat i0 + 1)%N with (N.of_nat (S i0)) by lia. rewrite IH.
    repeat case_decide; (done || lia).
Qed.

Section child_edges.
Context (litnamemap : LitNameMap) (show_id merge_leafs : bool).
Context (d : SddNode) (Hd : is_decision d = true).
Context (j : nat) (Hj : (j < length (node_elements d))%nat).

Local Abbreviation P := (is_child_edge (node_id d) (N.of_nat j)).

Lemma child_edge_count_1 (line : string) (s : list string) :
  P line → count_lines P (line :: s) = S (count_lines P s).
Proof. intros HP. unfold count_lines. by rewrite filter_cons_True. Qed.

Lemma child_edge_count_0 (line : string) (s : list string) :
  ¬ P line → count_lines P (line :: s) = count_lines P s.
Proof. intros HP. unfold count_lines. by rewrite filter_cons_False. Qed.

Lemma child_edge_leaf (node : SddNode) (st : render_state) :
  count_lines P (leaf_to_dot node litnamemap show_id merge_leafs st).1.2 = 0%nat.
Proof.
  unfold leaf_to_dot. destruct merge_leafs; cbn [fst snd].
  - rewrite child_edge_count_0; [done|]. apply is_child_edge_not_digit_first.
    unfold leaf_stmt. apply str_N_starts_with_digit.
  - rewrite child_edge_count_0; [done|]. intros H. edge_norm H. discriminate H.
Qed.

Lemma child_edge_decision_stmt (x : SddNode) : ¬ P (decision_stmt litnamemap show_id x).
Proof. apply is_child_edge_not_digit_first. unfold decision_stmt. apply str_N_starts_with_digit. Qed.

Lemma child_edge_element_edge (a i : N) : ¬ P (element_edge a i).
Proof. apply is_child_edge_not_digit_first. unfold element_edge. apply str_N_starts_with_digit. Qed.

Lemma child_edge_elements (a i : N) (c1 c2 : string) :
  count_lines P [element_stmt litnamemap a i; element_edge a i;
                 child_edge a i c1; child_edge a i c2]
  = if decide (a = node_id d ∧ i = N.of_nat j) then 2%nat else 0%nat.
Proof.
  rewrite child_edge_count_0 by apply is_child_edge_element_stmt.
  rewrite child_edge_count_0 by apply child_edge_element_edge.
  case_decide as Hai.
  - rewrite !child_edge_count_1 by by apply is_child_edge_child_edge. done.
  - rewrite !child_edge_count_0 by by rewrite is_child_edge_child_edge. done.
Qed.

Lemma child_edges_visit (node : SddNode) (st : render_state) :
  (∀ x, x ∈ subnodes node → node_id x = node_id d → x = d) →
  count_lines P (_sddnode_to_dot_int node litnamemap show_id merge_leafs st).1.2
  = (2 * newly_visited (node_id d) (visited st)
           (visited (_sddnode_to_dot_int node litnamemap show_id merge_leafs st).2))%nat.
Proof using Hd Hj.
  intros Hsame.
  rewrite (count_visit litnamemap show_id merge_leafs P d
             (λ i, if decide (i = N.of_nat j) then 2%nat else 0%nat)); try done.
  - rewrite child_edge_count_0 by apply child_edge_decision_stmt.
    rewrite (element_total_single j 2 _ 0). rewrite decide_True by lia. done.
  - apply child_edge_leaf.
  - intros x _. apply child_edge_decision_stmt.
  - intros a i c1 c2 Ha. rewrite child_edge_elements. rewrite decide_False; [done|]. tauto.
  - intros i c1 c2. rewrite child_edge_elements. repeat case_decide; try done; tauto.
Qed.

End child_edges.

Lemma owned_ne_frame (litnamemap : LitNameMap) (show_id : bool) (d : SddNode) (stmt : string) :
  owned_by litnamemap show_id d stmt → stmt ≠ "digraph sdd {" ∧ stmt ≠ "}".
Proof.
  intros [|idx Hidx|idx Hidx]; split; intros H; stmt_norm H;
    first [discriminate H | by_first_char H].
Qed.

(** * Further properties of the evaluators *)

(** ** The weight table *)

Lemma foldlM_ext_Forall {A B} (f g : A → B → result A) (P : B → Prop) (l : list B) (a : A) :
  (∀ a b, P b → f a b = g a b) → Forall P l → foldlM f a l = foldlM g a l.
Proof.
  intros Hfg Hl. revert a. induction Hl as [|b l Hb _ IH]; intros a; [done|].
  cbn [foldlM]. rewrite Hfg by done. destruct (g a b); step_bind; [apply IH|done].
Qed.

Section table.
Context {W : Type} `{!Weight W}.
Context {M1 : Type} `{!Lookup Z W M1} {M2 : Type} `{!Lookup Z W M2}.
Implicit Types (st : wmc_state W).

Lemma nnf_line_not_L (w1 : option M1) (w2 : option M2) st line :
  leading_token line ≠ "L" → nnf_line w1 st line = nnf_line w2 st line.
Proof.
  intros HL. unfold nnf_line. cbn zeta. rewrite getitem_cols_0. step_bind.
  rewrite !(decide_False (P:=leading_token line = "L")) by done. reflexivity.
Qed.

Lemma sdd_line_not_L (w1 : option M1) (w2 : option M2) st line :
  leading_token line ≠ "L" → sdd_line w1 st line = sdd_line w2 st line.
Proof.
  intros HL. unfold sdd_line. cbn zeta. rewrite getitem_cols_0. step_bind.
  rewrite !(decide_False (P:=leading_token line = "L")) by done. reflexivity.
Qed.

End table.

Section no_table.
Context {W : Type} `{!Weight W}.
Context {M : Type} `{!Lookup Z W M}.
Implicit Types (st : wmc_state W).

Lemma nnf_line_L_None st line tok rest lit :
  detected st = true →
  Py.split " " (Py.strip line) = "L" :: tok :: rest →
  Py.int tok = Ok lit →
  nnf_line (None : option M) st line = Raise TypeError.
Proof.
  intros Hdet Hcols Htok. unfold nnf_line. rewrite Hcols. cbn zeta.
  read_col. decide_col. rewrite Hdet. cbn [negb].
  unfold nnf_L. read_col. rewrite Htok. reflexivity.
Qed.

Lemma sdd_line_L_None st line idtok vtok tok rest nodeid lit :
  detected st = true →
  Py.split " " (Py.strip line) = "L" :: idtok :: vtok :: tok :: rest →
  Py.int idtok = Ok nodeid →
  Py.int tok = Ok lit →
  sdd_line (None : option M) st line = Raise TypeError.
Proof.
  intros Hdet Hcols Hid Htok. unfold sdd_line. rewrite Hcols. cbn zeta.
  read_col. decide_col. rewrite Hdet. cbn [negb].
  unfold sdd_L. read_col. rewrite Hid. step_bind. rewrite Htok. reflexivity.
Qed.

End no_table.

(** X1.  Called without a weight table ([weights=None], the default), both
    evaluators raise [TypeError] at the first literal line that follows the
    header: the membership test [lit in weights] is applied to [None].  The
    exception ends the call, whatever the rest of the file holds. *)
Theorem literal_line_without_table_raises :
  ∀ (W : Type) (HW : Weight W) (M : Type) (HM : Lookup Z W M),
    (∀ (nnf_file : string) (before rest toks : list string) (line tok : string)
       (st : wmc_state W) (lit : Z),
       Py.readlines nnf_file = before ++ line :: rest →
       foldlM (nnf_line (None : option M)) wmc_init before = Ok st →
       detected st = true →
       Py.split " " (Py.strip line) = "L" :: tok :: toks →
       Py.int tok = Ok lit →
       nnf_file_wmc (W:=W) nnf_file (None : option M) = Raise TypeError)
    ∧ (∀ (sdd_file : string) (before rest toks : list string) (line idtok vtok tok : string)
         (st : wmc_state W) (nodeid lit : Z),
         Py.readlines sdd_file = before ++ line :: rest →
         foldlM (sdd_line (None : option M)) wmc_init before = Ok st →
         detected st = true →
         Py.split " " (Py.strip line) = "L" :: idtok :: vtok :: tok :: toks →
         Py.int idtok = Ok nodeid →
         Py.int tok = Ok lit →
         sdd_file_wmc (W:=W) sdd_file (None : option M) = Raise TypeError).
Proof.
  intros W HW M HM. split.
  - intros nnf_file before rest toks line tok st lit Hlines Hbefore Hdet Hcols Htok.
    unfold nnf_file_wmc, nnf_run. rewrite Hlines, foldlM_app, Hbefore.
    cbn [mbind result_bind foldlM].
    by rewrite (nnf_line_L_None st line tok toks lit).
  - intros sdd_file before rest toks line idtok vtok tok st nodeid lit
      Hlines Hbefore Hdet Hcols Hid Htok.
    unfold sdd_file_wmc, sdd_run. rewrite Hlines, foldlM_app, Hbefore.
    cbn [mbind result_bind foldlM].
    by rewrite (sdd_line_L_None st line idtok vtok tok toks nodeid lit).
Qed.

Lemma literal_line_without_table_raises_witness :
  nnf_file_wmc (W:=float) (text ["c x"; "nnf 2 1 1"; "L 1"; "A 1 0"]) (None : option (gmap Z float))
  = Raise TypeError
  ∧ sdd_file_wmc (W:=float) (text ["sdd 2"; "T 1"; "L 0 0 -1"]) (None : option (gmap Z float))
    = Raise TypeError.
Proof.
  destruct (literal_line_without_table_raises float _ (gmap Z float) _) as [Hnnf Hsdd].
  split.
  - apply (Hnnf _ [String.append "c x" (String "010" ""); String.append "nnf 2 1 1" (String "010" "")]
             ["A 1 0"] [] (String.append "L 1" (String "010" "")) "1"
             {| wmc := [None; None]; ln := 0; detected := true |} 1); reflexivity.
  - apply (Hsdd _ [String.append "sdd 2" (String "010" ""); String.append "T 1" (String "010" "")]
             [] [] "L 0 0 -1" "0" "0" "-1"
             {| wmc := [None; Some 1.0%float]; ln := 1; detected := true |} 0 (-1)); reflexivity.
Defined.

(** X2.  The weight table is read by literal lines only: on a file without
    a line whose leading token is [L], both evaluators return the same
    result (or raise the same exception) for every two values of [weights],
    [None] included. *)
Theorem weights_read_by_literal_lines_only :
  ∀ (W : Type) (HW : Weight W) (M1 : Type) (HM1 : Lookup Z W M1) (M2 : Type) (HM2 : Lookup Z W M2)
    (w1 : option M1) (w2 : option M2) (file : string),
    Forall (λ line, leading_token line ≠ "L") (Py.readlines file) →
    nnf_file_wmc (W:=W) file w1 = nnf_file_wmc file w2
    ∧ sdd_file_wmc (W:=W) file w1 = sdd_file_wmc file w2.
Proof.
  intros W HW M1 HM1 M2 HM2 w1 w2 file Hlines. split.
  - unfold nnf_file_wmc, nnf_run.
    rewrite (foldlM_ext_Forall (nnf_line w1) (nnf_line w2) _ _ wmc_init
               (λ st line, nnf_line_not_L w1 w2 st line) Hlines).
    done.
  - unfold sdd_file_wmc, sdd_run.
    rewrite (foldlM_ext_Forall (sdd_line w1) (sdd_line w2) _ _ wmc_init
               (λ st line, sdd_line_not_L w1 w2 st line) Hlines).
    done.
Qed.

Lemma weights_read_by_literal_lines_only_witness :
  let file := text ["sdd 3"; "T 1"; "F 2"; "D 0 1 2 1 1 2 1"] in
  sdd_file_wmc file (None : option (gmap Z float))
  = sdd_file_wmc file (Some ({[1 := 0.3%float]} : gmap Z float))
  ∧ sdd_file_wmc file (None : option (gmap Z float)) = Ok (Some 1.0%float).
Proof.
  intros file. split; [|vm_compute; reflexivity].
  apply (weights_read_by_literal_lines_only float _ (gmap Z float) _ (gmap Z float) _
           None (Some {[1 := 0.3%float]}) file).
  repeat (constructor; [vm_compute; discriminate|]). constructor.
Defined.

(** ** Comments and files without a header *)

(** X3.  A file that has no line but comment lines, the empty file
    included, makes both evaluators raise [IndexError]: no header ever
    sized the weight array, and the final [wmc[-1]] (resp. [wmc[0]]) indexes
    an empty list. *)
Theorem comment_only_file_raises :
  ∀ (W : Type) (HW : Weight W) (M : Type) (HM : Lookup Z W M) (weights : option M)
    (file : string),
    Forall (λ line, leading_token line = "c") (Py.readlines file) →
    nnf_file_wmc (W:=W) file weights = Raise IndexError
    ∧ sdd_file_wmc (W:=W) file weights = Raise IndexError.
Proof.
  intros W HW M HM weights file Hlines. split.
  - unfold nnf_file_wmc, nnf_run. by rewrite nnf_comments.
  - unfold sdd_file_wmc, sdd_run. by rewrite sdd_comments.
Qed.

Lemma comment_only_file_raises_witness :
  (nnf_file_wmc (W:=float) "" (Some (∅ : gmap Z float)) = Raise IndexError
   ∧ sdd_file_wmc (W:=float) "" (Some (∅ : gmap Z float)) = Raise IndexError)
  ∧ (nnf_file_wmc (W:=float) (text ["c nnf 1 1 1"; "c"]) (None : option (gmap Z float))
     = Raise IndexError
     ∧ sdd_file_wmc (W:=float) (text ["c nnf 1 1 1"; "c"]) (None : option (gmap Z float))
       = Raise IndexError).
Proof.
  split.
  - apply (comment_only_file_raises float _ (gmap Z float) _ (Some ∅) ""). constructor.
  - apply (comment_only_file_raises float _ (gmap Z float) _ None (text ["c nnf 1 1 1"; "c"])).
    repeat (constructor; [reflexivity|]). constructor.
Defined.

(** X4.  Comment lines are skipped wherever they stand: removing a line
    whose leading token is [c] from a file changes neither the result nor
    the exception of either evaluator. *)
Theorem comment_lines_are_skipped :
  ∀ (W : Type) (HW : Weight W) (M : Type) (HM : Lookup Z W M) (weights : option M)
    (file file' : string) (before after : list string) (comment : string),
    Py.readlines file = before ++ comment :: after →
    Py.readlines file' = before ++ after →
    leading_token comment = "c" →
    nnf_file_wmc (W:=W) file weights = nnf_file_wmc file' weights
    ∧ sdd_file_wmc (W:=W) file weights = sdd_file_wmc file' weights.
Proof.
  intros W HW M HM weights file file' before after comment Hfile Hfile' Hc. split.
  - unfold nnf_file_wmc, nnf_run. rewrite Hfile, Hfile', !foldlM_app.
    destruct (foldlM (nnf_line weights) wmc_init before) as [st|e]; [|done].
    cbn [mbind result_bind foldlM]. by rewrite nnf_line_comment.
  - unfold sdd_file_wmc, sdd_run. rewrite Hfile, Hfile', !foldlM_app.
    destruct (foldlM (sdd_line weights) wmc_init before) as [st|e]; [|done].
    cbn [mbind result_bind foldlM]. by rewrite sdd_line_comment.
Qed.

Lemma comment_lines_are_skipped_witness :
  let weights := Some ({[1 := 0.3%float]} : gmap Z float) in
  nnf_file_wmc (text ["nnf 2 1 1"; "L 1"; "c A 9 9"; "A 1 0"]) weights
  = nnf_file_wmc (text ["nnf 2 1 1"; "L 1"; "A 1 0"]) weights
  ∧ sdd_file_wmc (text ["nnf 2 1 1"; "L 1"; "c A 9 9"; "A 1 0"]) weights
    = sdd_file_wmc (text ["nnf 2 1 1"; "L 1"; "A 1 0"]) weights.
Proof.
  intros weights.
  apply (comment_lines_are_skipped float _ (gmap Z float) _ weights
           (text ["nnf 2 1 1"; "L 1"; "c A 9 9"; "A 1 0"]) (text ["nnf 2 1 1"; "L 1"; "A 1 0"])
           [String.append "nnf 2 1 1" (String "010" ""); String.append "L 1" (String "010" "")]
           ["A 1 0"] (String.append "c A 9 9" (String "010" ""))); reflexivity.
Defined.

(** ** The line counter of [sdd_file_wmc] *)

Section sdd_ln.
Context {W : Type} `{!Weight W}.
Context {M : Type} `{!Lookup Z W M}.
Implicit Types (st : wmc_state W) (weights : option M).

(** [sdd_file_wmc] counts lines in [ln] but never reads the counter. *)
Lemma sdd_line_with_ln weights st line k :
  sdd_line weights (with_ln k st) line
  = (λ st', with_ln (ln st' - ln st + k) st') <$> sdd_line weights st line.
Proof.
  unfold sdd_line. cbn zeta. rewrite getitem_cols_0. step_bind.
  destruct (decide (_ = "c")).
  { cbn. unfold with_ln. do 2 f_equal. lia. }
  destruct (decide (_ = "sdd")).
  { destruct (Py.getitem _ 1) as [tok|]; step_bind; [|done].
    destruct (Py.int tok); step_bind; [|done]. cbn. unfold with_ln. cbn. do 2 f_equal. lia. }
  cbn [with_ln detected wmc ln].
  destruct (negb _); [done|].
  repeat match goal with
  | |- (?r ≫= _) = _ => destruct r as [?|?]; step_bind; [|done]
  end.
  cbn. unfold with_ln. cbn. do 2 f_equal. lia.
Qed.

Lemma sdd_lines_with_ln weights lines st k :
  foldlM (sdd_line weights) (with_ln k st) lines
  = (λ st', with_ln (ln st' - ln st + k) st') <$> foldlM (sdd_line weights) st lines.
Proof.
  revert st k. induction lines as [|line lines IH]; intros st k; cbn [foldlM].
  - cbn. unfold with_ln. do 2 f_equal. lia.
  - rewrite sdd_line_with_ln.
    destruct (sdd_line weights st line) as [st1|e]; cbn [fmap result_fmap]; step_bind; [|done].
    rewrite IH.
    destruct (foldlM (sdd_line weights) st1 lines) as [st2|e]; cbn [fmap result_fmap]; [|done].
    unfold with_ln. do 2 f_equal. lia.
Qed.

End sdd_ln.

(** X5.  [sdd_file_wmc] never reads its line counter, so a line after the
    header whose leading token is none of [c], [sdd], [L], [F], [T], [D] (a
    blank line, for one) has no effect at all: removing it from the file
    changes neither the result nor the exception. *)
Theorem sdd_unrecognized_line_has_no_effect :
  ∀ (W : Type) (HW : Weight W) (M : Type) (HM : Lookup Z W M) (weights : option M)
    (file file' : string) (before after : list string) (line : string) (st : wmc_state W),
    Py.readlines file = before ++ line :: after →
    Py.readlines file' = before ++ after →
    foldlM (sdd_line weights) wmc_init before = Ok st →
    detected st = true →
    leading_token line ∉ ["c"; "sdd"; "L"; "F"; "T"; "D"] →
    sdd_file_wmc (W:=W) file weights = sdd_file_wmc file' weights.
Proof.
  intros W HW M HM weights file file' before after line st Hfile Hfile' Hbefore Hdet Hline.
  unfold sdd_file_wmc, sdd_run. rewrite Hfile, Hfile', !foldlM_app, Hbefore.
  cbn [mbind result_bind foldlM].
  rewrite sdd_line_unrecognized by done. step_bind.
  change {| wmc := wmc st; ln := ln st + 1; detected := true |}
    with (with_ln (ln st + 1) {| wmc := wmc st; ln := ln st; detected := true |}).
  rewrite sdd_lines_with_ln.
  replace {| wmc := wmc st; ln := ln st; detected := true |} with st
    by (destruct st; cbn in *; by subst).
  by destruct (foldlM (sdd_line weights) st after).
Qed.

Lemma sdd_unrecognized_line_has_no_effect_witness :
  let weights := Some ({[1 := 0.4%float]} : gmap Z float) in
  sdd_file_wmc (text ["sdd 3"; "L 1 0 1"; ""; "L 2 0 -1"; "D 0 1 2 1 2 2 1"]) weights
  = sdd_file_wmc (text ["sdd 3"; "L 1 0 1"; "L 2 0 -1"; "D 0 1 2 1 2 2 1"]) weights.
Proof.
  intros weights.
  apply (sdd_unrecognized_line_has_no_effect float _ (gmap Z float) _ weights
           (text ["sdd 3"; "L 1 0 1"; ""; "L 2 0 -1"; "D 0 1 2 1 2 2 1"])
           (text ["sdd 3"; "L 1 0 1"; "L 2 0 -1"; "D 0 1 2 1 2 2 1"])
           [String.append "sdd 3" (String "010" ""); String.append "L 1 0 1" (String "010" "")]
           [String.append "L 2 0 -1" (String "010" ""); "D 0 1 2 1 2 2 1"]
           (String "010" "")
           {| wmc := [None; Some 0.4%float; None]; ln := 1; detected := true |}).
  - reflexivity.
  - reflexivity.
  - reflexivity.
  - reflexivity.
  - vm_compute. intros Hin. apply list_elem_of_In in Hin. cbn in Hin. intuition discriminate.
Defined.

(** ** The slots of [nnf_file_wmc] *)

Lemma setitem_Ok_nonneg {A} (l l' : list A) (i : Z) (x : A) :
  0 ≤ i → Py.setitem l i x = Ok l' → l' = <[Z.to_nat i:=x]> l ∧ i < Z.of_nat (length l).
Proof.
  intros Hi. unfold Py.setitem, Py.index. cbn zeta.
  case_bool_decide as H1; [intros [= <-]; split; [done|lia]|].
  case_bool_decide as H2; [lia|done].
Qed.

Lemma setitem_out_of_range {A} (l : list A) (i : Z) (x : A) :
  Z.of_nat (length l) ≤ i → Py.setitem l i x = Raise IndexError.
Proof.
  intros Hi. unfold Py.setitem, Py.index. cbn zeta.
  rewrite !bool_decide_eq_false_2 by lia. done.
Qed.

Section nnf_slots.
Context {W : Type} `{!Weight W}.
Context {M : Type} `{!Lookup Z W M}.
Implicit Types (st : wmc_state W) (weights : option M) (l : list (option W)).

Lemma only_slot_refl k l : only_slot k l l.
Proof. done. Qed.

Lemma only_slot_trans k l1 l2 l3 : only_slot k l1 l2 → only_slot k l2 l3 → only_slot k l1 l3.
Proof.
  intros [Hl12 H12] [Hl23 H23]. split; [congruence|].
  intros j Hj. by rewrite H23, H12.
Qed.

Lemma setitem_only_slot l l' i x :
  0 ≤ i → Py.setitem l i x = Ok l' → only_slot (Z.to_nat i) l l'.
Proof.
  intros Hi Hset. apply setitem_Ok_nonneg in Hset as [-> _]; [|done]. split.
  - apply length_insert.
  - intros j Hj. by apply list_lookup_insert_ne.
Qed.

Lemma nnf_and_step_only_slot cols k l l' i :
  0 ≤ k → nnf_and_step cols k l i = Ok l' → only_slot (Z.to_nat k) l l'.
Proof.
  intros Hk. unfold nnf_and_step.
  repeat match goal with
  | |- (?r ≫= _) = _ → _ => destruct r as [?|?]; step_bind; [|done]
  end.
  by apply setitem_only_slot.
Qed.

Lemma nnf_or_step_only_slot cols k l l' i :
  0 ≤ k → nnf_or_step cols k l i = Ok l' → only_slot (Z.to_nat k) l l'.
Proof.
  intros Hk. unfold nnf_or_step.
  repeat match goal with
  | |- (?r ≫= _) = _ → _ => destruct r as [?|?]; step_bind; [|done]
  end.
  by apply setitem_only_slot.
Qed.

Lemma loop_only_slot (step : list (option W) → Z → result (list (option W))) k (idxs : list Z) :
  (∀ l l' i, step l i = Ok l' → only_slot k l l') →
  ∀ l l', foldlM step l idxs = Ok l' → only_slot k l l'.
Proof.
  intros Hstep. induction idxs as [|i idxs IH]; intros l l'; cbn [foldlM].
  - by intros [= <-].
  - destruct (step l i) as [l1|] eqn:E; step_bind; [|done].
    intros Hrest. eapply only_slot_trans; [by eapply Hstep|by apply IH].
Qed.

Lemma nnf_L_only_slot weights cols k l l' :
  0 ≤ k → nnf_L weights cols k l = Ok l' → only_slot (Z.to_nat k) l l'.
Proof.
  intros Hk. unfold nnf_L.
  repeat match goal with
  | |- (?r ≫= _) = _ → _ => destruct r as [?|?]; step_bind; [|done]
  end.
  by apply setitem_only_slot.
Qed.

Lemma nnf_A_only_slot cols k l l' :
  0 ≤ k → nnf_A cols k l = Ok l' → only_slot (Z.to_nat k) l l'.
Proof.
  intros Hk. unfold nnf_A.
  destruct (Py.setitem l k _) as [l1|] eqn:E; step_bind; [|done].
  destruct (Py.getitem cols 1) as [tok|]; step_bind; [|done].
  destruct (Py.int tok) as [n|]; step_bind; [|done].
  intros Hloop. eapply only_slot_trans; [by eapply setitem_only_slot|].
  eapply loop_only_slot; [|done]. intros ? ? ?. by apply nnf_and_step_only_slot.
Qed.

Lemma nnf_O_only_slot cols k l l' :
  0 ≤ k → nnf_O cols k l = Ok l' → only_slot (Z.to_nat k) l l'.
Proof.
  intros Hk. unfold nnf_O.
  destruct (Py.setitem l k _) as [l1|] eqn:E; step_bind; [|done].
  destruct (Py.getitem cols 2) as [tok|]; step_bind; [|done].
  destruct (Py.int tok) as [n|]; step_bind; [|done].
  intros Hloop. eapply only_slot_trans; [by eapply setitem_only_slot|].
  eapply loop_only_slot; [|done]. intros ? ? ?. by apply nnf_or_step_only_slot.
Qed.

(** What a line that is neither a comment nor a header does to the array:
    it advances the counter and touches no slot but its own. *)
Lemma nnf_line_body weights st st' line :
  0 ≤ ln st →
  leading_token line ≠ "c" → leading_token line ≠ "nnf" →
  nnf_line weights st line = Ok st' →
  ln st' = ln st + 1 ∧ only_slot (Z.to_nat (ln st)) (wmc st) (wmc st').
Proof.
  intros Hln Hc Hh. unfold nnf_line. cbn zeta. rewrite getitem_cols_0. step_bind.
  rewrite !decide_False by done.
  destruct (negb _); [done|].
  destruct (if decide (_ = "L") then _ else _) as [l1|] eqn:E1; step_bind; [|done].
  destruct (if decide (_ = "A") then _ else _) as [l2|] eqn:E2; step_bind; [|done].
  destruct (if decide (_ = "O") then _ else _) as [l3|] eqn:E3; step_bind; [|done].
  intros [= <-]. cbn [ln wmc]. split; [done|].
  assert (H1 : only_slot (Z.to_nat (ln st)) (wmc st) l1).
  { destruct (decide (_ = "L")); [by eapply nnf_L_only_slot|by injection E1 as <-]. }
  assert (H2 : only_slot (Z.to_nat (ln st)) l1 l2).
  { destruct (decide (_ = "A")); [by eapply nnf_A_only_slot|by injection E2 as <-]. }
  assert (H3 : only_slot (Z.to_nat (ln st)) l2 l3).
  { destruct (decide (_ = "O")); [by eapply nnf_O_only_slot|by injection E3 as <-]. }
  eapply only_slot_trans; [|exact H3]. eapply only_slot_trans; [exact H1|exact H2].
Qed.

Lemma nnf_line_later_slots weights st st' line :
  later_slots_unassigned st → nnf_line weights st line = Ok st' → later_slots_unassigned st'.
Proof.
  intros [Hln Hlater] Hline.
  destruct (decide (leading_token line = "c")) as [Hc|Hc].
  { rewrite nnf_line_comment in Hline by done. by injection Hline as <-. }
  destruct (decide (leading_token line = "nnf")) as [Hh|Hh].
  { revert Hline. unfold nnf_line. cbn zeta. rewrite getitem_cols_0, Hh. step_bind.
    decide_col.
    destruct (Py.getitem _ 1) as [tok|]; step_bind; [|done].
    destruct (Py.int tok) as [n|]; step_bind; [|done].
    intros [= <-]. split; [done|]. cbn [wmc ln]. intros j x _ Hx.
    unfold Py.repeat in Hx. by apply lookup_replicate in Hx as [-> _]. }
  destruct (nnf_line_body weights st st' line Hln Hc Hh Hline) as (Hln' & Hlen & Hsame).
  split; [lia|]. intros j x Hj Hx. rewrite Hln' in Hj.
  rewrite Hsame in Hx by lia. apply (Hlater j x); [lia|done].
Qed.

Lemma nnf_lines_later_slots weights lines st st' :
  later_slots_unassigned st →
  foldlM (nnf_line weights) st lines = Ok st' → later_slots_unassigned st'.
Proof.
  revert st. induction lines as [|line lines IH]; intros st Hst; cbn [foldlM].
  - by intros [= <-].
  - destruct (nnf_line weights st line) as [st1|] eqn:E; step_bind; [|done].
    apply IH. by eapply nnf_line_later_slots.
Qed.

Lemma later_slots_init : later_slots_unassigned (W:=W) wmc_init.
Proof. split; [done|]. intros j x _ Hx. done. Qed.

Lemma later_slot_None st c :
  later_slots_unassigned st → ln st ≤ c < Z.of_nat (length (wmc st)) →
  Py.getitem (wmc st) c = Ok None.
Proof.
  intros [Hln Hlater] Hc.
  destruct (lookup_lt_is_Some_2 (wmc st) (Z.to_nat c)) as [x Hx]; [lia|].
  assert (x = None) as -> by (apply (Hlater (Z.to_nat c)); [lia|done]).
  apply getitem_lookup; [lia|done].
Qed.

End nnf_slots.

(** X6.  [nnf_file_wmc] writes the slots of its array in file order: when
    the loop over the lines has ended without an exception, the line
    counter is not negative and every slot from the counter on still holds
    [None].  A line that is neither a comment nor a header advances the
    counter by one, keeps the length of the array and changes no slot but
    the one the counter names. *)
Theorem nnf_slots_written_in_order :
  ∀ (W : Type) (HW : Weight W) (M : Type) (HM : Lookup Z W M) (weights : option M),
    (∀ (nnf_file : string) (st : wmc_state W),
       nnf_run nnf_file weights = Ok st →
       0 ≤ ln st
       ∧ ∀ j x, (Z.to_nat (ln st) ≤ j)%nat → wmc st !! j = Some x → x = None)
    ∧ (∀ (st st' : wmc_state W) (line : string),
         0 ≤ ln st →
         leading_token line ∉ ["c"; "nnf"] →
         nnf_line weights st line = Ok st' →
         ln st' = ln st + 1
         ∧ length (wmc st') = length (wmc st)
         ∧ ∀ j, j ≠ Z.to_nat (ln st) → wmc st' !! j = wmc st !! j).
Proof.
  intros W HW M HM weights. split.
  - intros nnf_file st Hrun.
    apply (nnf_lines_later_slots weights _ _ _ later_slots_init Hrun).
  - intros st st' line Hln Hline Hstep.
    apply (nnf_line_body weights st st' line Hln); [| |done];
      intros Heq; apply Hline; rewrite Heq; apply list_elem_of_In; cbn; tauto.
Qed.

Lemma nnf_slots_written_in_order_witness :
  let weights := Some ({[1 := 0.3%float]} : gmap Z float) in
  let st := {| wmc := [Some 0.3%float; None; None; None]; ln := 2; detected := true |} in
  nnf_run (text ["nnf 4 0 1"; "L 1"; "."]) weights = Ok st
  ∧ (∀ j x, (2 ≤ j)%nat → wmc st !! j = Some x → x = None)
  ∧ ∀ st', nnf_line weights st "A 1 0" = Ok st' →
      ln st' = 3 ∧ length (wmc st') = 4%nat ∧ wmc st' !! 0%nat = Some (Some 0.3%float).
Proof.
  intros weights st.
  destruct (nnf_slots_written_in_order float _ (gmap Z float) _ weights) as [Hrun Hline].
  assert (E : nnf_run (text ["nnf 4 0 1"; "L 1"; "."]) weights = Ok st) by (vm_compute; reflexivity).
  split_and!.
  - exact E.
  - apply (Hrun _ st E).
  - intros st' Hst'.
    destruct (Hline st st' "A 1 0") as (H1 & H2 & H3).
    + simpl. lia.
    + vm_compute. intros Hin. apply list_elem_of_In in Hin. cbn in Hin. intuition discriminate.
    + exact Hst'.
    + split_and!; [exact H1|exact H2|]. by rewrite H3.
Defined.

(** X7.  In [nnf_file_wmc] a node can only refer to nodes of earlier
    lines: an [A] or [O] line whose first child index names a later slot of
    the array raises [TypeError], since that slot still holds [None] when it
    is multiplied or added. *)
Theorem nnf_forward_reference_raises :
  ∀ (W : Type) (HW : Weight W) (M : Type) (HM : Lookup Z W M) (weights : option M)
    (before : list string) (st : wmc_state W),
    foldlM (nnf_line weights) wmc_init before = Ok st →
    detected st = true →
    (∀ (line ktok ctok : string) (rest : list string) (k c : Z),
       Py.split " " (Py.strip line) = "A" :: ktok :: ctok :: rest →
       Py.int ktok = Ok k → 1 ≤ k →
       Py.int ctok = Ok c → ln st < c < Z.of_nat (length (wmc st)) →
       nnf_line weights st line = Raise TypeError)
    ∧ (∀ (line jtok ktok ctok : string) (rest : list string) (k c : Z),
         Py.split " " (Py.strip line) = "O" :: jtok :: ktok :: ctok :: rest →
         Py.int ktok = Ok k → 1 ≤ k →
         Py.int ctok = Ok c → ln st < c < Z.of_nat (length (wmc st)) →
         nnf_line weights st line = Raise TypeError).
Proof.
  intros W HW M HM weights before st Hbefore Hdet.
  pose proof (nnf_lines_later_slots weights _ _ _ later_slots_init Hbefore) as Hst.
  assert (Hln : 0 ≤ ln st) by apply Hst.
  assert (Hnone : ∀ c x, ln st < c < Z.of_nat (length (wmc st)) →
            Py.getitem (<[Z.to_nat (ln st):=x]> (wmc st)) c = Ok None).
  { intros c x Hc. apply getitem_lookup; [lia|].
    rewrite list_lookup_insert_ne by lia.
    destruct (lookup_lt_is_Some_2 (wmc st) (Z.to_nat c)) as [y Hy]; [lia|].
    destruct Hst as [_ Hlater].
    by assert (y = None) as <- by (apply (Hlater (Z.to_nat c)); [lia|done]). }
  split.
  - intros line ktok ctok rest k c Hcols Hk Hk1 Hc Hrange.
    unfold nnf_line. rewrite Hcols. cbn zeta.
    read_col. decide_col. rewrite Hdet. cbn [negb]. step_bind.
    unfold nnf_A. rewrite setitem_nonneg by lia. step_bind.
    read_col. rewrite Hk. step_bind. unfold Py.range.
    rewrite seqZ_cons by lia. cbn [foldlM].
    assert (E : nnf_and_step ("A" :: ktok :: ctok :: rest) (ln st)
                  (<[Z.to_nat (ln st):=Some w_one]> (wmc st)) 0 = Raise TypeError).
    { unfold nnf_and_step.
      rewrite (getitem_lookup _ (ln st) (Some w_one)); [|lia|].
      2:{ apply list_lookup_insert_eq. lia. }
      step_bind. read_col. rewrite Hc. step_bind.
      rewrite Hnone by done. reflexivity. }
    rewrite E. reflexivity.
  - intros line jtok ktok ctok rest k c Hcols Hk Hk1 Hc Hrange.
    unfold nnf_line. rewrite Hcols. cbn zeta.
    read_col. decide_col. rewrite Hdet. cbn [negb]. step_bind.
    unfold nnf_O. rewrite setitem_nonneg by lia. step_bind.
    read_col. rewrite Hk. step_bind. unfold Py.range.
    rewrite seqZ_cons by lia. cbn [foldlM].
    assert (E : nnf_or_step ("O" :: jtok :: ktok :: ctok :: rest) (ln st)
                  (<[Z.to_nat (ln st):=Some w_zero]> (wmc st)) 0 = Raise TypeError).
    { unfold nnf_or_step.
      rewrite (getitem_lookup _ (ln st) (Some w_zero)); [|lia|].
      2:{ apply list_lookup_insert_eq. lia. }
      step_bind. read_col. rewrite Hc. step_bind.
      rewrite Hnone by done. reflexivity. }
    rewrite E. reflexivity.
Qed.

Lemma nnf_forward_reference_raises_witness :
  let weights := Some ({[1 := 0.3%float]} : gmap Z float) in
  let st := {| wmc := [Some 0.3%float; None; None]; ln := 1; detected := true |} in
  nnf_line weights st "A 2 2 0" = Raise TypeError
  ∧ nnf_line weights st "O 1 1 2" = Raise TypeError.
Proof.
  intros weights st.
  assert (Hbefore : foldlM (nnf_line weights) wmc_init
            [String.append "nnf 3 2 1" (String "010" ""); String.append "L 1" (String "010" "")]
          = Ok st) by (vm_compute; reflexivity).
  destruct (nnf_forward_reference_raises float _ (gmap Z float) _ weights _ st Hbefore eq_refl)
    as [HA HO].
  split.
  - apply (HA "A 2 2 0" "2" "2" ["0"] 2 2); [reflexivity|reflexivity|lia|reflexivity|simpl; lia].
  - apply (HO "O 1 1 2" "1" "1" "2" [] 1 2); [reflexivity|reflexivity|lia|reflexivity|simpl; lia].
Defined.

(** X8.  The array of [nnf_file_wmc] never grows: once as many lines
    were counted as the array has slots, a further [A] or [O] line raises
    [IndexError], and so does a further [L] line (with a table and a literal
    that parses). *)
Theorem nnf_more_lines_than_slots_raises :
  ∀ (W : Type) (HW : Weight W) (M : Type) (HM : Lookup Z W M) (st : wmc_state W),
    detected st = true →
    Z.of_nat (length (wmc st)) ≤ ln st →
    (∀ (weights : option M) (line : string),
       leading_token line = "A" ∨ leading_token line = "O" →
       nnf_line weights st line = Raise IndexError)
    ∧ (∀ (weights : M) (line tok : string) (rest : list string) (lit : Z),
         Py.split " " (Py.strip line) = "L" :: tok :: rest →
         Py.int tok = Ok lit →
         nnf_line (Some weights) st line = Raise IndexError).
Proof.
  intros W HW M HM st Hdet Hlen. split.
  - intros weights line Htok.
    unfold nnf_line. cbn zeta. rewrite getitem_cols_0. step_bind.
    destruct Htok as [-> | ->]; decide_col; rewrite Hdet; cbn [negb]; step_bind.
    + unfold nnf_A. by rewrite setitem_out_of_range.
    + unfold nnf_O. by rewrite setitem_out_of_range.
  - intros weights line tok rest lit Hcols Htok.
    unfold nnf_line. rewrite Hcols. cbn zeta.
    read_col. decide_col. rewrite Hdet. cbn [negb].
    unfold nnf_L. read_col. rewrite Htok. step_bind.
    unfold literal_weight. destruct (weights !! lit); step_bind;
      by rewrite setitem_out_of_range.
Qed.

Lemma nnf_more_lines_than_slots_raises_witness :
  let weights := Some ({[1 := 0.3%float]} : gmap Z float) in
  let st := {| wmc := [Some 0.3%float]; ln := 1; detected := true |} in
  nnf_run (text ["nnf 1 0 1"; "L 1"]) weights = Ok st
  ∧ nnf_line weights st "A 1 0" = Raise IndexError
  ∧ nnf_line weights st "L -1" = Raise IndexError.
Proof.
  intros weights st.
  destruct (nnf_more_lines_than_slots_raises float _ (gmap Z float) _ st eq_refl) as [HAO HL].
  { simpl. lia. }
  split_and!.
  - vm_compute. reflexivity.
  - apply HAO. left. reflexivity.
  - apply (HL _ "L -1" "-1" [] (-1)); reflexivity.
Defined.

(** ** The table and the circuit *)

Lemma eval_ext {W} `{!Weight W} (lw1 lw2 : Z → W) (c : circuit) :
  (∀ lit, lit ∈ literals c → lw1 lit = lw2 lit) → eval lw1 c = eval lw2 c.
Proof.
  induction c as [lit| | |a IHa b IHb|a IHa b IHb]; intros Hlw; cbn [eval literals] in *.
  - apply Hlw. by apply elem_of_singleton.
  - done.
  - done.
  - rewrite IHa, IHb; [done| |]; intros lit Hlit; apply Hlw, elem_of_union; auto.
  - rewrite IHa, IHb; [done| |]; intros lit Hlit; apply Hlw, elem_of_union; auto.
Qed.

(** X9.  The result of an evaluator depends on the weight table only
    through the weights of the literals that occur in the circuit of the
    returned node, where an absent key counts as the weight 1.0: two tables
    that give these literals the same weights give the same result. *)
Theorem result_depends_on_occurring_literals :
  ∀ (W : Type) (HW : Weight W) (M1 : Type) (HM1 : Lookup Z W M1) (M2 : Type) (HM2 : Lookup Z W M2)
    (w1 : M1) (w2 : M2),
    (∀ (nnf_file : string) (c : circuit),
       nnf_circuit nnf_file = Ok (Some c) →
       (∀ lit, lit ∈ literals c → table_weight w1 lit = table_weight w2 lit) →
       nnf_file_wmc nnf_file (Some w1) = nnf_file_wmc nnf_file (Some w2))
    ∧ (∀ (sdd_file : string) (c : circuit),
         sdd_circuit sdd_file = Ok (Some c) →
         (∀ lit, lit ∈ literals c → table_weight w1 lit = table_weight w2 lit) →
         sdd_file_wmc sdd_file (Some w1) = sdd_file_wmc sdd_file (Some w2)).
Proof.
  intros W HW M1 HM1 M2 HM2 w1 w2. split.
  - intros nnf_file c Hc Hlits. rewrite !nnf_file_wmc_hom, Hc. cbn.
    by rewrite (eval_ext _ (table_weight w2)).
  - intros sdd_file c Hc Hlits. rewrite !sdd_file_wmc_hom, Hc. cbn.
    by rewrite (eval_ext _ (table_weight w2)).
Qed.

Lemma result_depends_on_occurring_literals_witness :
  let w1 : gmap Z float := {[1 := 0.3%float; 2 := 1.0%float; 7 := 0.5%float]} in
  let w2 : gmap Z float := {[1 := 0.3%float]} in
  nnf_file_wmc (text ["nnf 3 2 2"; "L 1"; "L 2"; "A 2 0 1"]) (Some w1)
  = nnf_file_wmc (text ["nnf 3 2 2"; "L 1"; "L 2"; "A 2 0 1"]) (Some w2)
  ∧ sdd_file_wmc (text ["sdd 3"; "L 1 0 1"; "L 2 1 2"; "D 0 2 1 1 2"]) (Some w1)
    = sdd_file_wmc (text ["sdd 3"; "L 1 0 1"; "L 2 1 2"; "D 0 2 1 1 2"]) (Some w2).
Proof.
  intros w1 w2.
  destruct (result_depends_on_occurring_literals float _ (gmap Z float) _ (gmap Z float) _ w1 w2)
    as [Hnnf Hsdd].
  assert (Hlits : ∀ lit, lit ∈ ({[1; 2]} : gset Z) → table_weight w1 lit = table_weight w2 lit).
  { intros lit Hlit. apply elem_of_union in Hlit as [Hlit|Hlit];
      apply elem_of_singleton in Hlit as ->; reflexivity. }
  split.
  - apply (Hnnf _ (CMul (CMul COne (CLit 1)) (CLit 2))); [vm_compute; reflexivity|].
    intros lit Hlit. apply Hlits. cbn [literals] in Hlit. set_solver.
  - apply (Hsdd _ (CAdd CZero (CMul (CLit 1) (CLit 2)))); [vm_compute; reflexivity|].
    intros lit Hlit. apply Hlits. cbn [literals] in Hlit. set_solver.
Defined.

(** X10.  Given a table of floats, whether an evaluator raises, which
    exception it raises and whether it returns [None] are decided by the
    file alone: the contents of the table play no part, since [*] and [+] on
    floats never raise. *)
Theorem failure_is_independent_of_table :
  ∀ (M1 : Type) (HM1 : Lookup Z float M1) (w1 : M1)
    (M2 : Type) (HM2 : Lookup Z float M2) (w2 : M2)
    (file : string),
    (∀ e, nnf_file_wmc file (Some w1) = Raise e ↔ nnf_file_wmc file (Some w2) = Raise e)
    ∧ (nnf_file_wmc file (Some w1) = Ok None ↔ nnf_file_wmc file (Some w2) = Ok None)
    ∧ (∀ e, sdd_file_wmc file (Some w1) = Raise e ↔ sdd_file_wmc file (Some w2) = Raise e)
    ∧ (sdd_file_wmc file (Some w1) = Ok None ↔ sdd_file_wmc file (Some w2) = Ok None).
Proof.
  intros M1 HM1 w1 M2 HM2 w2 file.
  rewrite !nnf_file_wmc_hom, !sdd_file_wmc_hom.
  destruct (nnf_circuit file) as [[c|]|e1], (sdd_circuit file) as [[c'|]|e2]; cbn;
    split_and!; try intros e; split; intros Heq; done || congruence.
Qed.

(** * More on the SDD renderer *)

(** ** The state only grows *)
Section state_order.
Context (litnamemap : LitNameMap) (show_id merge_leafs : bool).

Local Abbreviation visit node st :=
  (_sddnode_to_dot_int node litnamemap show_id merge_leafs st).
Local Abbreviation loop :=
  (elements_loop (λ child st, _sddnode_to_dot_int child litnamemap show_id merge_leafs st)
     litnamemap).

Lemma state_le_refl (st : render_state) : state_le st st.
Proof. split; [lia|done]. Qed.

Lemma state_le_trans (st1 st2 st3 : render_state) :
  state_le st1 st2 → state_le st2 st3 → state_le st1 st3.
Proof. intros [Hc12 Hv12] [Hc23 Hv23]. split; [lia|by etrans]. Qed.

Lemma visited_add_le (node : SddNode) (st : render_state) : state_le st (visited_add node st).
Proof. split; [cbn; lia|]. cbn. apply union_subseteq_r. Qed.

Lemma leaf_to_dot_le (node : SddNode) (st : render_state) :
  state_le st (leaf_to_dot node litnamemap show_id merge_leafs st).2.
Proof.
  unfold leaf_to_dot. destruct merge_leafs; cbn [snd].
  - apply visited_add_le.
  - split; [cbn; lia|done].
Qed.

Lemma loop_le (id : N) (elts : list (SddNode * SddNode)) :
  Forall (λ ps, (∀ st, state_le st (visit ps.1 st).2)
                ∧ (∀ st, state_le st (visit ps.2 st).2)) elts →
  ∀ idx st, state_le st (loop id elts idx [] st).2.
Proof.
  induction 1 as [|[prime sub] elts [Hp Hs] _ IH]; intros idx st; [apply state_le_refl|].
  rewrite loop_cons. cbn zeta. cbn [fst snd] in *.
  eapply state_le_trans; [apply Hp|]. eapply state_le_trans; [apply Hs|]. apply IH.
Qed.

Lemma visit_le (node : SddNode) (st : render_state) : state_le st (visit node st).2.
Proof.
  revert st. induction node as [id vt|id vt|id vt lit|id vt elts IH]
    using SddNode_nested_ind; intros st; rewrite visit_unfold;
    case_bool_decide; try apply state_le_refl; try apply leaf_to_dot_le.
  rewrite loop_acc. cbn [fst snd].
  eapply state_le_trans; [apply visited_add_le|]. by apply loop_le.
Qed.

Lemma loop_le_all (id : N) (elts : list (SddNode * SddNode)) (idx : N) (st : render_state) :
  state_le st (loop id elts idx [] st).2.
Proof. apply loop_le, Forall_forall. intros ps _. split; intros; apply visit_le. Qed.

End state_order.

(** ** Lines that are emitted as the state grows

    [μ st st'] is the number of lines satisfying [P] that a piece of the
    traversal leading from [st] to [st'] emits: a leaf and the statement of
    a decision node account for their own step, the statements of an
    element node for nothing. *)
Section tally.
Context (litnamemap : LitNameMap) (show_id merge_leafs : bool).
Context (P : string → Prop) `{!∀ line, Decision (P line)}.
Context (μ : render_state → render_state → nat).

Local Abbreviation visit node st :=
  (_sddnode_to_dot_int node litnamemap show_id merge_leafs st).
Local Abbreviation loop :=
  (elements_loop (λ child st, _sddnode_to_dot_int child litnamemap show_id merge_leafs st)
     litnamemap).

Hypothesis μ_refl : ∀ st, μ st st = 0%nat.
Hypothesis μ_trans : ∀ st1 st2 st3,
  state_le st1 st2 → state_le st2 st3 → μ st1 st3 = (μ st1 st2 + μ st2 st3)%nat.
Hypothesis P_leaf : ∀ node st,
  node_id node ∉ visited st →
  count_lines P (leaf_to_dot node litnamemap show_id merge_leafs st).1.2
  = μ st (leaf_to_dot node litnamemap show_id merge_leafs st).2.
Hypothesis P_decision : ∀ node st,
  node_id node ∉ visited st →
  count_lines P [decision_stmt litnamemap show_id node] = μ st (visited_add node st).
Hypothesis P_element : ∀ id idx c1 c2,
  count_lines P [element_stmt litnamemap id idx; element_edge id idx;
                 child_edge id idx c1; child_edge id idx c2] = 0%nat.

Lemma tally_loop (id : N) (elts : list (SddNode * SddNode)) :
  Forall (λ ps, (∀ st, count_lines P (visit ps.1 st).1.2 = μ st (visit ps.1 st).2)
                ∧ (∀ st, count_lines P (visit ps.2 st).1.2 = μ st (visit ps.2 st).2)) elts →
  ∀ idx st, count_lines P (loop id elts idx [] st).1 = μ st (loop id elts idx [] st).2.
Proof using μ_refl μ_trans P_element.
  induction 1 as [|[prime sub] elts [Hp Hs] _ IH]; intros idx st.
  - cbn. by rewrite μ_refl.
  - rewrite loop_cons. cbn zeta. cbn [fst snd] in *.
    rewrite !count_lines_app, P_element, Hp, Hs, IH.
    set (st1 := (visit prime st).2). set (st2 := (visit sub st1).2).
    set (st3 := (loop id elts (idx + 1)%N [] st2).2).
    assert (H01 : state_le st st1) by apply visit_le.
    assert (H12 : state_le st1 st2) by apply visit_le.
    assert (H23 : state_le st2 st3) by apply loop_le_all.
    rewrite (μ_trans st st1 st3), (μ_trans st1 st2 st3); eauto using state_le_trans.
Qed.

Lemma tally_visit (node : SddNode) (st : render_state) :
  count_lines P (visit node st).1.2 = μ st (visit node st).2.
Proof using μ_refl μ_trans P_leaf P_decision P_element.
  revert st. induction node as [id vt|id vt|id vt lit|id vt elts IH]
    using SddNode_nested_ind; intros st; rewrite visit_unfold;
    case_bool_decide as Hvis; try (cbn [fst snd]; by rewrite μ_refl);
    try (by apply P_leaf).
  rewrite loop_acc. cbn [fst snd].
  rewrite count_lines_app, (tally_loop id elts IH).
  rewrite (P_decision (DecisionNode id vt elts) st) by done.
  symmetry. apply μ_trans; [apply visited_add_le|apply loop_le_all].
Qed.

End tally.

(** ** First characters of the statements *)

Lemma starts_with_n_digit (s : string) :
  starts_with_digit s = true → starts_with "n" s = false.
Proof.
  destruct s as [|c s]; [done|]. cbn [starts_with_digit starts_with].
  intros Hc. destruct (Ascii.eqb_spec "n" c) as [<-|]; [discriminate Hc|done].
Qed.

Lemma starts_with_app (a b c : string) : starts_with (a +:+ b) (a +:+ c) = starts_with b c.
Proof.
  induction a as [|x a IH]; [done|].
  rewrite !string_app_cons. cbn [starts_with]. by rewrite Ascii.eqb_refl.
Qed.

Lemma starts_with_str_N_digit (k : N) (t s : string) :
  starts_with (Py.str_N k +:+ t) s = true → starts_with_digit s = true.
Proof.
  pose proof (str_N_starts_with_digit k t) as Hd.
  destruct (Py.str_N k +:+ t) as [|c r]; [done|].
  intros [s' ->]%starts_with_head. exact Hd.
Qed.

Lemma count_lines_nil (P : string → Prop) `{!∀ line, Decision (P line)} :
  count_lines P [] = 0%nat.
Proof. reflexivity. Qed.

Lemma count_lines_cons (P : string → Prop) `{!∀ line, Decision (P line)}
    (line : string) (s : list string) :
  count_lines P (line :: s)
  = ((if decide (P line) then 1 else 0) + count_lines P s)%nat.
Proof.
  unfold count_lines. destruct (decide (P line)).
  - by rewrite filter_cons_True.
  - by rewrite filter_cons_False.
Qed.

Lemma count_lines_le (P Q : string → Prop) `{!∀ line, Decision (P line)}
    `{!∀ line, Decision (Q line)} (s : list string) :
  (∀ line, P line → Q line) → (count_lines P s ≤ count_lines Q s)%nat.
Proof.
  intros HPQ. induction s as [|line s IH]; [done|].
  rewrite !count_lines_cons. destruct (decide (P line)) as [HP|HP].
  - rewrite decide_True by auto. lia.
  - destruct (decide (Q line)); lia.
Qed.

Lemma count_lines_pos (P : string → Prop) `{!∀ line, Decision (P line)} (s : list string) :
  (0 < count_lines P s)%nat → ∃ line, line ∈ s ∧ P line.
Proof.
  unfold count_lines. intros Hpos.
  destruct (filter P s) as [|line rest] eqn:E; [cbn in Hpos; lia|].
  assert (Hin : line ∈ filter P s) by (rewrite E; apply list_elem_of_here).
  apply list_elem_of_filter in Hin as [HP Hin]. eauto.
Qed.

Ltac name_norm :=
  unfold is_unmerged_leaf, is_unmerged_leaf_nr, declares,
    decision_stmt, element_stmt, element_edge, child_edge, leaf_stmt, ps_id;
  rewrite ?string_app_assoc;
  rewrite ?string_app_cons, ?string_app_nil.

Ltac name_norm_in H :=
  unfold is_unmerged_leaf, is_unmerged_leaf_nr, declares,
    decision_stmt, element_stmt, element_edge, child_edge, leaf_stmt, ps_id in H;
  rewrite ?string_app_assoc in H;
  rewrite ?string_app_cons, ?string_app_nil in H.

Section first_characters.
Context (litnamemap : LitNameMap) (show_id : bool).

Lemma unmerged_leaf_decision_stmt (x : SddNode) :
  ¬ is_unmerged_leaf (decision_stmt litnamemap show_id x).
Proof.
  unfold is_unmerged_leaf, decision_stmt.
  rewrite starts_with_n_digit; [done|apply str_N_starts_with_digit].
Qed.

Lemma unmerged_leaf_elements (id idx : N) (c1 c2 : string) :
  count_lines is_unmerged_leaf
    [element_stmt litnamemap id idx; element_edge id idx;
     child_edge id idx c1; child_edge id idx c2] = 0%nat.
Proof.
  rewrite !count_lines_cons, count_lines_nil.
  rewrite !decide_False; [done|..]; name_norm; try done.
  rewrite starts_with_n_digit; [done|apply str_N_starts_with_digit].
Qed.

Lemma unmerged_leaf_nr_weaken (k : N) (line : string) :
  is_unmerged_leaf_nr k line → is_unmerged_leaf line.
Proof.
  unfold is_unmerged_leaf_nr, is_unmerged_leaf. rewrite string_app_cons, string_app_nil.
  destruct line as [|c line]; cbn [starts_with]; [done|].
  intros [-> _]%andb_prop. done.
Qed.

Lemma unmerged_leaf_nr_elements (k id idx : N) (c1 c2 : string) :
  count_lines (is_unmerged_leaf_nr k)
    [element_stmt litnamemap id idx; element_edge id idx;
     child_edge id idx c1; child_edge id idx c2] = 0%nat.
Proof.
  pose proof (unmerged_leaf_elements id idx c1 c2) as H0.
  pose proof (count_lines_le (is_unmerged_leaf_nr k) is_unmerged_leaf
                [element_stmt litnamemap id idx; element_edge id idx;
                 child_edge id idx c1; child_edge id idx c2]
                (unmerged_leaf_nr_weaken k)) as Hle.
  lia.
Qed.

Lemma declares_decision_stmt (k : N) (x : SddNode) :
  declares (Py.str_N k) (decision_stmt litnamemap show_id x) ↔ k = node_id x.
Proof.
  split.
  - intros H. name_norm_in H. by apply str_N_starts_with in H as [-> _].
  - intros ->. unfold declares, decision_stmt. by rewrite starts_with_app.
Qed.

Lemma declares_elements (k id idx : N) (c1 c2 : string) :
  count_lines (declares (Py.str_N k))
    [element_stmt litnamemap id idx; element_edge id idx;
     child_edge id idx c1; child_edge id idx c2] = 0%nat.
Proof.
  rewrite !count_lines_cons, count_lines_nil.
  rewrite !decide_False; [done|..]; intros H; name_norm_in H.
  - by apply starts_with_str_N_digit in H.
  - by apply starts_with_str_N_digit in H.
  - apply str_N_starts_with in H as [_ H]; [|done..]. discriminate H.
  - by apply starts_with_str_N_digit in H.
Qed.

End first_characters.

(** ** The counter, the visited set and the lines of the output *)

Lemma sdd_to_dot_lines_unfold (root : SddNode) (litnamemap : LitNameMap)
    (show_id merge_leafs : bool) (g : N) :
  let r := _sddnode_to_dot_int root litnamemap show_id merge_leafs
             {| node_count := g; visited := ∅ |} in
  sdd_to_dot_lines root litnamemap show_id merge_leafs g
  = ("digraph sdd {" :: r.1.2 ++ ["}"], r.2).
Proof.
  cbn zeta. unfold sdd_to_dot_lines. cbn zeta.
  by destruct (_sddnode_to_dot_int _ _ _ _ _) as [[nodeid root_s] st].
Qed.

Lemma count_lines_frame (P : string → Prop) `{!∀ line, Decision (P line)} (s : list string) :
  ¬ P "digraph sdd {" → ¬ P "}" →
  count_lines P ("digraph sdd {" :: s ++ ["}"]) = count_lines P s.
Proof.
  intros Hopen Hclose.
  rewrite count_lines_cons, count_lines_app, count_lines_cons, count_lines_nil.
  rewrite !decide_False by done. lia.
Qed.

Section counter.
Context (litnamemap : LitNameMap) (show_id merge_leafs : bool).

Local Abbreviation visit node st :=
  (_sddnode_to_dot_int node litnamemap show_id merge_leafs st).

Lemma leaf_to_dot_lines (node : SddNode) (st : render_state) :
  (leaf_to_dot node litnamemap show_id merge_leafs st).1.2
  = [leaf_stmt (leaf_to_dot node litnamemap show_id merge_leafs st).1.1
       (_format_sddnode_label node None litnamemap) (extra_options node show_id)].
Proof. unfold leaf_to_dot. by destruct merge_leafs. Qed.

Lemma leaf_to_dot_id (node : SddNode) (st : render_state) :
  (leaf_to_dot node litnamemap show_id merge_leafs st).1.1
  = if merge_leafs then Py.str_N (node_id node)
    else "n" +:+ Py.str_N (node_count st) +:+ "_" +:+ Py.str_N (node_id node).
Proof. unfold leaf_to_dot. by destruct merge_leafs. Qed.

Lemma leaf_to_dot_node_count (node : SddNode) (st : render_state) :
  node_count (leaf_to_dot node litnamemap show_id merge_leafs st).2
  = if merge_leafs then node_count st else (node_count st + 1)%N.
Proof. unfold leaf_to_dot. by destruct merge_leafs. Qed.

(** Unmerged leaves are counted by [node_count]. *)
Lemma unmerged_leaves_visit (node : SddNode) (st : render_state) :
  count_lines is_unmerged_leaf (visit node st).1.2
  = N.to_nat (node_count (visit node st).2 - node_count st).
Proof.
  apply (tally_visit litnamemap show_id merge_leafs is_unmerged_leaf
           (λ st st' : render_state, N.to_nat (node_count st' - node_count st))).
  - intros st0. lia.
  - intros st1 st2 st3 [H12 _] [H23 _]. lia.
  - intros x st0 _.
    rewrite leaf_to_dot_lines, leaf_to_dot_id, leaf_to_dot_node_count.
    rewrite count_lines_cons, count_lines_nil.
    destruct merge_leafs.
    + rewrite decide_False; [lia|]. unfold is_unmerged_leaf, leaf_stmt.
      rewrite starts_with_n_digit; [done|apply str_N_starts_with_digit].
    + rewrite decide_True; [lia|]. unfold is_unmerged_leaf, leaf_stmt.
      rewrite !string_app_assoc, string_app_cons. reflexivity.
  - intros x st0 _. rewrite count_lines_cons, count_lines_nil.
    rewrite decide_False by apply unmerged_leaf_decision_stmt. cbn. lia.
  - apply unmerged_leaf_elements.
Qed.

(** With [merge_leafs] the counter is not touched. *)
Lemma merged_visit (node : SddNode) (st : render_state) :
  merge_leafs = true → node_count (visit node st).2 = node_count st.
Proof.
  intros Hmerge.
  assert (H0 : count_lines is_unmerged_leaf (visit node st).1.2 = 0%nat).
  { apply (tally_visit litnamemap show_id merge_leafs is_unmerged_leaf (λ _ _, 0%nat)).
    - done.
    - done.
    - intros x st0 _. rewrite leaf_to_dot_lines, leaf_to_dot_id, Hmerge.
      rewrite count_lines_cons, count_lines_nil.
      rewrite decide_False; [lia|]. unfold is_unmerged_leaf, leaf_stmt.
      rewrite starts_with_n_digit; [done|apply str_N_starts_with_digit].
    - intros x st0 _. rewrite count_lines_cons, count_lines_nil.
      rewrite decide_False by apply unmerged_leaf_decision_stmt. lia.
    - apply unmerged_leaf_elements. }
  pose proof (unmerged_leaves_visit node st) as Hcount.
  destruct (visit_le litnamemap show_id merge_leafs node st) as [Hle _]. lia.
Qed.

(** The [k]-th unmerged leaf is the one emitted when the counter is [k]. *)
Lemma unmerged_leaf_nr_visit (k : N) (node : SddNode) (st : render_state) :
  count_lines (is_unmerged_leaf_nr k) (visit node st).1.2
  = if decide (node_count st ≤ k < node_count (visit node st).2)%N then 1%nat else 0%nat.
Proof.
  pose (μ := λ st st' : render_state,
               if decide (node_count st ≤ k < node_count st')%N then 1%nat else 0%nat).
  change (count_lines (is_unmerged_leaf_nr k) (visit node st).1.2 = μ st (visit node st).2).
  apply (tally_visit litnamemap show_id merge_leafs (is_unmerged_leaf_nr k) μ); unfold μ.
  - intros st0. rewrite decide_False by lia. done.
  - intros st1 st2 st3 [H12 _] [H23 _]. repeat case_decide; lia.
  - intros x st0 _.
    rewrite leaf_to_dot_lines, leaf_to_dot_id, leaf_to_dot_node_count.
    rewrite count_lines_cons, count_lines_nil.
    destruct merge_leafs.
    + rewrite (decide_False (P:=(_ ≤ _ < _)%N)) by lia.
      rewrite decide_False; [lia|]. intros H%unmerged_leaf_nr_weaken. revert H.
      unfold is_unmerged_leaf, leaf_stmt.
      rewrite starts_with_n_digit; [done|apply str_N_starts_with_digit].
    + destruct (decide (k = node_count st0)) as [->|Hk].
      * rewrite (decide_True (P:=(_ ≤ _ < _)%N)) by lia.
        rewrite decide_True; [lia|].
        unfold is_unmerged_leaf_nr, leaf_stmt.
        rewrite !string_app_assoc, !string_app_cons, !string_app_nil.
        cbn [starts_with]. rewrite Ascii.eqb_refl. cbn [andb].
        by rewrite starts_with_app.
      * rewrite (decide_False (P:=(_ ≤ _ < _)%N)) by lia.
        rewrite decide_False; [lia|]. intros H. name_norm_in H.
        cbn [starts_with Ascii.eqb Bool.eqb andb] in H.
        by apply str_N_starts_with in H as [? _].
  - intros x st0 _. rewrite count_lines_cons, count_lines_nil. cbn [visited_add node_count].
    rewrite (decide_False (P:=(_ ≤ _ < _)%N)) by lia.
    rewrite decide_False; [lia|]. intros H%unmerged_leaf_nr_weaken.
    by apply unmerged_leaf_decision_stmt in H.
  - apply unmerged_leaf_nr_elements.
Qed.

(** A node statement under the SDD id [k] is emitted when [k] enters the
    visited set. *)
Lemma declares_visit (k : N) (node : SddNode) (st : render_state) :
  count_lines (declares (Py.str_N k)) (visit node st).1.2
  = newly_visited k (visited st) (visited (visit node st).2).
Proof.
  assert (Hnew : ∀ id V, id ∉ V →
            newly_visited k V ({[id]} ∪ V) = if decide (k = id) then 1%nat else 0%nat).
  { intros id V Hid. unfold newly_visited. destruct (decide (k = id)) as [->|Hne].
    - rewrite decide_True; [done|]. split; [|done].
      apply elem_of_union. left. by apply elem_of_singleton.
    - rewrite decide_False; [done|]. intros [Hin Hout].
      apply elem_of_union in Hin as [Hin|Hin]; [|done]. by apply elem_of_singleton in Hin. }
  apply (tally_visit litnamemap show_id merge_leafs (declares (Py.str_N k))
           (λ st st' : render_state, newly_visited k (visited st) (visited st'))).
  - intros st0. apply newly_visited_same.
  - intros st1 st2 st3 [_ H12] [_ H23]. symmetry. by apply newly_visited_trans.
  - intros x st0 Hvis.
    rewrite leaf_to_dot_lines, leaf_to_dot_id, leaf_to_dot_visited.
    rewrite count_lines_cons, count_lines_nil.
    destruct merge_leafs.
    + rewrite Hnew by done. destruct (decide (k = node_id x)) as [->|Hne].
      * rewrite decide_True; [lia|]. unfold declares, leaf_stmt. by rewrite starts_with_app.
      * rewrite decide_False; [lia|]. intros H. name_norm_in H.
        by apply str_N_starts_with in H as [? _].
    + rewrite newly_visited_same. rewrite decide_False; [lia|].
      intros H. name_norm_in H. by apply starts_with_str_N_digit in H.
  - intros x st0 Hvis. rewrite count_lines_cons, count_lines_nil.
    cbn [visited_add visited]. rewrite Hnew by done.
    destruct (decide (k = node_id x)) as [->|Hne].
    + rewrite decide_True by by apply declares_decision_stmt. lia.
    + rewrite decide_False; [lia|]. by rewrite declares_decision_stmt.
  - apply declares_elements.
Qed.

End counter.

(** X15.  The global counter [node_count] counts the leaves that were not
    merged: when [sdd_to_dot] returns, its value is the number of leaf
    statements named [n<k>_<id>] in the returned text (the lines that begin
    with the letter n).  With [merge_leafs] the counter stays 0.  More
    generally a traversal started with the counter at [g] ends at [g] plus
    that number. *)
Theorem node_count_counts_unmerged_leaves :
  ∀ (root : SddNode) (litnamemap : option LitNameMap) (show_id merge_leafs : bool) (g : N),
    let lines := (sdd_to_dot_lines root (default ∅ litnamemap) show_id merge_leafs 0).1 in
    (sdd_to_dot (Some root) litnamemap show_id merge_leafs g).1
    = Ok (Py.join (String "010" "") lines)
    ∧ (sdd_to_dot (Some root) litnamemap show_id merge_leafs g).2
      = N.of_nat (count_lines is_unmerged_leaf lines)
    ∧ (merge_leafs = true →
       (sdd_to_dot (Some root) litnamemap show_id merge_leafs g).2 = 0%N)
    ∧ ∀ (m : LitNameMap) (g' : N),
        node_count (sdd_to_dot_lines root m show_id merge_leafs g').2
        = (g' + N.of_nat (count_lines is_unmerged_leaf
                            (sdd_to_dot_lines root m show_id merge_leafs g').1))%N.
Proof.
  intros root litnamemap show_id merge_leafs g lines.
  assert (Hgen : ∀ (m : LitNameMap) (g' : N),
            node_count (sdd_to_dot_lines root m show_id merge_leafs g').2
            = (g' + N.of_nat (count_lines is_unmerged_leaf
                                (sdd_to_dot_lines root m show_id merge_leafs g').1))%N).
  { intros m g'. rewrite sdd_to_dot_lines_unfold. cbn zeta. cbn [fst snd].
    rewrite count_lines_frame by (intros H; discriminate H).
    rewrite unmerged_leaves_visit.
    destruct (visit_le m show_id merge_leafs root {| node_count := g'; visited := ∅ |})
      as [Hle _].
    cbn [node_count] in *. lia. }
  assert (Hsnd : (sdd_to_dot (Some root) litnamemap show_id merge_leafs g).2
                 = node_count (sdd_to_dot_lines root (default ∅ litnamemap) show_id
                                 merge_leafs 0).2).
  { unfold sdd_to_dot. cbn zeta. by destruct (sdd_to_dot_lines _ _ _ _ _). }
  split_and!.
  - unfold sdd_to_dot, lines. cbn zeta. by destruct (sdd_to_dot_lines _ _ _ _ _).
  - rewrite Hsnd, Hgen. unfold lines. lia.
  - intros Hmerge. rewrite Hsnd, sdd_to_dot_lines_unfold. cbn zeta. cbn [snd].
    by rewrite merged_visit.
  - exact Hgen.
Qed.

Lemma node_count_counts_unmerged_leaves_witness :
  let root :=
    DecisionNode 5 None [(LiteralNode 2 None 1, TrueNode 1 None);
                         (LiteralNode 3 None (-1), LiteralNode 2 None 1)] in
  (sdd_to_dot (Some root) None false true 9).2 = 0%N
  ∧ (sdd_to_dot (Some root) None false false 9).2 = 4%N.
Proof.
  intros root. split.
  - destruct (node_count_counts_unmerged_leaves root None false true 9) as (_ & _ & H0 & _).
    by apply H0.
  - destruct (node_count_counts_unmerged_leaves root None false false 9) as (_ & Hn & _).
    etrans; [exact Hn|]. vm_compute. reflexivity.
Defined.

(** X16.  The leaves that are not merged are numbered apart: in the lines
    of a traversal started with the counter at [g], exactly one line begins
    with [n<k>_] for every [k] from [g] up to the final value of the counter,
    and none for any other [k]. *)
Theorem unmerged_leaves_are_numbered_apart :
  ∀ (root : SddNode) (litnamemap : LitNameMap) (show_id merge_leafs : bool) (g k : N),
    count_lines (is_unmerged_leaf_nr k)
      (sdd_to_dot_lines root litnamemap show_id merge_leafs g).1
    = if decide (g ≤ k < node_count (sdd_to_dot_lines root litnamemap show_id merge_leafs g).2)%N
      then 1%nat else 0%nat.
Proof.
  intros root litnamemap show_id merge_leafs g k.
  rewrite sdd_to_dot_lines_unfold. cbn zeta. cbn [fst snd].
  rewrite count_lines_frame.
  - by rewrite unmerged_leaf_nr_visit.
  - intros H%unmerged_leaf_nr_weaken. discriminate H.
  - intros H%unmerged_leaf_nr_weaken. discriminate H.
Qed.

Lemma visited_ids_declared_once_aux (root : SddNode) (litnamemap : LitNameMap)
    (show_id merge_leafs : bool) (g k : N) :
  count_lines (declares (Py.str_N k)) (sdd_to_dot_lines root litnamemap show_id merge_leafs g).1
  = if decide (k ∈ visited (sdd_to_dot_lines root litnamemap show_id merge_leafs g).2)
    then 1%nat else 0%nat.
Proof.
  rewrite sdd_to_dot_lines_unfold. cbn zeta. cbn [fst snd].
  rewrite count_lines_frame.
  - rewrite declares_visit. unfold newly_visited. cbn [visited].
    repeat case_decide; try done.
    + tauto.
    + exfalso. match goal with H : ¬ (_ ∧ _) |- _ => apply H end.
      split; [done|apply not_elem_of_empty].
  - intros H. by apply starts_with_str_N_digit in H.
  - intros H. by apply starts_with_str_N_digit in H.
Qed.

(** X17.  A node statement under an SDD id is emitted exactly when the id
    enters the visited set: in the lines of a traversal the number of lines
    that begin with [<k> [] is 1 if [k] is in the visited set at the end and
    0 otherwise, so no id is declared twice.  The root is declared once when
    it is a decision node or leaves are merged. *)
Theorem visited_ids_declared_once :
  ∀ (root : SddNode) (litnamemap : LitNameMap) (show_id merge_leafs : bool) (g k : N),
    let r := sdd_to_dot_lines root litnamemap show_id merge_leafs g in
    count_lines (declares (Py.str_N k)) r.1
    = (if decide (k ∈ visited r.2) then 1%nat else 0%nat)
    ∧ (count_lines (declares (Py.str_N k)) r.1 ≤ 1)%nat
    ∧ (is_decision root = true ∨ merge_leafs = true →
       count_lines (declares (Py.str_N (node_id root))) r.1 = 1%nat).
Proof.
  intros root litnamemap show_id merge_leafs g k r.
  assert (Hcount : ∀ j, count_lines (declares (Py.str_N j)) r.1
                        = if decide (j ∈ visited r.2) then 1%nat else 0%nat)
    by (intros j; apply visited_ids_declared_once_aux).
  split_and!.
  - apply Hcount.
  - rewrite Hcount. case_decide; lia.
  - intros Hroot. rewrite Hcount. rewrite decide_True; [done|].
    unfold r. rewrite sdd_to_dot_lines_unfold. cbn zeta. cbn [snd].
    destruct (is_decision root) eqn:Hdec; [by apply visit_decision_visited|].
    destruct Hroot as [Hroot|Hmerge]; [done|].
    rewrite visit_unfold. rewrite bool_decide_eq_false_2 by apply not_elem_of_empty.
    destruct root; try done; rewrite leaf_to_dot_visited, Hmerge;
      apply elem_of_union; left; by apply elem_of_singleton.
Qed.

Lemma visited_ids_declared_once_witness :
  let shared := DecisionNode 4 None [(LiteralNode 2 None 1, TrueNode 1 None)] in
  let root := DecisionNode 5 None [(shared, TrueNode 1 None); (LiteralNode 3 None (-1), shared)] in
  count_lines (declares (Py.str_N 5)) (sdd_to_dot_lines root ∅ false false 0).1 = 1%nat
  ∧ count_lines (declares (Py.str_N 4)) (sdd_to_dot_lines root ∅ false false 0).1 = 1%nat.
Proof.
  intros shared root. split.
  - destruct (visited_ids_declared_once root ∅ false false 0 5) as (_ & _ & Hroot).
    apply Hroot. by left.
  - destruct (visited_ids_declared_once root ∅ false false 0 4) as (Hcount & _).
    etrans; [exact Hcount|]. vm_compute. reflexivity.
Defined.

(** ** The edges and the nodes they join *)

Lemma string_app_length (x y : string) :
  String.length (x +:+ y) = (String.length x + String.length y)%nat.
Proof.
  induction x as [|c x IH]; [done|].
  rewrite string_app_cons. cbn [String.length]. by rewrite IH.
Qed.

Lemma string_app_inv_tail (x y z : string) : x +:+ z = y +:+ z → x = y.
Proof.
  revert y. induction x as [|c x IH]; intros [|d y] H.
  - done.
  - apply (f_equal String.length) in H.
    rewrite string_app_nil, string_app_cons in H. cbn [String.length] in H.
    rewrite string_app_length in H. lia.
  - apply (f_equal String.length) in H.
    rewrite string_app_nil, string_app_cons in H. cbn [String.length] in H.
    rewrite string_app_length in H. lia.
  - rewrite !string_app_cons in H. injection H as -> H. f_equal. by apply IH.
Qed.

Lemma child_edge_inj (a b i j : N) (c c' : string) :
  child_edge a i c = child_edge b j c' → a = b ∧ i = j ∧ c = c'.
Proof.
  intros H. stmt_norm H. injection H as H.
  apply str_N_split in H as [-> H]; [|done..]. injection H as H.
  apply str_N_split in H as [-> H]; [|done..]. injection H as H.
  by apply string_app_inv_tail in H as ->.
Qed.

Lemma declares_element_stmt (litnamemap : LitNameMap) (a i : N) :
  declares (ps_id a i) (element_stmt litnamemap a i).
Proof. unfold declares, element_stmt. by rewrite starts_with_app. Qed.

Lemma declared_mono (s s' : list string) (name : string) :
  (∀ x, x ∈ s → x ∈ s') → declared s name → declared s' name.
Proof. intros Hsub (line & Hin & Hd). exists line. auto. Qed.

Lemma edge_ends_declared_mono (s s' : list string) (V V' : gset N) (line : string) :
  (∀ x, x ∈ s → x ∈ s') → V ⊆ V' →
  edge_ends_declared s V line → edge_ends_declared s' V' line.
Proof.
  intros Hs HV [Hc He]. split.
  - intros a i child Heq. destruct (Hc a i child Heq) as [Hps Hchild].
    split; [by eapply declared_mono|].
    destruct Hchild as [(k & -> & Hk)|Hd]; [left; eauto|right; by eapply declared_mono].
  - intros a i Heq. destruct (He a i Heq) as [Ha Hps].
    split; [auto|by eapply declared_mono].
Qed.

Lemma no_edge_ends_declared (s : list string) (V : gset N) (line : string) :
  (∀ a i c, line ≠ child_edge a i c) → (∀ a i, line ≠ element_edge a i) →
  edge_ends_declared s V line.
Proof.
  intros Hc He. split.
  - intros a i c Heq. by destruct (Hc a i c).
  - intros a i Heq. by destruct (He a i).
Qed.

Section edges.
Context (litnamemap : LitNameMap) (show_id merge_leafs : bool).

Local Abbreviation visit node st :=
  (_sddnode_to_dot_int node litnamemap show_id merge_leafs st).
Local Abbreviation loop :=
  (elements_loop (λ child st, _sddnode_to_dot_int child litnamemap show_id merge_leafs st)
     litnamemap).

(** The identifier a visit returns names a visited node, or a leaf that
    the visit itself declares. *)
Lemma returned_id (node : SddNode) (st : render_state) :
  (∃ k, (visit node st).1.1 = Py.str_N k ∧ k ∈ visited (visit node st).2)
  ∨ declared (visit node st).1.2 (visit node st).1.1.
Proof.
  destruct (decide (node_id node ∈ visited st)) as [Hvis|Hvis].
  { left. exists (node_id node). rewrite visit_unfold.
    by rewrite bool_decide_eq_true_2. }
  destruct (is_decision node) eqn:Hdec.
  { left. exists (node_id node). split; [|by apply visit_decision_visited].
    rewrite visit_unfold. rewrite bool_decide_eq_false_2 by done.
    destruct node as [| | |id vt elts]; try done.
    by destruct (elements_loop _ _ _ _ _ _ _). }
  right. rewrite visit_unfold. rewrite bool_decide_eq_false_2 by done.
  assert (Hleaf : declared (leaf_to_dot node litnamemap show_id merge_leafs st).1.2
                    (leaf_to_dot node litnamemap show_id merge_leafs st).1.1).
  { rewrite leaf_to_dot_lines. eexists. split; [apply list_elem_of_here|].
    unfold declares, leaf_stmt. by rewrite starts_with_app. }
  by destruct node.
Qed.

Lemma leaf_edges_ok (node : SddNode) (st : render_state) (V : gset N) :
  edges_ok (leaf_to_dot node litnamemap show_id merge_leafs st).1.2 V.
Proof.
  intros line Hline. rewrite leaf_to_dot_lines, leaf_to_dot_id in Hline.
  apply list_elem_of_singleton in Hline as ->.
  apply no_edge_ends_declared.
  - intros a i c H. destruct merge_leafs; stmt_norm H.
    + by_first_char H.
    + discriminate H.
  - intros a i H. destruct merge_leafs; stmt_norm H.
    + by apply str_N_split in H as [_ ?].
    + symmetry in H. by_first_char H.
Qed.

Lemma loop_edges_ok (id : N) (elts : list (SddNode * SddNode)) :
  Forall (λ ps, (∀ st, edges_ok (visit ps.1 st).1.2 (visited (visit ps.1 st).2))
                ∧ (∀ st, edges_ok (visit ps.2 st).1.2 (visited (visit ps.2 st).2))) elts →
  ∀ idx st, id ∈ visited st →
    edges_ok (loop id elts idx [] st).1 (visited (loop id elts idx [] st).2).
Proof.
  induction 1 as [|[prime sub] elts [Hp Hs] _ IH]; intros idx st Hid.
  { intros line Hline. by apply elem_of_nil in Hline. }
  rewrite loop_cons. cbn zeta. cbn [fst snd] in *.
  set (r1 := visit prime st). set (r2 := visit sub r1.2).
  set (r3 := loop id elts (idx + 1)%N [] r2.2).
  set (E := [element_stmt litnamemap id idx; element_edge id idx;
             child_edge id idx r1.1.1; child_edge id idx r2.1.1]).
  set (all := E ++ r1.1.2 ++ r2.1.2 ++ r3.1).
  assert (H01 : visited st ⊆ visited r1.2) by apply visit_mono.
  assert (H12 : visited r1.2 ⊆ visited r2.2) by apply visit_mono.
  assert (H23 : visited r2.2 ⊆ visited r3.2) by apply loop_le_all.
  assert (HE : ∀ x, x ∈ E → x ∈ all) by (intros x Hx; apply elem_of_app; auto).
  assert (H1 : ∀ x, x ∈ r1.1.2 → x ∈ all).
  { intros x Hx. apply elem_of_app. right. apply elem_of_app. auto. }
  assert (H2 : ∀ x, x ∈ r2.1.2 → x ∈ all).
  { intros x Hx. apply elem_of_app. right. apply elem_of_app. right.
    apply elem_of_app. auto. }
  assert (H3 : ∀ x, x ∈ r3.1 → x ∈ all).
  { intros x Hx. apply elem_of_app. right. apply elem_of_app. right.
    apply elem_of_app. auto. }
  assert (Hps : declared all (ps_id id idx)).
  { exists (element_stmt litnamemap id idx).
    split; [apply HE, list_elem_of_here|apply declares_element_stmt]. }
  assert (Hchild : ∀ node st0,
            visited (visit node st0).2 ⊆ visited r3.2 →
            (∀ x, x ∈ (visit node st0).1.2 → x ∈ all) →
            (∃ k, (visit node st0).1.1 = Py.str_N k ∧ k ∈ visited r3.2)
            ∨ declared all (visit node st0).1.1).
  { intros node st0 HV Hsub. destruct (returned_id node st0) as [(k & Hk & Hin)|Hd].
    - left. exists k. auto.
    - right. by eapply declared_mono. }
  intros line Hline. unfold all in Hline.
  apply elem_of_app in Hline as [Hline|Hline];
    [|apply elem_of_app in Hline as [Hline|Hline];
      [|apply elem_of_app in Hline as [Hline|Hline]]].
  - unfold E in Hline. rewrite !elem_of_cons, elem_of_nil in Hline.
    destruct Hline as [->|[->|[->|[->|[]]]]].
    + apply no_edge_ends_declared; intros; [apply element_stmt_ne_child_edge|
        apply element_stmt_ne_element_edge].
    + split.
      * intros a i c Heq. by apply element_edge_ne_child_edge in Heq.
      * intros a i Heq. apply element_edge_inj in Heq as [<- <-].
        split; [|done]. apply H23, H12, H01, Hid.
    + split.
      * intros a i c Heq. apply child_edge_inj in Heq as (<- & <- & <-).
        split; [done|]. apply (Hchild prime st); [|done]. by etrans.
      * intros a i Heq. symmetry in Heq. by apply element_edge_ne_child_edge in Heq.
    + split.
      * intros a i c Heq. apply child_edge_inj in Heq as (<- & <- & <-).
        split; [done|]. by apply (Hchild sub r1.2).
      * intros a i Heq. symmetry in Heq. by apply element_edge_ne_child_edge in Heq.
  - apply (edge_ends_declared_mono r1.1.2 all (visited r1.2)); [done|by etrans|].
    by apply Hp.
  - apply (edge_ends_declared_mono r2.1.2 all (visited r2.2)); [done|done|].
    by apply Hs.
  - apply (edge_ends_declared_mono r3.1 all (visited r3.2)); [done|done|].
    apply IH; [|done]. apply H12, H01, Hid.
Qed.

Lemma visit_edges_ok (node : SddNode) (st : render_state) :
  edges_ok (visit node st).1.2 (visited (visit node st).2).
Proof.
  revert st. induction node as [id vt|id vt|id vt lit|id vt elts IH]
    using SddNode_nested_ind; intros st; rewrite visit_unfold;
    case_bool_decide as Hvis;
    try (intros line Hline; by apply elem_of_nil in Hline);
    try apply leaf_edges_ok.
  rewrite loop_acc. cbn [fst snd].
  set (st1 := visited_add (DecisionNode id vt elts) st).
  assert (Hid : id ∈ visited st1).
  { cbn. apply elem_of_union. left. by apply elem_of_singleton. }
  pose proof (loop_edges_ok id elts IH 0%N st1 Hid) as Hloop.
  intros line Hline. apply elem_of_cons in Hline as [->|Hline].
  - apply no_edge_ends_declared; intros;
      [apply decision_stmt_ne_child_edge|apply decision_stmt_ne_element_edge].
  - eapply edge_ends_declared_mono; [| |by apply Hloop]; [|done].
    intros x Hx. by apply list_elem_of_further.
Qed.

End edges.

(** X18.  The text [sdd_to_dot] builds declares every node its edges
    use: for each edge [ps_<id>_<idx> -> <child>;] among the lines, some
    line declares the element node [ps_<id>_<idx>] and some line declares
    [<child>] (each begins with the identifier and an opening bracket); for
    each edge [<id> -> ps_<id>_<idx> [arrowhead=none];] some line declares
    the decision node [<id>] and some line the element node.  No
    assumption on the ids of the nodes is needed. *)
Theorem edges_join_declared_nodes :
  ∀ (root : SddNode) (litnamemap : LitNameMap) (show_id merge_leafs : bool) (g : N),
    let s := (sdd_to_dot_lines root litnamemap show_id merge_leafs g).1 in
    (∀ a i child, child_edge a i child ∈ s → declared s (ps_id a i) ∧ declared s child)
    ∧ (∀ a i, element_edge a i ∈ s → declared s (Py.str_N a) ∧ declared s (ps_id a i)).
Proof.
  intros root litnamemap show_id merge_leafs g s.
  pose proof (visit_edges_ok litnamemap show_id merge_leafs root
                {| node_count := g; visited := ∅ |}) as Hok.
  pose proof (visited_ids_declared_once_aux root litnamemap show_id merge_leafs g) as Hdecl.
  unfold s in *. clear s.
  rewrite sdd_to_dot_lines_unfold in *. cbn zeta in *. cbn [fst snd] in *.
  set (r := _sddnode_to_dot_int root litnamemap show_id merge_leafs
              {| node_count := g; visited := ∅ |}) in *.
  set (s := "digraph sdd {" :: r.1.2 ++ ["}"]).
  assert (Hsub : ∀ x, x ∈ r.1.2 → x ∈ s).
  { intros x Hx. apply list_elem_of_further, elem_of_app. by left. }
  assert (Hinv : ∀ line, line ∈ s →
            line = "digraph sdd {" ∨ line = "}" ∨ line ∈ r.1.2).
  { intros line Hline. apply elem_of_cons in Hline as [->|Hline]; [by left|].
    apply elem_of_app in Hline as [Hline|Hline]; [auto|].
    apply list_elem_of_singleton in Hline. auto. }
  assert (Hvisited : ∀ k, k ∈ visited r.2 → declared s (Py.str_N k)).
  { intros k Hk. specialize (Hdecl k). rewrite decide_True in Hdecl by done.
    destruct (count_lines_pos (declares (Py.str_N k)) s) as (line & Hin & Hline);
      [unfold s; rewrite Hdecl; lia|]. by exists line. }
  split.
  - intros a i child Hin.
    apply Hinv in Hin as [Heq|[Heq|Hin]]; [discriminate Heq|discriminate Heq|].
    destruct (Hok _ Hin) as [Hc _]. destruct (Hc a i child eq_refl) as [Hps Hchild].
    split; [by eapply declared_mono|].
    destruct Hchild as [(k & -> & Hk)|Hd]; [by apply Hvisited|by eapply declared_mono].
  - intros a i Hin.
    apply Hinv in Hin as [Heq|[Heq|Hin]].
    { symmetry in Heq. stmt_norm Heq. by_first_char Heq. }
    { symmetry in Heq. stmt_norm Heq. by_first_char Heq. }
    destruct (Hok _ Hin) as [_ He]. destruct (He a i eq_refl) as [Ha Hps].
    split; [by apply Hvisited|by eapply declared_mono].
Qed.

Lemma edges_join_declared_nodes_witness :
  let shared := DecisionNode 4 None [(LiteralNode 2 None 1, TrueNode 1 None)] in
  let root := DecisionNode 5 None [(shared, TrueNode 1 None); (LiteralNode 3 None (-1), shared)] in
  let s := (sdd_to_dot_lines root ∅ false false 0).1 in
  declared s (ps_id 5 1) ∧ declared s (Py.str_N 4).
Proof.
  intros shared root s.
  apply (proj1 (edges_join_declared_nodes root ∅ false false 0) 5%N 1%N (Py.str_N 4)).
  vm_compute. repeat constructor.
Defined.

(** * The vtree renderer *)

Example vtree_to_dot_ex :
  let vtree :=
    VtreeNode 1 0 (Some (VtreeNode 0 1 None None))
      (Some (VtreeNode 3 0 (Some (VtreeNode 2 2 None None)) (Some (VtreeNode 4 3 None None)))) in
  vtree_to_dot vtree (Some {[inl 2 := "b"]}) true
  = text ["digraph vtree {";
          "1 [shape=" +:+ dq +:+ "point" +:+ dq +:+ ",xlabel=" +:+ dq +:+ "1" +:+ dq +:+ "];";
          "1 -> 0 [arrowhead=none];";
          "0 [label=" +:+ dq +:+ "1" +:+ dq +:+ ",shape=" +:+ dq +:+ "box" +:+ dq
            +:+ ",xlabel=" +:+ dq +:+ "0" +:+ dq +:+ "];";
          "1 -> 3 [arrowhead=none];";
          "3 [shape=" +:+ dq +:+ "point" +:+ dq +:+ ",xlabel=" +:+ dq +:+ "3" +:+ dq +:+ "];";
          "3 -> 2 [arrowhead=none];";
          "2 [label=" +:+ dq +:+ "b" +:+ dq +:+ ",shape=" +:+ dq +:+ "box" +:+ dq
            +:+ ",xlabel=" +:+ dq +:+ "2" +:+ dq +:+ "];";
          "3 -> 4 [arrowhead=none];";
          "4 [label=" +:+ dq +:+ "3" +:+ dq +:+ ",shape=" +:+ dq +:+ "box" +:+ dq
            +:+ ",xlabel=" +:+ dq +:+ "4" +:+ dq +:+ "];";
          "}"].
Proof. vm_compute. reflexivity. Qed.

Lemma Vtree_nested_ind (P : Vtree → Prop) :
  (∀ position var ol or,
     from_option P True ol → from_option P True or →
     P (VtreeNode position var ol or)) →
  ∀ vtree, P vtree.
Proof.
  intros Hnode. fix IH 1. intros [position var ol or]. apply Hnode.
  - destruct ol as [l|]; [apply IH|exact I].
  - destruct or as [r|]; [apply IH|exact I].
Qed.

Lemma vtree_unfold (vtree : Vtree) (litnamemap : option LitNameMap) (show_id : bool) :
  _vtree_to_dot_int vtree litnamemap show_id
  = vtree_stmt vtree litnamemap show_id
    :: match vtree_left vtree with
       | Some l => vtree_edge (vtree_position vtree) (vtree_position l)
                   :: _vtree_to_dot_int l litnamemap show_id
       | None => []
       end
    ++ match vtree_right vtree with
       | Some r => vtree_edge (vtree_position vtree) (vtree_position r)
                   :: _vtree_to_dot_int r litnamemap show_id
       | None => []
       end.
Proof.
  destruct vtree as [position var [l|] [r|]]; cbn [_vtree_to_dot_int vtree_left vtree_right
    vtree_position app]; rewrite <- ?app_assoc, ?app_nil_r; reflexivity.
Qed.

Lemma vtree_nodes_unfold (vtree : Vtree) :
  vtree_nodes vtree
  = vtree :: match vtree_left vtree with Some l => vtree_nodes l | None => [] end
          ++ match vtree_right vtree with Some r => vtree_nodes r | None => [] end.
Proof. destruct vtree; reflexivity. Qed.

(** X11.  [_vtree_to_dot_int] emits one statement for every node of the
    vtree and one for every edge: for a vtree of [n] nodes the list has
    [2n - 1] statements, and the text of [vtree_to_dot] has two lines
    more. *)
Theorem vtree_statement_count :
  ∀ (vtree : Vtree) (litnamemap : option LitNameMap) (show_id : bool),
    length (_vtree_to_dot_int vtree litnamemap show_id)
    = (2 * length (vtree_nodes vtree) - 1)%nat
    ∧ vtree_to_dot vtree litnamemap show_id
      = Py.join (String "010" "")
          ("digraph vtree {" :: _vtree_to_dot_int vtree litnamemap show_id ++ ["}"]).
Proof.
  intros vtree litnamemap show_id. split; [|reflexivity].
  induction vtree as [position var ol or IHl IHr] using Vtree_nested_ind.
  rewrite vtree_unfold, vtree_nodes_unfold. cbn [vtree_left vtree_right length].
  rewrite !length_app.
  assert (Hpos : ∀ v, (1 ≤ length (vtree_nodes v))%nat) by (intros []; cbn; lia).
  destruct ol as [l|], or as [r|]; cbn [length from_option] in *;
    rewrite ?IHl, ?IHr; try pose proof (Hpos l); try pose proof (Hpos r); lia.
Qed.

Lemma vtree_to_dot_int_ext (vtree : Vtree) (m1 m2 : option LitNameMap) (show_id : bool) :
  (∀ x, x ∈ vtree_nodes vtree → vtree_is_leaf x = true →
        vtree_name m1 (vtree_var x) = vtree_name m2 (vtree_var x)) →
  _vtree_to_dot_int vtree m1 show_id = _vtree_to_dot_int vtree m2 show_id.
Proof.
  induction vtree as [position var ol or IHl IHr] using Vtree_nested_ind.
  intros Hagree. rewrite !vtree_unfold, vtree_nodes_unfold in *.
  cbn [vtree_left vtree_right vtree_position] in *.
  assert (Hstmt : vtree_stmt (VtreeNode position var ol or) m1 show_id
                  = vtree_stmt (VtreeNode position var ol or) m2 show_id).
  { unfold vtree_stmt. cbn [vtree_left vtree_right vtree_position vtree_var].
    destruct ol as [l|], or as [r|]; try reflexivity.
    pose proof (Hagree (VtreeNode position var None None) (list_elem_of_here _ _) eq_refl) as E.
    cbn [vtree_var] in E. by rewrite E. }
  rewrite Hstmt. f_equal. f_equal.
  - destruct ol as [l|]; [|done]. cbn [from_option] in IHl. rewrite IHl; [done|].
    intros x Hx. apply Hagree. apply list_elem_of_further, elem_of_app. by left.
  - destruct or as [r|]; [|done]. cbn [from_option] in IHr. rewrite IHr; [done|].
    intros x Hx. apply Hagree. apply list_elem_of_further, elem_of_app. by right.
Qed.

(** X12.  [vtree_to_dot] looks up the label map at the variables of the
    leaves only, under their integer keys: two maps that agree there give
    the same text.  In particular string keys are never read, and omitting
    the map ([litnamemap=None]) gives the same text as the empty map: every
    leaf is then labelled with the decimal spelling of its variable. *)
Theorem vtree_labels_from_leaf_variables :
  ∀ (vtree : Vtree) (show_id : bool),
    (∀ m1 m2 : LitNameMap,
       (∀ x, x ∈ vtree_nodes vtree → vtree_is_leaf x = true →
             m1 !! inl (vtree_var x) = m2 !! inl (vtree_var x)) →
       vtree_to_dot vtree (Some m1) show_id = vtree_to_dot vtree (Some m2) show_id)
    ∧ vtree_to_dot vtree None show_id = vtree_to_dot vtree (Some ∅) show_id
    ∧ (∀ x, x ∈ vtree_nodes vtree → vtree_is_leaf x = true →
            vtree_stmt x None show_id
            = vtree_leaf_stmt (vtree_position x) (Py.str_Z (vtree_var x))
                (vtree_extra_options (vtree_position x) show_id)).
Proof.
  intros vtree show_id. split_and!.
  - intros m1 m2 Hagree. unfold vtree_to_dot. cbn zeta.
    rewrite (vtree_to_dot_int_ext vtree (Some m1) (Some m2)); [done|].
    intros x Hx Hleaf. unfold vtree_name, get_name. by rewrite Hagree.
  - unfold vtree_to_dot. cbn zeta.
    rewrite (vtree_to_dot_int_ext vtree None (Some ∅)); [done|].
    intros x _ _. unfold vtree_name, get_name. by rewrite lookup_empty.
  - intros x _ Hleaf. unfold vtree_stmt, vtree_is_leaf in *.
    by destruct (vtree_left x), (vtree_right x).
Qed.

Lemma vtree_labels_from_leaf_variables_witness :
  let vtree := VtreeNode 1 0 (Some (VtreeNode 0 1 None None)) (Some (VtreeNode 2 2 None None)) in
  vtree_to_dot vtree (Some {[inl 1 := "a"; inl 0 := "root"; inr "1" := "x"]}) false
  = vtree_to_dot vtree (Some {[inl 1 := "a"]}) false
  ∧ vtree_stmt (VtreeNode 2 2 None None) None false
    = vtree_leaf_stmt 2 "2" "".
Proof.
  intros vtree.
  destruct (vtree_labels_from_leaf_variables vtree false) as (Hagree & _ & Hleaf).
  split.
  - apply Hagree. intros x Hx Hx_leaf.
    cbn in Hx. rewrite !elem_of_cons, elem_of_nil in Hx.
    destruct Hx as [->|[->|[->|[]]]]; try discriminate Hx_leaf; vm_compute; reflexivity.
  - apply (Hleaf (VtreeNode 2 2 None None)); [|reflexivity].
    cbn. rewrite !elem_of_cons. auto.
Defined.

(** ** The statements of a vtree *)

Lemma vtree_children_spec (vtree child : Vtree) :
  child ∈ vtree_children vtree ↔ vtree_left vtree = Some child ∨ vtree_right vtree = Some child.
Proof.
  unfold vtree_children. rewrite elem_of_app.
  destruct (vtree_left vtree) as [l|], (vtree_right vtree) as [r|];
    rewrite ?list_elem_of_singleton, ?elem_of_nil;
    (split; [intros [H|H]; subst; auto; contradiction|intros [H|H]; simplify_eq; auto]).
Qed.

Lemma vtree_nodes_self (vtree : Vtree) : vtree ∈ vtree_nodes vtree.
Proof. destruct vtree. apply list_elem_of_here. Qed.

Lemma vtree_nodes_child (vtree child x : Vtree) :
  child ∈ vtree_children vtree → x ∈ vtree_nodes child → x ∈ vtree_nodes vtree.
Proof.
  intros Hchild Hx. rewrite vtree_nodes_unfold. apply list_elem_of_further.
  apply vtree_children_spec in Hchild as [Hc|Hc]; rewrite Hc; apply elem_of_app; auto.
Qed.

Lemma vtree_nodes_trans (vtree y x : Vtree) :
  y ∈ vtree_nodes vtree → x ∈ vtree_nodes y → x ∈ vtree_nodes vtree.
Proof.
  induction vtree as [position var ol or IHl IHr] using Vtree_nested_ind.
  intros Hy Hx. rewrite vtree_nodes_unfold in Hy.
  apply elem_of_cons in Hy as [->|Hy]; [done|].
  cbn [vtree_left vtree_right] in Hy. apply elem_of_app in Hy as [Hy|Hy].
  - destruct ol as [l|]; [|by apply elem_of_nil in Hy]. cbn [from_option] in IHl.
    apply (vtree_nodes_child _ l); [by apply vtree_children_spec; left|by apply IHl].
  - destruct or as [r|]; [|by apply elem_of_nil in Hy]. cbn [from_option] in IHr.
    apply (vtree_nodes_child _ r); [by apply vtree_children_spec; right|by apply IHr].
Qed.

(** The lines of the output, as a set: the statement of every node, and
    an edge for every pair of a node and one of its children. *)
Lemma vtree_lines (vtree : Vtree) (litnamemap : option LitNameMap) (show_id : bool)
    (line : string) :
  line ∈ _vtree_to_dot_int vtree litnamemap show_id
  ↔ (∃ x, x ∈ vtree_nodes vtree ∧ line = vtree_stmt x litnamemap show_id)
    ∨ (∃ parent child, parent ∈ vtree_nodes vtree ∧ child ∈ vtree_children parent
                       ∧ line = vtree_edge (vtree_position parent) (vtree_position child)).
Proof.
  induction vtree as [position var ol or IHl IHr] using Vtree_nested_ind.
  set (vtree := VtreeNode position var ol or).
  assert (Hsub : ∀ child, child ∈ vtree_children vtree →
            (line ∈ _vtree_to_dot_int child litnamemap show_id
             ↔ (∃ x, x ∈ vtree_nodes child ∧ line = vtree_stmt x litnamemap show_id)
               ∨ (∃ parent c, parent ∈ vtree_nodes child ∧ c ∈ vtree_children parent
                              ∧ line = vtree_edge (vtree_position parent) (vtree_position c)))).
  { intros child Hchild.
    apply vtree_children_spec in Hchild as [Hc|Hc]; cbn in Hc; subst; assumption. }
  clear IHl IHr.
  assert (Hout : line ∈ _vtree_to_dot_int vtree litnamemap show_id
            ↔ line = vtree_stmt vtree litnamemap show_id
              ∨ ∃ child, child ∈ vtree_children vtree
                  ∧ (line = vtree_edge (vtree_position vtree) (vtree_position child)
                     ∨ line ∈ _vtree_to_dot_int child litnamemap show_id)).
  { rewrite vtree_unfold, elem_of_cons, elem_of_app. cbn [vtree_left vtree_right vtree].
    split.
    - intros [Hline|[Hline|Hline]]; [by left| |]; right.
      + destruct ol as [l|]; [|by apply elem_of_nil in Hline]. exists l.
        split; [by apply vtree_children_spec; left|]. by apply elem_of_cons in Hline.
      + destruct or as [r|]; [|by apply elem_of_nil in Hline]. exists r.
        split; [by apply vtree_children_spec; right|]. by apply elem_of_cons in Hline.
    - intros [Hline|(child & Hchild & Hline)]; [by left|]. right.
      apply vtree_children_spec in Hchild as [Hchild|Hchild]; cbn in Hchild; subst;
        [left|right]; by apply elem_of_cons. }
  rewrite Hout. split.
  - intros [->|(child & Hchild & [->|Hline])].
    + left. exists vtree. split; [apply vtree_nodes_self|done].
    + right. exists vtree, child. split_and!; [apply vtree_nodes_self|done|done].
    + apply (Hsub child Hchild) in Hline as [(x & Hx & ->)|(parent & c & Hp & Hc & ->)].
      * left. exists x. split; [by eapply vtree_nodes_child|done].
      * right. exists parent, c. split_and!; [by eapply vtree_nodes_child|done|done].
  - intros [(x & Hx & ->)|(parent & c & Hp & Hc & ->)].
    + rewrite vtree_nodes_unfold in Hx. apply elem_of_cons in Hx as [->|Hx]; [by left|].
      right. cbn [vtree_left vtree_right vtree] in Hx. apply elem_of_app in Hx as [Hx|Hx].
      * destruct ol as [l|]; [|by apply elem_of_nil in Hx]. exists l.
        assert (Hl : l ∈ vtree_children vtree) by (by apply vtree_children_spec; left).
        split; [done|]. right. apply Hsub; [done|]. left. eauto.
      * destruct or as [r|]; [|by apply elem_of_nil in Hx]. exists r.
        assert (Hr : r ∈ vtree_children vtree) by (by apply vtree_children_spec; right).
        split; [done|]. right. apply Hsub; [done|]. left. eauto.
    + rewrite vtree_nodes_unfold in Hp. apply elem_of_cons in Hp as [->|Hp].
      { right. exists c. split; [done|]. by left. }
      right. cbn [vtree_left vtree_right vtree] in Hp. apply elem_of_app in Hp as [Hp|Hp].
      * destruct ol as [l|]; [|by apply elem_of_nil in Hp]. exists l.
        assert (Hl : l ∈ vtree_children vtree) by (by apply vtree_children_spec; left).
        split; [done|]. right. apply Hsub; [done|]. right. eauto.
      * destruct or as [r|]; [|by apply elem_of_nil in Hp]. exists r.
        assert (Hr : r ∈ vtree_children vtree) by (by apply vtree_children_spec; right).
        split; [done|]. right. apply Hsub; [done|]. right. eauto.
Qed.

(** ** Telling the statements of a vtree apart *)

(** A decimal integer ends where the first character stands that is
    neither a digit nor a sign. *)
Lemma int_chars_split (a b : string) (c c' : ascii) (r r' : string) :
  int_chars_only a = true → int_chars_only b = true →
  is_int_char c = false → is_int_char c' = false →
  a +:+ String c r = b +:+ String c' r' →
  a = b ∧ String c r = String c' r'.
Proof.
  revert b. induction a as [|x a IH]; intros [|y b] Ha Hb Hc Hc' Heq;
    rewrite ?string_app_cons, ?string_app_nil in Heq; cbn [int_chars_only] in *.
  - done.
  - injection Heq as -> _. apply andb_prop in Hb as [Hy _]. congruence.
  - injection Heq as <- _. apply andb_prop in Ha as [Hx _]. congruence.
  - injection Heq as -> Heq.
    apply andb_prop in Ha as [_ Ha]. apply andb_prop in Hb as [_ Hb].
    destruct (IH b Ha Hb Hc Hc' Heq) as [-> ?]. done.
Qed.

Lemma digits_int_chars (s : string) : digits_only s = true → int_chars_only s = true.
Proof.
  induction s as [|c s IH]; [done|]. cbn [digits_only int_chars_only].
  intros [Hc Hs]%andb_prop. unfold is_int_char. by rewrite Hc, IH.
Qed.

Lemma str_Z_int_chars (z : Z) : int_chars_only (Py.str_Z z) = true.
Proof.
  unfold Py.str_Z, pretty, pretty_Z. destruct z as [|p|p].
  - reflexivity.
  - apply digits_int_chars, (str_N_digits (Npos p)).
  - rewrite string_app_cons, string_app_nil. cbn [int_chars_only].
    apply andb_true_intro. split; [reflexivity|].
    apply digits_int_chars, (str_N_digits (Npos p)).
Qed.

Lemma str_Z_inj (a b : Z) : Py.str_Z a = Py.str_Z b → a = b.
Proof. apply (inj pretty). Qed.

Lemma str_Z_split (a b : Z) (c c' : ascii) (r r' : string) :
  is_int_char c = false → is_int_char c' = false →
  Py.str_Z a +:+ String c r = Py.str_Z b +:+ String c' r' →
  a = b ∧ String c r = String c' r'.
Proof.
  intros Hc Hc' Heq.
  apply int_chars_split in Heq as [Heq ?]; auto using str_Z_int_chars.
  by apply str_Z_inj in Heq.
Qed.

Ltac vtree_norm H :=
  unfold vtree_stmt, vtree_leaf_stmt, vtree_inner_stmt, vtree_edge in H;
  rewrite ?string_app_assoc in H;
  rewrite ?string_app_cons, ?string_app_nil in H.

Lemma vtree_edge_inj (p c p' c' : Z) : vtree_edge p c = vtree_edge p' c' → p = p' ∧ c = c'.
Proof.
  intros H. vtree_norm H.
  apply str_Z_split in H as [-> H]; [|done..]. injection H as H.
  by apply str_Z_split in H as [-> _].
Qed.

Lemma vtree_stmt_ne_edge (x : Vtree) (litnamemap : option LitNameMap) (show_id : bool) (p c : Z) :
  vtree_stmt x litnamemap show_id ≠ vtree_edge p c.
Proof.
  intros H. unfold vtree_stmt in H.
  destruct (vtree_left x), (vtree_right x); vtree_norm H;
    by apply str_Z_split in H as [_ ?].
Qed.

Lemma vtree_stmt_declares (x : Vtree) (litnamemap : option LitNameMap) (show_id : bool) :
  starts_with (Py.str_Z (vtree_position x) +:+ " [") (vtree_stmt x litnamemap show_id) = true.
Proof.
  unfold vtree_stmt.
  destruct (vtree_left x), (vtree_right x); unfold vtree_leaf_stmt, vtree_inner_stmt;
    by rewrite starts_with_app.
Qed.

(** X13.  The edges of the vtree text are the parent-child pairs of the
    vtree, by position: [p -> c [arrowhead=none];] is a line of the output
    exactly when some node at position [p] has a child at position [c]. *)
Theorem vtree_edges_are_parent_child_pairs :
  ∀ (vtree : Vtree) (litnamemap : option LitNameMap) (show_id : bool) (p c : Z),
    vtree_edge p c ∈ _vtree_to_dot_int vtree litnamemap show_id
    ↔ ∃ parent child, parent ∈ vtree_nodes vtree ∧ child ∈ vtree_children parent
                      ∧ vtree_position parent = p ∧ vtree_position child = c.
Proof.
  intros vtree litnamemap show_id p c. rewrite vtree_lines. split.
  - intros [(x & _ & Heq)|(parent & child & Hp & Hc & Heq)].
    + symmetry in Heq. by apply vtree_stmt_ne_edge in Heq.
    + apply vtree_edge_inj in Heq as [-> ->]. eauto 6.
  - intros (parent & child & Hp & Hc & <- & <-). right. eauto 6.
Qed.

Lemma vtree_edges_are_parent_child_pairs_witness :
  let vtree := VtreeNode 1 0 (Some (VtreeNode 0 1 None None)) (Some (VtreeNode 2 2 None None)) in
  vtree_edge 1 2 ∈ _vtree_to_dot_int vtree None false
  ∧ ¬ vtree_edge 0 2 ∈ _vtree_to_dot_int vtree None false.
Proof.
  intros vtree. split.
  - apply (vtree_edges_are_parent_child_pairs vtree None false 1 2).
    exists vtree, (VtreeNode 2 2 None None).
    split_and!; [apply list_elem_of_here| |reflexivity..].
    apply vtree_children_spec. by right.
  - intros Hin.
    apply (vtree_edges_are_parent_child_pairs vtree None false 0 2) in Hin
      as (parent & child & Hp & Hc & Hpos & _).
    cbn in Hp. rewrite !elem_of_cons, elem_of_nil in Hp.
    destruct Hp as [->|[->|[->|[]]]]; try discriminate Hpos.
    apply vtree_children_spec in Hc as [Hc|Hc]; discriminate Hc.
Defined.

(** X14.  The vtree text declares what it uses: every node of the vtree
    has its statement in the output, a line that begins with the position
    of the node and an opening bracket; every line of the output is such a
    statement or an edge between a node and one of its children; and both
    ends of every edge are declared by a statement of the output. *)
Theorem vtree_text_is_closed :
  ∀ (vtree : Vtree) (litnamemap : option LitNameMap) (show_id : bool),
    let out := _vtree_to_dot_int vtree litnamemap show_id in
    (∀ x, x ∈ vtree_nodes vtree →
          vtree_stmt x litnamemap show_id ∈ out
          ∧ starts_with (Py.str_Z (vtree_position x) +:+ " [")
              (vtree_stmt x litnamemap show_id) = true)
    ∧ (∀ line, line ∈ out →
               (∃ x, x ∈ vtree_nodes vtree ∧ line = vtree_stmt x litnamemap show_id)
               ∨ (∃ parent child, parent ∈ vtree_nodes vtree ∧ child ∈ vtree_children parent
                    ∧ line = vtree_edge (vtree_position parent) (vtree_position child)))
    ∧ (∀ p c, vtree_edge p c ∈ out →
              ∃ lp lc, lp ∈ out ∧ lc ∈ out
                       ∧ starts_with (Py.str_Z p +:+ " [") lp = true
                       ∧ starts_with (Py.str_Z c +:+ " [") lc = true).
Proof.
  intros vtree litnamemap show_id out. subst out.
  assert (Hnode : ∀ x, x ∈ vtree_nodes vtree →
            vtree_stmt x litnamemap show_id ∈ _vtree_to_dot_int vtree litnamemap show_id).
  { intros x Hx. apply vtree_lines. left. eauto. }
  split_and!.
  - intros x Hx. split; [by apply Hnode|apply vtree_stmt_declares].
  - intros line Hline. by apply vtree_lines.
  - intros p c Hedge.
    apply vtree_lines in Hedge as [(x & _ & Heq)|(parent & child & Hp & Hc & Heq)].
    { symmetry in Heq. by apply vtree_stmt_ne_edge in Heq. }
    apply vtree_edge_inj in Heq as [-> ->].
    exists (vtree_stmt parent litnamemap show_id), (vtree_stmt child litnamemap show_id).
    split_and!; [by apply Hnode| |apply vtree_stmt_declares..].
    apply Hnode. apply (vtree_nodes_trans vtree parent); [done|].
    apply (vtree_nodes_child parent child); [done|apply vtree_nodes_self].
Qed.

Lemma vtree_text_is_closed_witness :
  let vtree := VtreeNode 1 0 (Some (VtreeNode 0 1 None None)) (Some (VtreeNode 2 2 None None)) in
  let out := _vtree_to_dot_int vtree None false in
  ∃ lp lc, lp ∈ out ∧ lc ∈ out
           ∧ starts_with (Py.str_Z 1 +:+ " [") lp = true
           ∧ starts_with (Py.str_Z 2 +:+ " [") lc = true.
Proof.
  intros vtree out.
  apply (proj2 (proj2 (vtree_text_is_closed vtree None false)) 1 2).
  vm_compute. repeat constructor.
Defined.

(** * Binary64 arithmetic on whole numbers

    Sums and products of whole numbers are exact in binary64 as long as they
    do not exceed [2^53]; proved from the kernel's specification of the
    primitive floats. *)

Lemma digits2_pos_size (p : positive) : digits2_pos p = Pos.size p.
Proof. induction p as [p IH|p IH|]; cbn [digits2_pos Pos.size]; by rewrite ?IH. Qed.

Lemma digits2_pos_log2 (p : positive) : Z.pos (digits2_pos p) = Z.log2 (Z.pos p) + 1.
Proof. rewrite digits2_pos_size. destruct p; cbn [Z.log2 Pos.size]; lia. Qed.

Lemma iter_pos_nat {A} (f : A → A) (p : positive) (x : A) :
  SpecFloat.iter_pos f p x = Nat.iter (Pos.to_nat p) f x.
Proof.
  revert x. induction p as [p IH|p IH|]; intros x; cbn [SpecFloat.iter_pos].
  - rewrite !IH, Pos2Nat.inj_xI.
    replace (S (2 * Pos.to_nat p))%nat with (Pos.to_nat p + (Pos.to_nat p + 1))%nat by lia.
    rewrite !Nat.iter_add. done.
  - rewrite !IH, Pos2Nat.inj_xO. rewrite <- Nat.iter_add. f_equal. lia.
  - done.
Qed.

Lemma shr_1_double (m : Z) :
  0 < m →
  shr_1 {| shr_m := 2 * m; shr_r := false; shr_s := false |}
  = {| shr_m := m; shr_r := false; shr_s := false |}.
Proof. by destruct m. Qed.

Lemma iter_shr_1 (n : nat) (m : Z) :
  0 < m →
  Nat.iter n shr_1 {| shr_m := m * 2 ^ Z.of_nat n; shr_r := false; shr_s := false |}
  = {| shr_m := m; shr_r := false; shr_s := false |}.
Proof.
  intros Hm. revert m Hm. induction n as [|n IH]; intros m Hm.
  - cbn [Nat.iter Z.of_nat]. by rewrite Z.pow_0_r, Z.mul_1_r.
  - rewrite Nat.iter_succ_r.
    replace (m * 2 ^ Z.of_nat (S n)) with (2 * (m * 2 ^ Z.of_nat n)).
    2:{ rewrite Nat2Z.inj_succ, Z.pow_succ_r by lia. lia. }
    rewrite shr_1_double by (apply Z.mul_pos_pos; [done|]; apply Z.pow_pos_nonneg; lia).
    by apply IH.
Qed.

Lemma shr_exact (m e n : Z) :
  0 < m → 0 ≤ n →
  shr {| shr_m := m * 2 ^ n; shr_r := false; shr_s := false |} e n
  = ({| shr_m := m; shr_r := false; shr_s := false |}, e + n).
Proof.
  intros Hm Hn. destruct n as [|p|p]; [| |lia].
  - cbn [shr]. rewrite Z.pow_0_r, Z.mul_1_r, Z.add_0_r. done.
  - cbn [shr]. rewrite iter_pos_nat. f_equal.
    rewrite <- (positive_nat_Z p) at 1. by apply iter_shr_1.
Qed.

Lemma fexp_normal (x : Z) : -1021 ≤ x → fexp prec emax x = x - 53.
Proof. unfold fexp, SpecFloat.emin, prec, emax. lia. Qed.

Lemma log2_bounds (V : Z) : 1 ≤ V ≤ 2 ^ 53 → 0 ≤ Z.log2 V ≤ 53.
Proof.
  intros [Hlo Hhi]. split; [apply Z.log2_nonneg|].
  rewrite <- (Z.log2_pow2 53) by lia. by apply Z.log2_le_mono.
Qed.

Lemma binary_round_aux_exact (M : positive) (V k : Z) :
  0 ≤ k → 1 ≤ V ≤ 2 ^ 53 → 2 ^ 52 ≤ Z.pos M → Z.pos M = V * 2 ^ k →
  integer_float V (binary_round_aux prec emax false (Z.pos M) (- k) loc_Exact).
Proof.
  intros Hk HV HM HMV.
  pose proof (log2_bounds V HV) as HL.
  assert (HlogM : Z.log2 (Z.pos M) = k + Z.log2 V).
  { rewrite HMV. apply Z.log2_mul_pow2; lia. }
  assert (Hn : 52 ≤ k + Z.log2 V).
  { rewrite <- HlogM, <- (Z.log2_pow2 52) by lia. by apply Z.log2_le_mono. }
  set (L := Z.log2 V) in *.
  assert (∃ K : positive,
    Z.pos M = Z.pos K * 2 ^ (k + L - 52) ∧ 2 ^ 52 ≤ Z.pos K < 2 ^ 53
    ∧ Z.pos K * 2 ^ L = V * 2 ^ 52) as (K & HMK & HK & HKV).
  { destruct (decide (L ≤ 52)) as [HL52|HL52].
    - pose proof (Z.log2_spec V ltac:(lia)) as [Hlo Hhi]. fold L in Hlo, Hhi.
      assert (Hpow : 2 ^ 52 = 2 ^ L * 2 ^ (52 - L)).
      { rewrite <- Z.pow_add_r by lia. f_equal. lia. }
      assert (Hpow' : 2 ^ 53 = 2 ^ (Z.succ L) * 2 ^ (52 - L)).
      { rewrite <- Z.pow_add_r by lia. f_equal. lia. }
      assert (0 < 2 ^ (52 - L)) by (apply Z.pow_pos_nonneg; lia).
      exists (Z.to_pos (V * 2 ^ (52 - L))).
      rewrite Z2Pos.id by nia. split_and!.
      + rewrite HMV, <- Z.mul_assoc, <- Z.pow_add_r by lia. do 2 f_equal. lia.
      + rewrite Hpow. nia.
      + rewrite Hpow'. nia.
      + rewrite Hpow. lia.
    - assert (L = 53) as HL53 by lia. 
      assert (V = 2 ^ 53) as ->.
      { pose proof (Z.log2_spec V ltac:(lia)) as [Hlo Hhi]. fold L in Hlo. rewrite HL53 in Hlo. lia. }
      exists (Z.to_pos (2 ^ 52)). rewrite Z2Pos.id by lia. split_and!.
      + rewrite HMV, <- !Z.pow_add_r by lia. f_equal. lia.
      + lia.
      + lia.
      + rewrite HL53, <- !Z.pow_add_r by lia. f_equal. }
  unfold binary_round_aux, shr_fexp. cbn [Zdigits2 shr_record_of_loc].
  rewrite digits2_pos_log2, HlogM, fexp_normal by lia.
  replace (k + L + 1 + - k - 53 - - k) with (k + L - 52) by lia.
  rewrite HMK, shr_exact by lia.
  cbn [shr_m loc_of_shr_record round_nearest_even Zdigits2 shr_record_of_loc].
  assert (HlogK : Z.log2 (Z.pos K) = 52).
  { apply Z.log2_unique; [lia|]. change (52 + 1) with 53. lia. }
  rewrite digits2_pos_log2, HlogK, fexp_normal by lia.
  replace (52 + 1 + (- k + (k + L - 52)) - 53 - (- k + (k + L - 52))) with 0 by lia.
  cbn [shr shr_m].
  replace (- k + (k + L - 52) <=? emax - prec) with true
    by (symmetry; apply Z.leb_le; unfold emax, prec; lia).
  cbn [integer_float]. split_and!; try lia.
  replace (- k + (k + L - 52) + 52) with L by lia. done.
Qed.

Lemma pow2_split (a b : Z) : 0 ≤ a ≤ b → 2 ^ b = 2 ^ a * 2 ^ (b - a).
Proof. intros H. rewrite <- Z.pow_add_r by lia. f_equal. lia. Qed.

Lemma integer_float_pos (N : Z) (K : positive) (e : Z) :
  integer_float N (S754_finite false K e) → 1 ≤ N.
Proof.
  cbn. intros (HK & He & Heq).
  assert (0 < 2 ^ (e + 52)) by (apply Z.pow_pos_nonneg; lia).
  assert (0 < 2 ^ 52) by lia. nia.
Qed.

Lemma integer_float_inj (N : Z) (x y : spec_float) :
  integer_float N x → integer_float N y → x = y.
Proof.
  destruct x as [[]| | |[] K e], y as [[]| | |[] K' e']; try done.
  - intros -> Hy. apply integer_float_pos in Hy. lia.
  - intros Hx ->. apply integer_float_pos in Hx. lia.
  - cbn. intros (HK & He & Heq) (HK' & He' & Heq').
    assert (e = e') as <-.
    { destruct (Z.lt_trichotomy e e') as [Hlt|[Heq0|Hgt]]; [|done|].
      - exfalso. rewrite (pow2_split (e + 52) (e' + 52)) in Heq' by lia.
        assert (2 ≤ 2 ^ (e' + 52 - (e + 52))).
        { change 2 with (2 ^ 1) at 1. apply Z.pow_le_mono_r; lia. }
        assert (0 < 2 ^ (e + 52)) by (apply Z.pow_pos_nonneg; lia).
        assert (Z.pos K = Z.pos K' * 2 ^ (e' + 52 - (e + 52))).
        { apply (Z.mul_reg_l _ _ (2 ^ (e + 52))); lia. }
        nia.
      - exfalso. rewrite (pow2_split (e' + 52) (e + 52)) in Heq by lia.
        assert (2 ≤ 2 ^ (e + 52 - (e' + 52))).
        { change 2 with (2 ^ 1) at 1. apply Z.pow_le_mono_r; lia. }
        assert (0 < 2 ^ (e' + 52)) by (apply Z.pow_pos_nonneg; lia).
        assert (Z.pos K' = Z.pos K * 2 ^ (e + 52 - (e' + 52))).
        { apply (Z.mul_reg_l _ _ (2 ^ (e' + 52))); lia. }
        nia. }
    assert (0 < 2 ^ (e + 52)) by (apply Z.pow_pos_nonneg; lia).
    assert (Z.pos K = Z.pos K') by nia. congruence.
Qed.

Lemma SFmul_exact (a b : Z) (x y : spec_float) :
  integer_float a x → integer_float b y → 0 ≤ a → 0 ≤ b → a * b ≤ 2 ^ 53 →
  integer_float (a * b) (SF64mul x y).
Proof.
  intros Hx Hy Ha Hb Hab.
  destruct x as [[]| | |[] Ka ea], y as [[]| | |[] Kb eb]; try done.
  - cbn in Hx, Hy. subst. done.
  - cbn in Hx. subst. done.
  - cbn in Hy. subst. cbn. lia.
  - pose proof (integer_float_pos _ _ _ Hx). pose proof (integer_float_pos _ _ _ Hy).
    destruct Hx as (HKa & Hea & Heqa), Hy as (HKb & Heb & Heqb).
    unfold SF64mul, SFmul. cbn [xorb].
    assert (Hprod : Z.pos (Ka * Kb) * 2 ^ (ea + 52 + (eb + 52)) = a * b * 2 ^ 104).
    { rewrite Z.pow_add_r by lia. change (2 ^ 104) with (2 ^ 52 * 2 ^ 52).
      rewrite Pos2Z.inj_mul. nia. }
    assert (Hbig : 2 ^ 104 ≤ Z.pos (Ka * Kb)).
    { change (2 ^ 104) with (2 ^ 52 * 2 ^ 52). rewrite Pos2Z.inj_mul. nia. }
    assert (Hu : ea + 52 + (eb + 52) ≤ 53).
    { apply (Z.pow_le_mono_r_iff 2); [lia|lia|].
      assert (0 < 2 ^ (ea + 52 + (eb + 52))) by (apply Z.pow_pos_nonneg; lia).
      assert (0 < 2 ^ 104) by lia.
      apply (Z.mul_le_mono_pos_l _ _ (2 ^ 104)); [done|]. 
      change (2 ^ 104 * 2 ^ 53) with (2 ^ 53 * 2 ^ 104). nia. }
    replace (ea + eb) with (- (104 - (ea + 52 + (eb + 52)))) by lia.
    apply binary_round_aux_exact; [lia|nia| |].
    + etrans; [|exact Hbig]. lia.
    + rewrite (pow2_split (ea + 52 + (eb + 52)) 104) in Hprod by lia.
      assert (0 < 2 ^ (ea + 52 + (eb + 52))) by (apply Z.pow_pos_nonneg; lia).
      nia.
Qed.

Lemma nat_iter_xO (n : nat) (m : positive) :
  Z.pos (Nat.iter n xO m) = Z.pos m * 2 ^ Z.of_nat n.
Proof.
  induction n as [|n IH].
  - cbn [Nat.iter nat_rect Z.of_nat]. by rewrite Z.pow_0_r, Z.mul_1_r.
  - rewrite Nat.iter_succ, Pos2Z.inj_xO, IH, Nat2Z.inj_succ, Z.pow_succ_r by lia. lia.
Qed.

Lemma pos_iter_xO (d m : positive) : Z.pos (Pos.iter xO m d) = Z.pos m * 2 ^ Z.pos d.
Proof.
  rewrite Pos2Nat.inj_iter. pose proof (nat_iter_xO (Pos.to_nat d) m) as H.
  rewrite positive_nat_Z in H. exact H.
Qed.

Lemma shl_align_spec (mx : positive) (ex ez : Z) :
  ez ≤ ex →
  Z.pos (shl_align mx ex ez).1 = Z.pos mx * 2 ^ (ex - ez)
  ∧ (shl_align mx ex ez).2 = ez.
Proof.
  intros Hle. unfold shl_align. destruct (ez - ex) as [|d|d] eqn:Hd; [|lia|]; cbn [fst snd].
  - replace (ex - ez) with 0 by lia. rewrite Z.pow_0_r. lia.
  - rewrite pos_iter_xO. replace (ex - ez) with (Z.pos d) by lia. done.
Qed.

Lemma shl_align_id (mx : positive) (ex ez : Z) :
  ex ≤ ez → shl_align mx ex ez = (mx, ex).
Proof. intros Hle. unfold shl_align. destruct (ez - ex) eqn:Hd; [done|done|lia]. Qed.

Lemma binary_round_exact (M : positive) (V k : Z) :
  0 ≤ k → 1 ≤ V ≤ 2 ^ 53 → Z.pos M = V * 2 ^ k →
  integer_float V (binary_round prec emax false M (- k)).
Proof.
  intros Hk HV HMV.
  pose proof (log2_bounds V HV) as HL.
  assert (HlogM : Z.log2 (Z.pos M) = k + Z.log2 V).
  { rewrite HMV. apply Z.log2_mul_pow2; lia. }
  pose proof (Z.log2_spec V ltac:(lia)) as [Hlo Hhi].
  unfold binary_round.
  rewrite digits2_pos_log2, HlogM, fexp_normal by lia.
  set (L := Z.log2 V) in *.
  destruct (decide (k + L + 1 + - k - 53 < - k)) as [Hshift|Hshift].
  - destruct (shl_align_spec M (- k) (k + L + 1 + - k - 53) ltac:(lia)) as [Hm He].
    destruct (shl_align M (- k) (k + L + 1 + - k - 53)) as [mz ez]. cbn [fst snd] in Hm, He.
    subst ez. replace (k + L + 1 + - k - 53) with (- (52 - L)) by lia.
    assert (Hmz : Z.pos mz = V * 2 ^ (52 - L)).
    { rewrite Hm, HMV, <- Z.mul_assoc, <- Z.pow_add_r by lia. do 2 f_equal. lia. }
    apply binary_round_aux_exact; [lia|done| |done].
    rewrite Hmz, (pow2_split L 52) by lia.
    assert (0 < 2 ^ (52 - L)) by (apply Z.pow_pos_nonneg; lia). nia.
  - rewrite shl_align_id by lia.
    apply binary_round_aux_exact; [done|done| |done].
    pose proof (Z.log2_spec (Z.pos M) ltac:(lia)) as [HloM _].
    etrans; [|exact HloM]. apply Z.pow_le_mono_r; lia.
Qed.

Lemma SFadd_exact (a b : Z) (x y : spec_float) :
  integer_float a x → integer_float b y → 0 ≤ a → 0 ≤ b → a + b ≤ 2 ^ 53 →
  integer_float (a + b) (SF64add x y).
Proof.
  intros Hx Hy Ha Hb Hab.
  destruct x as [[]| | |[] Ka ea], y as [[]| | |[] Kb eb]; try done.
  - cbn in Hx, Hy. subst. done.
  - cbn in Hx. subst. done.
  - cbn in Hy. subst. by rewrite Z.add_0_r.
  - pose proof (integer_float_pos _ _ _ Hx). pose proof (integer_float_pos _ _ _ Hy).
    destruct Hx as (HKa & Hea & Heqa), Hy as (HKb & Heb & Heqb).
    unfold SF64add, SFadd. cbn zeta. cbn [cond_Zopp].
    set (ez := Z.min ea eb).
    destruct (shl_align_spec Ka ea ez ltac:(lia)) as [Hma _].
    destruct (shl_align_spec Kb eb ez ltac:(lia)) as [Hmb _].
    destruct (shl_align Ka ea ez) as [ma ?], (shl_align Kb eb ez) as [mb ?].
    cbn [fst snd] in *.
    change (Z.pos ma + Z.pos mb) with (Z.pos (ma + mb)). cbn [binary_normalize].
    assert (0 < 2 ^ (ez + 52)) by (apply Z.pow_pos_nonneg; lia).
    assert (Hsum : Z.pos (ma + mb) * 2 ^ (ez + 52) = (a + b) * 2 ^ 52).
    { rewrite Pos2Z.inj_add, Hma, Hmb, Z.mul_add_distr_r, <- !Z.mul_assoc, <- !Z.pow_add_r by lia.
      replace (ea - ez + (ez + 52)) with (ea + 52) by lia.
      replace (eb - ez + (ez + 52)) with (eb + 52) by lia. lia. }
    assert (Hez : ez ≤ 0).
    { destruct (decide (ez ≤ 0)); [done|]. exfalso.
      assert (ea = 1 ∧ eb = 1) as [-> ->] by lia.
      change (1 + 52) with 53 in *. lia. }
    assert (Hm : Z.pos (ma + mb) = (a + b) * 2 ^ (- ez)).
    { rewrite (pow2_split (ez + 52) 52) in Hsum by lia.
      replace (52 - (ez + 52)) with (- ez) in Hsum by lia. nia. }
    pose proof (binary_round_exact (ma + mb) (a + b) (- ez) ltac:(lia) ltac:(lia) Hm) as Hr.
    by rewrite Z.opp_involutive in Hr.
Qed.

Lemma float_of_Z_holds (N : Z) : 0 ≤ N ≤ 2 ^ 53 → holds_integer N (float_of_Z N).
Proof.
  intros HN. unfold holds_integer, float_of_Z.
  rewrite of_uint63_spec, Uint63.of_Z_spec, Z.mod_small.
  2:{ change Uint63.wB with (2 ^ 63). split; [lia|]. 
      apply Z.le_lt_trans with (2 ^ 53); [lia|]. apply Z.pow_lt_mono_r; lia. }
  destruct N as [|M|M]; [done| |lia]. cbn [binary_normalize].
  change 0 with (- 0). apply binary_round_exact; [lia|lia|].
  rewrite Z.pow_0_r. lia.
Qed.

Lemma holds_integer_eq (N : Z) (x : float) :
  0 ≤ N ≤ 2 ^ 53 → holds_integer N x → x = float_of_Z N.
Proof.
  intros HN Hx. apply Prim2SF_inj.
  apply (integer_float_inj N); [done|]. by apply float_of_Z_holds.
Qed.

Lemma holds_integer_mul (a b : Z) (x y : float) :
  holds_integer a x → holds_integer b y → 0 ≤ a → 0 ≤ b → a * b ≤ 2 ^ 53 →
  holds_integer (a * b) (x * y)%float.
Proof. unfold holds_integer. rewrite FloatAxioms.mul_spec. apply SFmul_exact. Qed.

Lemma holds_integer_add (a b : Z) (x y : float) :
  holds_integer a x → holds_integer b y → 0 ≤ a → 0 ≤ b → a + b ≤ 2 ^ 53 →
  holds_integer (a + b) (x + y)%float.
Proof. unfold holds_integer. rewrite FloatAxioms.add_spec. apply SFadd_exact. Qed.

Lemma float_of_Z_1 : float_of_Z 1 = 1%float.
Proof. reflexivity. Qed.

Lemma float_of_Z_0 : float_of_Z 0 = 0%float.
Proof. reflexivity. Qed.

(** Whole numbers up to [2^53] are told apart by their floats. *)
Lemma float_of_Z_inj (a b : Z) :
  0 ≤ a ≤ 2 ^ 53 → 0 ≤ b ≤ 2 ^ 53 → float_of_Z a = float_of_Z b → a = b.
Proof.
  intros Ha Hb Heq.
  pose proof (float_of_Z_holds a Ha) as Hfa. pose proof (float_of_Z_holds b Hb) as Hfb.
  rewrite Heq in Hfa. unfold holds_integer in *.
  destruct (Prim2SF (float_of_Z b)) as [[]| | |[] K e]; try done.
  - cbn in Hfa, Hfb. lia.
  - destruct Hfa as (_ & _ & Hfa), Hfb as (_ & _ & Hfb). lia.
Qed.

(** * Counting models in binary64 *)

Lemma eval_holds_integer (lw : Z → float) (n : Z → Z) (c : circuit) :
  (∀ lit, holds_integer (n lit) (lw lit)) →
  exact_range n c →
  holds_integer (eval n c) (eval lw c) ∧ 0 ≤ eval n c.
Proof.
  intros Hlw. induction c as [lit| | |x IHx y IHy|x IHx y IHy]; cbn [exact_range eval].
  - intros Hn. split; [apply Hlw|lia].
  - intros _. split; [|done]. change (holds_integer 1 (float_of_Z 1)).
    by apply float_of_Z_holds.
  - intros _. split; [|done]. change (holds_integer 0 (float_of_Z 0)).
    by apply float_of_Z_holds.
  - intros (Hx & Hy & Hle). destruct (IHx Hx) as [Hhx H0x], (IHy Hy) as [Hhy H0y].
    split; [by apply holds_integer_mul|]. cbn. lia.
  - intros (Hx & Hy & Hle). destruct (IHx Hx) as [Hhx H0x], (IHy Hy) as [Hhy H0y].
    split; [by apply holds_integer_add|]. cbn. lia.
Qed.

Lemma weight_of_nat_Z (k : nat) : weight_of_nat (W:=Z) k = Z.of_nat k.
Proof. induction k as [|k IH]; cbn [weight_of_nat]; [done|]. rewrite IH. cbn. lia. Qed.

Lemma eval_unit_model_count (c : circuit) :
  proper c = true → eval (W:=Z) (λ _, 1) c = Z.of_nat (model_count c).
Proof.
  intros Hproper. rewrite <- weight_of_nat_Z. by apply eval_model_count.
Qed.

Lemma count_models_le (vs : list Z) (f : gset Z → bool) (a : gset Z) :
  (count_models vs f a ≤ 2 ^ length vs)%nat.
Proof.
  revert a. induction vs as [|v vs IH]; intros a; cbn [count_models length].
  - destruct (f a); cbn; lia.
  - pose proof (IH ({[v]} ∪ a)). pose proof (IH a). rewrite Nat.pow_succ_r'. lia.
Qed.

Lemma model_count_le (c : circuit) (k : nat) :
  (size (vars c) ≤ k)%nat → Z.of_nat (model_count c) ≤ 2 ^ Z.of_nat k.
Proof.
  intros Hk. unfold model_count.
  pose proof (count_models_le (elements (vars c)) (λ a, sat a c) ∅) as Hle.
  change (length (elements (vars c))) with (size (vars c)) in Hle.
  etrans; [apply inj_le, Hle|]. rewrite Nat2Z.inj_pow.
  apply Z.pow_le_mono_r; lia.
Qed.

Lemma proper_exact_range (c : circuit) :
  proper c = true → (size (vars c) ≤ 53)%nat → exact_range (λ _, 1) c.
Proof.
  induction c as [lit| | |x IHx y IHy|x IHx y IHy]; intros Hproper Hsize;
    cbn [exact_range]; [lia|done|done| |].
  - pose proof Hproper as Hxy. cbn [proper] in Hproper.
    apply andb_prop in Hproper as [Hproper _]. apply andb_prop in Hproper as [Hx Hy].
    cbn [vars] in Hsize.
    assert (size (vars x) ≤ 53)%nat
      by (etrans; [apply subseteq_size, (union_subseteq_l _ (vars y))|done]).
    assert (size (vars y) ≤ 53)%nat
      by (etrans; [apply subseteq_size, (union_subseteq_r (vars x))|done]).
    split_and!; [by apply IHx|by apply IHy|].
    change (eval (λ _, 1) x * eval (λ _, 1) y) with (eval (W:=Z) (λ _, 1) (CMul x y)).
    rewrite eval_unit_model_count by done. by apply (model_count_le _ 53).
  - pose proof Hproper as Hxy. cbn [proper] in Hproper.
    apply andb_prop in Hproper as [Hproper _]. apply andb_prop in Hproper as [Hproper _].
    apply andb_prop in Hproper as [Hproper _]. apply andb_prop in Hproper as [Hx Hy].
    cbn [vars] in Hsize.
    assert (size (vars x) ≤ 53)%nat
      by (etrans; [apply subseteq_size, (union_subseteq_l _ (vars y))|done]).
    assert (size (vars y) ≤ 53)%nat
      by (etrans; [apply subseteq_size, (union_subseteq_r (vars x))|done]).
    split_and!; [by apply IHx|by apply IHy|].
    change (eval (λ _, 1) x + eval (λ _, 1) y) with (eval (W:=Z) (λ _, 1) (CAdd x y)).
    rewrite eval_unit_model_count by done. by apply (model_count_le _ 53).
Qed.

(** In binary64, with every literal weighing 1.0, a decomposable,
    deterministic and smooth circuit over at most 53 variables evaluates to
    the float of the number of its models. *)
Lemma eval_float_model_count (lw : Z → float) (c : circuit) :
  (∀ lit, lw lit = 1%float) →
  proper c = true → (size (vars c) ≤ 53)%nat →
  eval lw c = float_of_Z (Z.of_nat (model_count c)).
Proof.
  intros Hlw Hproper Hsize.
  pose proof (model_count_le c 53 Hsize) as Hle.
  apply holds_integer_eq; [lia|].
  rewrite <- eval_unit_model_count by done.
  apply eval_holds_integer; [|by apply proper_exact_range].
  intros lit. rewrite Hlw, <- float_of_Z_1. by apply float_of_Z_holds.
Qed.

(** ** A smooth circuit too large for binary64 *)

Lemma model_count_unsat_intro (c : circuit) :
  (∀ a, sat a c = false) → model_count c = 0%nat.
Proof.
  intros Hunsat. unfold model_count.
  rewrite (count_models_ext _ _ (λ _, false)) by done. apply count_models_false.
Qed.

Lemma proper_CAdd_intro (x y : circuit) :
  proper x = true → proper y = true →
  (∀ a, sat a x && sat a y = false) →
  model_count x = 0%nat ∨ vars x = vars x ∪ vars y →
  model_count y = 0%nat ∨ vars y = vars x ∪ vars y →
  proper (CAdd x y) = true.
Proof.
  intros Hx Hy Hdet Hsx Hsy. cbn [proper]. rewrite Hx, Hy. cbn [andb].
  rewrite (model_count_unsat_intro (CMul x y)) by done. cbn [Nat.eqb andb].
  apply andb_true_intro. split; apply orb_true_intro.
  - destruct Hsx as [->|Hsx]; [by left|right]. by apply bool_decide_eq_true.
  - destruct Hsy as [->|Hsy]; [by left|right]. by apply bool_decide_eq_true.
Qed.

Lemma opposite_literals_exclude (v : Z) (x y : circuit) (a : gset Z) :
  0 < v →
  sat a (CAdd CZero (CMul (CMul COne (CLit v)) x))
  && sat a (CMul (CMul COne (CLit (- v))) y) = false.
Proof.
  intros Hv. cbn [sat orb andb]. unfold sat_lit.
  replace (0 <? v) with true by (symmetry; apply Z.ltb_lt; lia).
  replace (0 <? - v) with false by (symmetry; apply Z.ltb_ge; lia).
  rewrite Z.opp_involutive. destruct (bool_decide (v ∈ a)); cbn [negb andb]; [|done].
  apply andb_false_r.
Qed.

(** C7 (as stated, refuted).  Both evaluators perform non-smoothed
    counting in binary64.  First, the NNF file encodes [x1 ∨ (¬x1 ∧ x2)]
    and the SDD file encodes [(x1 ∧ ⊤) ∨ (¬x1 ∧ x2)], each with three
    satisfying assignments over its two variables; with every literal
    weighing 1.0 both evaluators return 2.0.  Likewise the sum [x1 ∨ x1],
    whose terms share a model, has one satisfying assignment and evaluates
    to 2.0, and the product [x1 ∧ ¬x1], whose factors share a variable, has
    none and evaluates to 1.0.  Second, the NNF file [rounding_nnf_file 53]
    encodes a decomposable, deterministic and smooth circuit over 54
    variables with [2^53 + 1] satisfying assignments; with every literal
    weighing 1.0 the evaluator returns [2^53], the nearest float. *)
Lemma model_count_counterexample :
  let weights : gmap Z float :=
    {[1 := 1.0%float; -1 := 1.0%float; 2 := 1.0%float; -2 := 1.0%float]} in
  let nnf_file := text ["nnf 5 4 2"; "L 1"; "L -1"; "L 2"; "A 2 1 2"; "O 1 2 0 3"] in
  let sdd_file := text ["sdd 5"; "L 1 0 1"; "L 2 0 -1"; "T 3"; "L 4 2 2"; "D 0 1 2 1 3 2 4"] in
  let shared_model := text ["nnf 2 2 1"; "L 1"; "O 1 2 0 0"] in
  let shared_variable := text ["nnf 3 2 1"; "L 1"; "L -1"; "A 2 0 1"] in
  let all_ones : Z → option float := λ _, Some 1.0%float in
  (nnf_file_wmc nnf_file (Some weights) = Ok (Some 2.0%float)
   ∧ on_weight model_count (nnf_circuit nnf_file) = Ok (Some 3%nat)
   ∧ sdd_file_wmc sdd_file (Some weights) = Ok (Some 2.0%float)
   ∧ on_weight model_count (sdd_circuit sdd_file) = Ok (Some 3%nat))
  ∧ (nnf_file_wmc shared_model (Some weights) = Ok (Some 2.0%float)
     ∧ on_weight model_count (nnf_circuit shared_model) = Ok (Some 1%nat)
     ∧ nnf_file_wmc shared_variable (Some weights) = Ok (Some 1.0%float)
     ∧ on_weight model_count (nnf_circuit shared_variable) = Ok (Some 0%nat))
  ∧ (∃ c : circuit,
       nnf_circuit (rounding_nnf_file 53) = Ok (Some c)
       ∧ proper c = true
       ∧ size (vars c) = 54%nat
       ∧ Z.of_nat (model_count c) = 9007199254740993
       ∧ nnf_file_wmc (rounding_nnf_file 53) (Some all_ones)
         = Ok (Some 9007199254740992%float)).
Proof.
  intros weights nnf_file sdd_file shared_model shared_variable all_ones.
  split; [split_and!; vm_compute; reflexivity|].
  split; [split_and!; vm_compute; reflexivity|].
  eexists. split; [vm_compute; reflexivity|].
  match goal with
  | |- proper ?c = true ∧ _ => assert (Hproper : proper c = true)
  end.
  { apply proper_CAdd_intro.
    - apply proper_CAdd_intro; [done|vm_compute; reflexivity|done|by left|].
      right. apply (bool_decide_eq_true_1 _). vm_compute; reflexivity.
    - vm_compute; reflexivity.
    - intros a. by apply opposite_literals_exclude.
    - right. apply (bool_decide_eq_true_1 _). vm_compute; reflexivity.
    - right. apply (bool_decide_eq_true_1 _). vm_compute; reflexivity. }
  split_and!.
  - exact Hproper.
  - vm_compute; reflexivity.
  - rewrite <- (eval_unit_model_count _ Hproper). vm_compute; reflexivity.
  - vm_compute; reflexivity.
Qed.

(** C7 (amended).  In binary64, for a weight table in which every literal
    weighs 1.0 or is absent, and for a file whose circuit is decomposable,
    deterministic and smooth ([proper]) and mentions at most 53 variables,
    each evaluator returns the float of the number of satisfying
    assignments of the circuit over the variables that occur in it; that
    float holds the number exactly, distinct numbers up to [2^53] having
    distinct floats. *)
Theorem wmc_counts_models_of_proper_circuits :
  ∀ (M : Type) (HM : Lookup Z float M) (weights : M),
    (∀ lit, weights !! lit = None ∨ weights !! lit = Some 1.0%float) →
    (∀ nnf_file c,
       nnf_circuit nnf_file = Ok (Some c) → proper c = true → (size (vars c) ≤ 53)%nat →
       nnf_file_wmc nnf_file (Some weights)
       = Ok (Some (float_of_Z (Z.of_nat (model_count c))))
       ∧ Z.of_nat (model_count c) ≤ 2 ^ 53)
    ∧ (∀ sdd_file c,
       sdd_circuit sdd_file = Ok (Some c) → proper c = true → (size (vars c) ≤ 53)%nat →
       sdd_file_wmc sdd_file (Some weights)
       = Ok (Some (float_of_Z (Z.of_nat (model_count c))))
       ∧ Z.of_nat (model_count c) ≤ 2 ^ 53)
    ∧ (∀ m n : Z, 0 ≤ m ≤ 2 ^ 53 → 0 ≤ n ≤ 2 ^ 53 → float_of_Z m = float_of_Z n → m = n).
Proof.
  intros M HM weights Hones.
  assert (Hlw : ∀ lit, table_weight weights lit = 1.0%float).
  { intros lit. unfold table_weight. by destruct (Hones lit) as [-> | ->]. }
  split_and!.
  - intros nnf_file c Hc Hproper Hsize. split; [|by apply (model_count_le c 53)].
    rewrite nnf_file_wmc_hom, Hc. cbn.
    by rewrite eval_float_model_count.
  - intros sdd_file c Hc Hproper Hsize. split; [|by apply (model_count_le c 53)].
    rewrite sdd_file_wmc_hom, Hc. cbn.
    by rewrite eval_float_model_count.
  - apply float_of_Z_inj.
Qed.

Lemma wmc_counts_models_of_proper_circuits_witness :
  let weights : gmap Z float := {[1 := 1.0%float; -1 := 1.0%float; 2 := 1.0%float]} in
  (* smooth versions of the circuits above: x1 ∧ (x2 ∨ ¬x2)  ∨  ¬x1 ∧ x2 *)
  let nnf_file :=
    text ["nnf 8 8 2"; "L 1"; "L -1"; "L 2"; "L -2"; "O 2 2 2 3"; "A 2 0 4"; "A 2 1 2";
          "O 1 2 5 6"] in
  let sdd_file :=
    text ["sdd 8"; "L 1 0 1"; "L 2 0 -1"; "L 4 2 2"; "L 5 2 -2"; "T 3"; "F 6";
          "D 7 2 2 4 3 5 3"; "D 0 1 2 1 7 2 4"] in
  nnf_file_wmc nnf_file (Some weights) = Ok (Some 3.0%float)
  ∧ sdd_file_wmc sdd_file (Some weights) = Ok (Some 3.0%float).
Proof.
  intros weights nnf_file sdd_file.
  assert (Hones : ∀ lit, weights !! lit = None ∨ weights !! lit = Some 1.0%float).
  { intros lit. unfold weights.
    destruct (decide (lit = 1)) as [->|]; [by right|].
    destruct (decide (lit = -1)) as [->|]; [by right|].
    destruct (decide (lit = 2)) as [->|]; [by right|].
    left. rewrite !lookup_insert_ne by done. by apply lookup_singleton_ne. }
  destruct (wmc_counts_models_of_proper_circuits (gmap Z float) _ weights Hones)
    as (Hnnf & Hsdd & _).
  split.
  - edestruct (Hnnf nnf_file) as [Heq _];
      [vm_compute; reflexivity|vm_compute; reflexivity|vm_compute; lia|].
    rewrite Heq. vm_compute. reflexivity.
  - edestruct (Hsdd sdd_file) as [Heq _];
      [vm_compute; reflexivity|vm_compute; reflexivity|vm_compute; lia|].
    rewrite Heq. vm_compute. reflexivity.
Defined.

(** * Weighted model counting *)

#[global] Instance Z_semiring_laws : SemiringLaws Z.
Proof. split; cbn; intros; lia. Qed.

Section semiring.
Context {W : Type} `{!Weight W} `{!SemiringLaws W}.
Implicit Types (x y z : W) (f g : gset Z → bool) (a : gset Z) (vs : list Z) (lw : Z → W).

Lemma sr_add_0_r x : w_add x w_zero = x.
Proof. by rewrite sr_add_comm, sr_add_0_l. Qed.

Lemma sr_mul_1_r x : w_mul x w_one = x.
Proof. by rewrite sr_mul_comm, sr_mul_1_l. Qed.

Lemma sr_mul_0_r x : w_mul x w_zero = w_zero.
Proof. by rewrite sr_mul_comm, sr_mul_0_l. Qed.

Lemma sr_mul_add_distr_r x y z : w_mul (w_add x y) z = w_add (w_mul x z) (w_mul y z).
Proof. by rewrite sr_mul_comm, sr_mul_add_distr_l, !(sr_mul_comm z). Qed.

Lemma sr_mul_swap x y z : w_mul x (w_mul y z) = w_mul y (w_mul x z).
Proof. by rewrite <- !sr_mul_assoc, (sr_mul_comm x y). Qed.

Lemma sr_add_swap4 (p q r s : W) :
  w_add (w_add p q) (w_add r s) = w_add (w_add p r) (w_add q s).
Proof.
  rewrite !sr_add_assoc. f_equal.
  rewrite <- !sr_add_assoc. f_equal. apply sr_add_comm.
Qed.

Lemma weighted_models_ext lw vs f g a :
  (∀ b, f b = g b) → weighted_models lw vs f a = weighted_models lw vs g a.
Proof.
  intros Hfg. revert a. induction vs as [|v vs IH]; intros a; cbn [weighted_models].
  - by rewrite Hfg.
  - by rewrite !IH.
Qed.

Lemma weighted_models_false lw vs a : weighted_models lw vs (λ _, false) a = w_zero.
Proof.
  revert a. induction vs as [|v vs IH]; intros a; cbn [weighted_models]; [done|].
  by rewrite !IH, !sr_mul_0_r, sr_add_0_l.
Qed.

Lemma weighted_models_ignore_base lw vs f v a :
  ignores f v → weighted_models lw vs f ({[v]} ∪ a) = weighted_models lw vs f a.
Proof.
  intros Hf. revert a. induction vs as [|w vs IH]; intros a; cbn [weighted_models].
  - by rewrite Hf.
  - by rewrite union_swap, !IH.
Qed.

Lemma weighted_models_and_ignored lw vs f g a :
  (∀ v, v ∈ vs → ignores f v) →
  weighted_models lw vs (λ b, f b && g b) a
  = if f a then weighted_models lw vs g a else w_zero.
Proof.
  revert a. induction vs as [|v vs IH]; intros a Hf; cbn [weighted_models].
  - by destruct (f a), (g a).
  - rewrite !IH by (intros w Hw; apply Hf; by apply list_elem_of_further).
    rewrite (Hf v) by apply list_elem_of_here.
    destruct (f a); [done|]. by rewrite !sr_mul_0_r, sr_add_0_l.
Qed.

Lemma weighted_models_product lw vs1 vs2 f g a :
  (∀ v, v ∈ vs2 → ignores f v) →
  (∀ v, v ∈ vs1 → ignores g v) →
  weighted_models lw (vs1 ++ vs2) (λ b, f b && g b) a
  = w_mul (weighted_models lw vs1 f a) (weighted_models lw vs2 g a).
Proof.
  intros Hf. revert a. induction vs1 as [|v vs1 IH]; intros a Hg; cbn [app weighted_models].
  - rewrite weighted_models_and_ignored by done.
    destruct (f a); by rewrite ?sr_mul_1_l, ?sr_mul_0_l.
  - rewrite !IH by (intros w Hw; apply Hg; by apply list_elem_of_further).
    rewrite (weighted_models_ignore_base lw vs2 g v) by (apply Hg, list_elem_of_here).
    by rewrite sr_mul_add_distr_r, !sr_mul_assoc.
Qed.

Lemma weighted_models_sum lw vs f g a :
  (∀ b, f b && g b = false) →
  weighted_models lw vs (λ b, f b || g b) a
  = w_add (weighted_models lw vs f a) (weighted_models lw vs g a).
Proof.
  intros Hex. revert a. induction vs as [|v vs IH]; intros a; cbn [weighted_models].
  - specialize (Hex a). destruct (f a), (g a); try done; cbn [orb];
      by rewrite ?sr_add_0_l, ?sr_add_0_r.
  - rewrite !IH, !sr_mul_add_distr_l. apply sr_add_swap4.
Qed.

Lemma weighted_models_perm lw vs vs' f a :
  vs ≡ₚ vs' → weighted_models lw vs f a = weighted_models lw vs' f a.
Proof.
  intros Hperm. revert a.
  induction Hperm as [|v vs vs' _ IH|v w vs|vs1 vs2 vs3 _ IH1 _ IH2]; intros a;
    cbn [weighted_models].
  - done.
  - by rewrite !IH.
  - rewrite !sr_mul_add_distr_l, (union_swap w v).
    rewrite sr_add_swap4. f_equal; f_equal; apply sr_mul_swap.
  - by rewrite IH1, IH2.
Qed.

Lemma weighted_models_unsat lw vs (c : circuit) a :
  model_count c = 0%nat → weighted_models lw vs (λ b, sat b c) a = w_zero.
Proof.
  intros Hzero.
  rewrite (weighted_models_ext _ _ _ (λ _, false)) by apply (unsat_all _ Hzero).
  apply weighted_models_false.
Qed.

(** A decomposable, deterministic and smooth circuit evaluates to its
    weighted model count. *)
Lemma eval_weighted_model_count lw (c : circuit) :
  proper c = true → eval lw c = weighted_model_count lw c.
Proof.
  induction c as [lit| | |x IHx y IHy|x IHx y IHy]; intros Hproper.
  - cbn [eval]. unfold weighted_model_count. cbn [vars sat].
    rewrite elements_singleton. cbn [weighted_models].
    unfold sat_lit. destruct (0 <? lit) eqn:Hpos.
    + apply Z.ltb_lt in Hpos. rewrite Z.abs_eq by lia.
      rewrite bool_decide_eq_true_2 by set_solver.
      rewrite bool_decide_eq_false_2 by set_solver.
      by rewrite sr_mul_1_r, sr_mul_0_r, sr_add_0_r.
    + apply Z.ltb_ge in Hpos. rewrite Z.abs_neq by lia.
      rewrite bool_decide_eq_true_2 by set_solver.
      rewrite bool_decide_eq_false_2 by set_solver.
      cbn [negb]. rewrite sr_mul_1_r, sr_mul_0_r, sr_add_0_l. f_equal. lia.
  - unfold weighted_model_count. cbn [vars sat]. by rewrite elements_empty.
  - unfold weighted_model_count. cbn [vars sat]. by rewrite elements_empty.
  - cbn [proper] in Hproper.
    apply andb_prop in Hproper as [Hproper Hdisj]. apply andb_prop in Hproper as [Hx Hy].
    apply bool_decide_eq_true in Hdisj.
    cbn [eval]. rewrite IHx, IHy by done.
    unfold weighted_model_count at 3. cbn [vars sat].
    rewrite (weighted_models_perm _ _ (elements (vars x) ++ elements (vars y)))
      by by apply elements_disj_union.
    symmetry. apply weighted_models_product.
    + intros v Hv. apply sat_ignores. apply elem_of_elements in Hv. set_solver.
    + intros v Hv. apply sat_ignores. apply elem_of_elements in Hv. set_solver.
  - cbn [proper] in Hproper.
    apply andb_prop in Hproper as [Hproper Hsy]. apply andb_prop in Hproper as [Hproper Hsx].
    apply andb_prop in Hproper as [Hproper Hdet]. apply andb_prop in Hproper as [Hx Hy].
    apply Nat.eqb_eq in Hdet.
    cbn [eval]. rewrite IHx, IHy by done.
    unfold weighted_model_count at 3. cbn [vars sat].
    rewrite weighted_models_sum by apply (unsat_all (CMul x y) Hdet).
    f_equal.
    + apply orb_prop in Hsx as [Hsx|Hsx].
      * apply Nat.eqb_eq in Hsx. unfold weighted_model_count.
        by rewrite !weighted_models_unsat.
      * apply bool_decide_eq_true in Hsx. unfold weighted_model_count. by rewrite <- Hsx.
    + apply orb_prop in Hsy as [Hsy|Hsy].
      * apply Nat.eqb_eq in Hsy. unfold weighted_model_count.
        by rewrite !weighted_models_unsat.
      * apply bool_decide_eq_true in Hsy. unfold weighted_model_count. by rewrite <- Hsy.
Qed.

End semiring.

Lemma exact_range_le (n : Z → Z) (c : circuit) : exact_range n c → eval n c ≤ 2 ^ 53.
Proof. destruct c; cbn [exact_range eval]; intros H; cbn; lia. Qed.

(** In binary64, on weights that are whole numbers, a decomposable,
    deterministic and smooth circuit whose values stay within [2^53]
    evaluates to the float of its weighted model count. *)
Lemma eval_float_weighted_model_count (lw : Z → float) (n : Z → Z) (c : circuit) :
  (∀ lit, lw lit = float_of_Z (n lit) ∧ 0 ≤ n lit ≤ 2 ^ 53) →
  proper c = true → exact_range n c →
  eval lw c = float_of_Z (weighted_model_count n c).
Proof.
  intros Hlw Hproper Hrange.
  rewrite <- eval_weighted_model_count by done.
  destruct (eval_holds_integer lw n c) as [Hholds Hnonneg]; [|done|].
  { intros lit. destruct (Hlw lit) as [-> Hn]. by apply float_of_Z_holds. }
  apply holds_integer_eq; [|done]. split; [done|]. by apply exact_range_le.
Qed.

(** X19.  In binary64, for a table whose weights are whole numbers from 0
    to [2^53] (an absent key weighing 1.0) and a file whose circuit is
    decomposable, deterministic and smooth, each evaluator returns the float
    of the weighted model count of the circuit, provided every value met
    while evaluating stays within [2^53]: the sum, over the satisfying
    assignments to the variables of the circuit, of the product of the
    weights of the literals the assignment makes true. *)
Theorem result_is_weighted_model_count :
  ∀ (M : Type) (HM : Lookup Z float M) (weights : M) (n : Z → Z),
    (∀ lit, table_weight weights lit = float_of_Z (n lit) ∧ 0 ≤ n lit ≤ 2 ^ 53) →
    (∀ nnf_file c,
       nnf_circuit nnf_file = Ok (Some c) → proper c = true → exact_range n c →
       nnf_file_wmc nnf_file (Some weights)
       = Ok (Some (float_of_Z (weighted_model_count n c))))
    ∧ (∀ sdd_file c,
         sdd_circuit sdd_file = Ok (Some c) → proper c = true → exact_range n c →
         sdd_file_wmc sdd_file (Some weights)
         = Ok (Some (float_of_Z (weighted_model_count n c)))).
Proof.
  intros M HM weights n Hweights. split.
  - intros nnf_file c Hc Hproper Hrange. rewrite nnf_file_wmc_hom, Hc. cbn.
    by rewrite (eval_float_weighted_model_count _ n).
  - intros sdd_file c Hc Hproper Hrange. rewrite sdd_file_wmc_hom, Hc. cbn.
    by rewrite (eval_float_weighted_model_count _ n).
Qed.

Lemma result_is_weighted_model_count_witness :
  let weights : gmap Z float :=
    {[1 := 2.0%float; -1 := 3.0%float; 2 := 5.0%float; -2 := 7.0%float]} in
  (* x1 ∧ (x2 ∨ ¬x2)  ∨  ¬x1 ∧ x2 :  2*5 + 2*7 + 3*5 *)
  let nnf_file :=
    text ["nnf 8 8 2"; "L 1"; "L -1"; "L 2"; "L -2"; "O 2 2 2 3"; "A 2 0 4"; "A 2 1 2";
          "O 1 2 5 6"] in
  let sdd_file :=
    text ["sdd 8"; "L 1 0 1"; "L 2 0 -1"; "L 4 2 2"; "L 5 2 -2"; "T 3"; "F 6";
          "D 7 2 2 4 3 5 3"; "D 0 1 2 1 7 2 4"] in
  nnf_file_wmc nnf_file (Some weights) = Ok (Some 39.0%float)
  ∧ sdd_file_wmc sdd_file (Some weights) = Ok (Some 39.0%float).
Proof.
  intros weights nnf_file sdd_file.
  set (n := λ lit : Z,
         if decide (lit = 1) then 2 else if decide (lit = -1) then 3
         else if decide (lit = 2) then 5 else if decide (lit = -2) then 7 else 1).
  assert (Hweights : ∀ lit, table_weight weights lit = float_of_Z (n lit)
                            ∧ 0 ≤ n lit ≤ 2 ^ 53).
  { intros lit. unfold table_weight, weights, n.
    destruct (decide (lit = 1)) as [->|]; [split; [reflexivity|lia]|].
    destruct (decide (lit = -1)) as [->|]; [split; [reflexivity|lia]|].
    destruct (decide (lit = 2)) as [->|]; [split; [reflexivity|lia]|].
    destruct (decide (lit = -2)) as [->|]; [split; [reflexivity|lia]|].
    rewrite !lookup_insert_ne by done. rewrite lookup_singleton_ne by done.
    split; [reflexivity|lia]. }
  destruct (result_is_weighted_model_count (gmap Z float) _ weights n Hweights)
    as [Hnnf Hsdd].
  split.
  - erewrite Hnnf; [|vm_compute; reflexivity|vm_compute; reflexivity|].
    + vm_compute. reflexivity.
    + vm_compute. repeat split; discriminate.
  - erewrite Hsdd; [|vm_compute; reflexivity|vm_compute; reflexivity|].
    + vm_compute. reflexivity.
    + vm_compute. repeat split; discriminate.
Defined.

(** * The keys [sdd_to_dot] reads in the label map *)

Section label_keys.
Context (m1 m2 : LitNameMap) (show_id merge_leafs : bool).

Lemma get_name_ext (name : Z + string) :
  m1 !! name = m2 !! name → get_name m1 name = get_name m2 name.
Proof. intros H. unfold get_name. by rewrite H. Qed.

Lemma leaf_to_dot_ext (node : SddNode) (st : render_state) :
  is_decision node = false →
  (∀ k, k ∈ label_keys node m1 → m1 !! k = m2 !! k) →
  leaf_to_dot node m1 show_id merge_leafs st = leaf_to_dot node m2 show_id merge_leafs st.
Proof.
  intros Hleaf Hkeys. unfold leaf_to_dot.
  assert (_format_sddnode_label node None m1 = _format_sddnode_label node None m2) as ->;
    [|done].
  unfold _format_sddnode_label.
  destruct node as [id vt|id vt|id vt lit|id vt elts]; cbn [is_decision] in Hleaf;
    [| | |done]; cbn [label_keys is_true is_false node_literal] in *.
  - rewrite <- (Hkeys (inr "true")) by (apply list_elem_of_here).
    apply get_name_ext, Hkeys. apply list_elem_of_further, list_elem_of_here.
  - rewrite <- (Hkeys (inr "false")) by (apply list_elem_of_here).
    apply get_name_ext, Hkeys. apply list_elem_of_further, list_elem_of_here.
  - apply get_name_ext, Hkeys, list_elem_of_here.
Qed.

Lemma elements_loop_ext (rec1 rec2 : SddNode → render_state → (string * list string) * render_state)
    (id : N) (elts : list (SddNode * SddNode)) :
  Forall (λ ps, (∀ st, rec1 ps.1 st = rec2 ps.1 st) ∧ (∀ st, rec1 ps.2 st = rec2 ps.2 st)) elts →
  (elts ≠ [] → m1 !! inr "mult" = m2 !! inr "mult") →
  ∀ idx s st,
    elements_loop rec1 m1 id elts idx s st = elements_loop rec2 m2 id elts idx s st.
Proof.
  induction 1 as [|[prime sub] elts [Hp Hs] _ IH]; intros Hmult idx s st;
    cbn [elements_loop]; [done|].
  cbn [fst snd] in Hp, Hs. rewrite Hp.
  destruct (rec2 prime st) as [[prime_id prime_s] st1]. rewrite Hs.
  destruct (rec2 sub st1) as [[sub_id sub_s] st2].
  unfold element_stmt. rewrite (Hmult ltac:(done)).
  destruct elts as [|ps elts]; [done|].
  apply IH. intros _. by apply Hmult.
Qed.

Lemma sddnode_to_dot_int_ext (node : SddNode) :
  (∀ x k, x ∈ subnodes node → k ∈ label_keys x m1 → m1 !! k = m2 !! k) →
  ∀ st, _sddnode_to_dot_int node m1 show_id merge_leafs st
        = _sddnode_to_dot_int node m2 show_id merge_leafs st.
Proof.
  induction node as [id vt|id vt|id vt lit|id vt elts IH] using SddNode_nested_ind;
    intros Hkeys st; rewrite !visit_unfold; case_bool_decide; try done;
    try (apply leaf_to_dot_ext; [done|]; intros k Hk;
         by apply (Hkeys _ k (subnodes_self _))).
  pose proof (Hkeys _ (inr "add") (subnodes_self _) (list_elem_of_here _ _)) as Hadd.
  unfold decision_stmt. rewrite Hadd.
  rewrite (elements_loop_ext
             (λ child st, _sddnode_to_dot_int child m1 show_id merge_leafs st)
             (λ child st, _sddnode_to_dot_int child m2 show_id merge_leafs st)); [done| |].
  - rewrite Forall_forall in IH. apply Forall_forall. intros [prime sub] Hin.
    destruct (IH _ Hin) as [IHp IHs]. cbn [fst snd] in *.
    split; [apply IHp|apply IHs]; intros x k Hx; apply Hkeys;
      eapply subnodes_element; eauto.
  - intros Hne. apply (Hkeys _ _ (subnodes_self _)). cbn [label_keys].
    destruct elts; [done|]. apply list_elem_of_further, list_elem_of_here.
Qed.

End label_keys.

(** X20.  [sdd_to_dot] reads the label map only at the keys of the nodes
    below the root: "true" or "false" and the name found there for a true or
    false node, the literal for a literal node, "add" for a decision node and
    "mult" for its elements.  Two maps that agree at these keys give the same
    text and the same counter, and [litnamemap=None] stands for the empty
    map. *)
Theorem sdd_labels_from_keys_of_nodes :
  ∀ (root : SddNode) (m1 m2 : LitNameMap) (show_id merge_leafs : bool) (g : N),
    (∀ x k, x ∈ subnodes root → k ∈ label_keys x m1 → m1 !! k = m2 !! k) →
    sdd_to_dot (Some root) (Some m1) show_id merge_leafs g
    = sdd_to_dot (Some root) (Some m2) show_id merge_leafs g
    ∧ sdd_to_dot (Some root) None show_id merge_leafs g
      = sdd_to_dot (Some root) (Some ∅) show_id merge_leafs g.
Proof.
  intros root m1 m2 show_id merge_leafs g Hkeys. split; [|done].
  unfold sdd_to_dot, sdd_to_dot_lines. cbn [default].
  by rewrite (sddnode_to_dot_int_ext m1 m2 show_id merge_leafs root Hkeys).
Qed.

Lemma sdd_labels_from_keys_of_nodes_witness :
  let root :=
    DecisionNode 4 (Some 1)
      [(LiteralNode 1 (Some 0) 1, TrueNode 3 None);
       (LiteralNode 2 (Some 0) (-1), LiteralNode 5 (Some 2) 2)] in
  let m1 : LitNameMap := {[inl 1 := "a"; inr "true" := "yes"; inr "false" := "no"]} in
  let m2 : LitNameMap := {[inl 1 := "a"; inr "true" := "yes"; inl 7 := "g"]} in
  sdd_to_dot (Some root) (Some m1) true false 0
  = sdd_to_dot (Some root) (Some m2) true false 0.
Proof.
  intros root m1 m2.
  apply (sdd_labels_from_keys_of_nodes root m1 m2 true false 0%N).
  intros x k Hx Hk. unfold root in Hx. cbn in Hx.
  repeat (apply elem_of_cons in Hx as [->|Hx]); [..|by apply elem_of_nil in Hx];
    cbn in Hk;
    repeat (apply elem_of_cons in Hk as [->|Hk]); try (by apply elem_of_nil in Hk);
    vm_compute; reflexivity.
Defined.

(** * Shared decision nodes *)

(** ** The edges that point to a decision node *)
Section references.
Context (litnamemap : LitNameMap) (show_id merge_leafs : bool).

Local Abbreviation visit node st :=
  (_sddnode_to_dot_int node litnamemap show_id merge_leafs st).
Local Abbreviation loop :=
  (elements_loop (λ child st, _sddnode_to_dot_int child litnamemap show_id merge_leafs st)
     litnamemap).

(** A decision node is referred to by [str(node.id)], visited or not. *)
Lemma decision_returns_id (node : SddNode) (st : render_state) :
  is_decision node = true → (visit node st).1.1 = Py.str_N (node_id node).
Proof.
  intros Hdec. rewrite visit_unfold. case_bool_decide; [done|].
  destruct node as [| | |id vt elts]; try done.
  by destruct (elements_loop _ _ _ _ _ _ _).
Qed.

(** The loop over the elements of a node emits, for each element, the
    edges from its element node to the identifiers of prime and sub. *)
Lemma loop_child_edges (id : N) (elts : list (SddNode * SddNode)) (i : nat)
    (prime sub : SddNode) :
  elts !! i = Some (prime, sub) →
  ∀ idx st,
    (is_decision prime = true →
     child_edge id (idx + N.of_nat i) (Py.str_N (node_id prime)) ∈ (loop id elts idx [] st).1)
    ∧ (is_decision sub = true →
       child_edge id (idx + N.of_nat i) (Py.str_N (node_id sub)) ∈ (loop id elts idx [] st).1).
Proof.
  revert i. induction elts as [|[p s] elts IH]; intros i Hi idx st; [done|].
  rewrite loop_cons. cbn zeta. cbn [fst snd].
  destruct i as [|i]; cbn in Hi.
  - injection Hi as -> ->. rewrite N.add_0_r. split; intros Hdec.
    + rewrite decision_returns_id by done.
      do 2 apply list_elem_of_further. apply list_elem_of_here.
    + rewrite (decision_returns_id sub) by done.
      do 3 apply list_elem_of_further. apply list_elem_of_here.
  - destruct (IH i Hi (idx + 1)%N (visit s (visit p st).2).2) as [IHp IHs].
    replace (idx + N.of_nat (S i))%N with (idx + 1 + N.of_nat i)%N by lia.
    split; intros Hdec; do 4 apply list_elem_of_further;
      apply elem_of_app; right; apply elem_of_app; right; auto.
Qed.

Lemma loop_emitted (p : SddNode) (line : string) (id : N) (elts : list (SddNode * SddNode)) :
  Forall (λ ps, emitted_when_visited litnamemap show_id merge_leafs p line ps.1 ∧ emitted_when_visited litnamemap show_id merge_leafs p line ps.2) elts →
  ∀ idx st, node_id p ∉ visited st → node_id p ∈ visited (loop id elts idx [] st).2 →
            line ∈ (loop id elts idx [] st).1.
Proof.
  induction 1 as [|[prime sub] elts [IHp IHs] _ IH]; intros idx st Hout Hin; [done|].
  rewrite loop_cons in Hin |- *. cbn zeta in *. cbn [fst snd] in *.
  do 4 apply list_elem_of_further.
  destruct (decide (node_id p ∈ visited (visit prime st).2)) as [H1|H1].
  { apply elem_of_app. left. by apply IHp. }
  apply elem_of_app. right.
  destruct (decide (node_id p ∈ visited (visit sub (visit prime st).2).2)) as [H2|H2].
  { apply elem_of_app. left. by apply IHs. }
  apply elem_of_app. right. by apply IH.
Qed.

Lemma visit_emitted (p : SddNode) (line : string) (node : SddNode) :
  is_decision p = true →
  (∀ st, line ∈ (loop (node_id p) (node_elements p) 0 [] st).1) →
  (∀ x, x ∈ subnodes node → node_id x = node_id p → x = p) →
  emitted_when_visited litnamemap show_id merge_leafs p line node.
Proof.
  intros Hp Hline.
  induction node as [id vt|id vt|id vt lit|id vt elts IH] using SddNode_nested_ind;
    intros Hsame st Hout Hin; rewrite visit_unfold in Hin |- *;
    case_bool_decide as Hvis; try done.
  1-3: exfalso; rewrite leaf_to_dot_visited in Hin; destruct merge_leafs; [|done];
       apply elem_of_union in Hin as [Hin|Hin]; [|done];
       apply elem_of_singleton in Hin;
       specialize (Hsame _ (subnodes_self _) (eq_sym Hin)); by subst p.
  rewrite loop_acc in Hin |- *. cbn [fst snd] in *.
  apply list_elem_of_further. cbn [app].
  destruct (decide (id = node_id p)) as [Hid|Hid].
  - specialize (Hsame _ (subnodes_self _) Hid). subst p. cbn [node_id node_elements] in *.
    apply Hline.
  - apply (loop_emitted p line); [| |done].
    2:{ cbn. intros [H%elem_of_singleton|H]%elem_of_union; [by apply Hid|done]. }
    rewrite Forall_forall in IH. apply Forall_forall. intros [prime sub] Helt.
    destruct (IH _ Helt) as [IHp IHs]. cbn [fst snd] in *.
    split; [apply IHp|apply IHs]; intros x Hx; apply Hsame;
      eapply subnodes_element; eauto.
Qed.

End references.

(** ** The claim *)

Lemma child_edge_text (a i : N) (child : string) :
  child_edge a i child
  = "ps_" +:+ Py.str_N a +:+ "_" +:+ Py.str_N i +:+ " -> " +:+ child +:+ ";".
Proof. unfold child_edge, ps_id. by rewrite !string_app_assoc. Qed.

(** C9.  During one [sdd_to_dot] call over a DAG whose nodes have distinct
    ids, a decision node enters the visited set before the loop over its
    elements runs; each statement it owns (its node statement, the
    statement of each of its element nodes and the edge to each of them)
    occurs exactly once in the output and each of its element nodes has
    exactly two outgoing edges there, however many parents reach the node;
    and every reference to the node, the first one or a later one, uses
    [str(node.id)], a later one emitting nothing.  The text [sdd_to_dot]
    returns is these lines joined by newlines; exactly one of them is a node
    statement under the id of the node; and for every element of every
    parent that has the node as prime or sub, the edge
    [ps_<parent id>_<idx> -> <id>;] from that element to the id of the node
    is among them. *)
Theorem decision_node_rendered_once :
  ∀ (root : SddNode) (litnamemap : LitNameMap) (show_id merge_leafs : bool),
    unique_ids root →
    ∀ d : SddNode,
      d ∈ subnodes root → is_decision d = true →
      (∀ st, node_id d ∉ visited st →
         _sddnode_to_dot_int d litnamemap show_id merge_leafs st
         = let '(s, st') :=
             elements_loop
               (λ child st, _sddnode_to_dot_int child litnamemap show_id merge_leafs st)
               litnamemap (node_id d) (node_elements d) 0%N
               [decision_stmt litnamemap show_id d] (visited_add d st) in
           ((Py.str_N (node_id d), s), st'))
      ∧ (∀ stmt, owned_by litnamemap show_id d stmt →
           ∀ g, occurrences stmt (sdd_to_dot_lines root litnamemap show_id merge_leafs g).1
                = 1%nat)
      ∧ (∀ idx, (idx < length (node_elements d))%nat →
           ∀ g, count_lines (is_child_edge (node_id d) (N.of_nat idx))
                  (sdd_to_dot_lines root litnamemap show_id merge_leafs g).1 = 2%nat)
      ∧ (∀ st, (_sddnode_to_dot_int d litnamemap show_id merge_leafs st).1.1
               = Py.str_N (node_id d))
      ∧ (∀ st, node_id d ∈ visited st →
           _sddnode_to_dot_int d litnamemap show_id merge_leafs st
           = ((Py.str_N (node_id d), []), st))
      ∧ (∀ g, (sdd_to_dot (Some root) (Some litnamemap) show_id merge_leafs g).1
              = Ok (Py.join (String "010" "")
                      (sdd_to_dot_lines root litnamemap show_id merge_leafs 0).1))
      ∧ (∀ g, count_lines (declares (Py.str_N (node_id d)))
                (sdd_to_dot_lines root litnamemap show_id merge_leafs g).1 = 1%nat)
      ∧ (∀ (p : SddNode) (idx : nat) (prime sub : SddNode) (g : N),
           p ∈ subnodes root → node_elements p !! idx = Some (prime, sub) →
           prime = d ∨ sub = d →
           "ps_" +:+ Py.str_N (node_id p) +:+ "_" +:+ Py.str_N (N.of_nat idx) +:+ " -> "
             +:+ Py.str_N (node_id d) +:+ ";"
           ∈ (sdd_to_dot_lines root litnamemap show_id merge_leafs g).1).
Proof.
  intros root litnamemap show_id merge_leafs Hunique d Hd Hdec. split_and!.
  - intros st Hvis. rewrite visit_unfold. rewrite bool_decide_eq_false_2 by done.
    by destruct d.
  - intros stmt Hstmt g. unfold sdd_to_dot_lines. cbn zeta.
    pose proof (occurrences_visit litnamemap show_id merge_leafs d Hdec stmt Hstmt root
                  {| node_count := g; visited := ∅ |}
                  (λ x Hx Hid, Hunique x d Hx Hd Hid)) as Hocc.
    pose proof (all_decisions_visited litnamemap show_id merge_leafs root Hunique d g Hd Hdec)
      as Hall.
    destruct (_sddnode_to_dot_int root _ _ _ _) as [[nodeid root_s] st].
    cbn [fst snd] in *.
    destruct (owned_ne_frame _ _ _ _ Hstmt) as [Hopen Hclose].
    cbn [app].
    rewrite occurrences_cons_ne, occurrences_app, (occurrences_cons_ne _ "}"), occurrences_nil
      by done.
    rewrite Hocc. unfold newly_visited. rewrite decide_True; [lia|].
    split; [done|]. apply not_elem_of_empty.
  - intros idx Hidx g. unfold sdd_to_dot_lines. cbn zeta.
    pose proof (child_edges_visit litnamemap show_id merge_leafs d Hdec idx Hidx root
                  {| node_count := g; visited := ∅ |}
                  (λ x Hx Hid, Hunique x d Hx Hd Hid)) as Hocc.
    pose proof (all_decisions_visited litnamemap show_id merge_leafs root Hunique d g Hd Hdec)
      as Hall.
    destruct (_sddnode_to_dot_int root _ _ _ _) as [[nodeid root_s] st].
    cbn [fst snd app] in *.
    rewrite child_edge_count_0, count_lines_app, (child_edge_count_0 _ _ "}");
      [|intros H; edge_norm H; discriminate H..].
    rewrite Hocc. unfold newly_visited. rewrite decide_True; [done|].
    split; [done|]. apply not_elem_of_empty.
  - intros st. rewrite visit_unfold. case_bool_decide; [done|].
    destruct d as [| | |id vt elts]; try done.
    by destruct (elements_loop _ _ _ _ _ _ _).
  - intros st Hvis. rewrite visit_unfold. by rewrite bool_decide_eq_true_2.
  - intros g. unfold sdd_to_dot. cbn zeta. cbn [default].
    by destruct (sdd_to_dot_lines _ _ _ _ _).
  - intros g. rewrite visited_ids_declared_once_aux. rewrite decide_True; [done|].
    rewrite sdd_to_dot_lines_unfold. cbn zeta. cbn [snd].
    by apply all_decisions_visited.
  - intros p idx prime sub g Hp Helt Hchild.
    assert (Hpdec : is_decision p = true).
    { destruct p; try done; by cbn in Helt. }
    rewrite <- child_edge_text.
    rewrite sdd_to_dot_lines_unfold. cbn zeta. cbn [fst].
    apply list_elem_of_further, elem_of_app. left.
    apply (visit_emitted litnamemap show_id merge_leafs p _ root Hpdec).
    + intros st.
      destruct (loop_child_edges litnamemap show_id merge_leafs (node_id p) _ idx prime sub
                  Helt 0%N st) as [Hprime Hsub].
      rewrite N.add_0_l in Hprime, Hsub.
      destruct Hchild as [-> | ->]; auto.
    + intros x Hx Hid. by apply (Hunique x p).
    + apply not_elem_of_empty.
    + by apply all_decisions_visited.
Qed.

Lemma decision_node_rendered_once_witness :
  let lit_a := LiteralNode 2 (Some 0) 1 in
  let lit_na := LiteralNode 3 (Some 0) (-1) in
  let lit_b := LiteralNode 4 (Some 2) 2 in
  let lit_nb := LiteralNode 5 (Some 2) (-2) in
  let lit_c := LiteralNode 10 (Some 4) 3 in
  let lit_nc := LiteralNode 11 (Some 4) (-3) in
  let tt := TrueNode 1 None in
  let ff := FalseNode 0 None in
  let shared := DecisionNode 6 (Some 5) [(lit_c, tt); (lit_nc, ff)] in
  let parent1 := DecisionNode 7 (Some 3) [(lit_b, shared); (lit_nb, ff)] in
  let parent2 := DecisionNode 8 (Some 3) [(lit_b, ff); (lit_nb, shared)] in
  let root := DecisionNode 9 (Some 1) [(lit_a, parent1); (lit_na, parent2)] in
  let lines := (sdd_to_dot_lines root ∅ false false 0).1 in
  occurrences (decision_stmt ∅ false shared) lines = 1%nat
  ∧ occurrences (element_edge 6 1) lines = 1%nat
  ∧ count_lines (is_child_edge 6 0) lines = 2%nat
  ∧ count_lines (declares "6") lines = 1%nat
  ∧ "ps_7_0 -> 6;" ∈ lines
  ∧ "ps_8_1 -> 6;" ∈ lines
  ∧ (sdd_to_dot (Some root) (Some ∅) false false 5).1 = Ok (Py.join (String "010" "") lines).
Proof.
  intros lit_a lit_na lit_b lit_nb lit_c lit_nc tt ff shared parent1 parent2 root lines.
  assert (Hunique : unique_ids root).
  { intros a b Ha Hb Hid. apply list_elem_of_In in Ha, Hb. cbn in Ha, Hb.
    repeat (destruct Ha as [<-|Ha]); try contradiction;
      repeat (destruct Hb as [<-|Hb]); try contradiction;
      first [reflexivity | discriminate Hid]. }
  assert (Hin : shared ∈ subnodes root).
  { apply list_elem_of_In. cbn. tauto. }
  assert (Hin1 : parent1 ∈ subnodes root).
  { apply list_elem_of_In. cbn. tauto. }
  assert (Hin2 : parent2 ∈ subnodes root).
  { apply list_elem_of_In. cbn. tauto. }
  destruct (decision_node_rendered_once root ∅ false false Hunique shared Hin eq_refl)
    as (_ & Honce & Hedges & _ & _ & Htext & Hdecl & Hrefs).
  split_and!.
  - apply Honce. constructor.
  - apply (Honce _ (owns_element_edge ∅ false shared 1 ltac:(cbn; lia))).
  - apply (Hedges 0%nat). cbn. lia.
  - apply (Hdecl 0%N).
  - apply (Hrefs parent1 0%nat lit_b shared 0%N Hin1 eq_refl). by right.
  - apply (Hrefs parent2 1%nat lit_nb shared 0%N Hin2 eq_refl). by right.
  - apply (Htext 5%N).
Defined.
